(** * CHARM: the signal cleaning pipeline and the rhythm metrics

    A shallow embedding of the interval arithmetic, window scans and filters
    of the CHARM scripts, with the properties of their specification settled
    against it.

    Conventions of the embedding.
    - A timestamp is an integer number of milliseconds ([Z]); a pandas
      [Timedelta] or a [datetime.timedelta] is a difference of such numbers.
    - A pandas [DataFrame] is the list of its rows, in table order; a
      [Series] is the list of its values.
    - A measurement (activity count, temperature, scaled value) is a
      rational number ([Q]): the binary64 values of the scripts are rational.
      The acrophase code is computed with the rounding of binary64, each
      operation rounded to the nearest number of 53 significant bits
      ([Binary64]; overflow is left out). The statistics of the other
      scripts are computed on the exact values, and their theorems are
      equalities up to that rounding, or signs and existence of a result
      that the rounding keeps.
    - A function that raises, or returns [None], returns [None] here. *)

From Stdlib Require Import ZArith QArith Qabs Qround Qpower List Lia Lqa Bool.
From Stdlib Require Import Sorting.Sorted Sorting.Permutation.
From Stdlib Require Floats Reals Qreals Machin Lra.
Import ListNotations.
Local Open Scope Z_scope.

(** ** Time units and comparisons shared by the scripts *)

Module Clock.

Definition second : Z := 1000.
Definition minute : Z := 60 * second.
Definition hour : Z := 60 * minute.

(** [Timestamp.floor(freq)] and [Timestamp.ceil(freq)]. *)
Definition floor_to (freq t : Z) : Z := (t / freq) * freq.
Definition ceil_to (freq t : Z) : Z := - ((- t) / freq) * freq.

(** [pd.date_range(start, end, freq)]: [start], [start + freq], ... up to
    and including [end]; empty when [end] is before [start]. *)
Definition date_range (start stop freq : Z) : list Z :=
  if stop <? start then []
  else map (fun k => start + Z.of_nat k * freq)
           (seq 0 (S (Z.to_nat ((stop - start) / freq)))).

(** [pd.date_range(..., inclusive='left')]: as above without [end]. *)
Definition date_range_left (start stop freq : Z) : list Z :=
  filter (fun t => t <? stop) (date_range start stop freq).

End Clock.

(** Strict comparison of two measurements, as a boolean. *)
Definition Qltb (a b : Q) : bool :=
  match Qcompare a b with Lt => true | _ => false end.

(** Python's [round(x, 2)] on the exact value: the nearest multiple of
    1/100, a tie going to the even one. *)
Definition round_half_even (x : Q) : Z :=
  let f := Qfloor x in
  match Qcompare (x - inject_Z f) (1 # 2) with
  | Lt => f
  | Gt => f + 1
  | Eq => if Z.even f then f else f + 1
  end.

Definition round2 (x : Q) : Q := Qmake (round_half_even (x * 100)) 100.

Lemma Qltb_lt (a b : Q) : Qltb a b = true <-> (a < b)%Q.
Proof.
  unfold Qltb. rewrite Qlt_alt. destruct (Qcompare a b); split; congruence.
Qed.

(** ** algorithms/counts_cal_.py and utils/read_file.check_both_zero *)

Module NonWear.
Import Clock.

(** A row of the merged table of [ActivityCounts.merge_ACs]. *)
Record row : Type := mk_row {
  time : Z;
  Acti : Q;
  Watch : Q;
  diff : Q;
  average : Q
}.

(** [merge_ACs] fills [diff] and [average] from the two counts. *)
Definition merge_row (t : Z) (acti watch : Q) : row :=
  mk_row t acti watch (watch - acti) ((watch + acti) / 2).

Definition check_both_zero (df_subset : list row) : bool :=
  forallb (fun r => Qeq_bool (Watch r) 0) df_subset
  && forallb (fun r => Qeq_bool (Acti r) 0) df_subset.

(** [data['time'].min()] and [.max()]; nothing for an empty table. *)
Definition time_min (data : list row) : option Z :=
  match data with
  | [] => None
  | r :: rs => Some (fold_left Z.min (map time rs) (time r))
  end.

Definition time_max (data : list row) : option Z :=
  match data with
  | [] => None
  | r :: rs => Some (fold_left Z.max (map time rs) (time r))
  end.

Definition window_minutes : Z := 15 * minute.

(** [data[(data['time'] >= window_start) & (data['time'] < window_end)]] *)
Definition window_of (data : list row) (window_start : Z) : list row :=
  filter (fun r => (window_start <=? time r)
                   && (time r <? window_start + window_minutes)) data.

(** The inner loop over the sleep intervals, with its [break]. *)
Definition insleep (sleep : list (Z * Z)) (window_start : Z) : bool :=
  existsb (fun s => (fst s <? window_start) && (window_start <? snd s)) sleep.

(** The two accumulators of the loop: the retained rows and the local list
    of non-wear starts. *)
Record scan_state : Type := mk_scan {
  rm_data : list row;
  nonwear_start : list Z
}.

(** The test that sends a window to the non-wear list. *)
Definition both_non_wearing (data : list row) (sleep : list (Z * Z))
  (window_start : Z) : bool :=
  negb (insleep sleep window_start)
  && (2 <=? length (window_of data window_start))%nat
  && check_both_zero (removelast (window_of data window_start)).

(** One iteration of the loop over the window starts. *)
Definition scan_step (data : list row) (sleep : list (Z * Z))
  (st : scan_state) (window_start : Z) : scan_state :=
  let window := window_of data window_start in
  if negb (insleep sleep window_start) && (2 <=? length window)%nat then
    if check_both_zero (removelast window) then
      mk_scan (rm_data st) (nonwear_start st ++ map time (firstn 1 window))
    else mk_scan (rm_data st ++ window) (nonwear_start st)
  else mk_scan (rm_data st ++ window) (nonwear_start st).

(** The window starts: [pd.date_range(min, max - 15 min, freq='15T')]. *)
Definition window_starts (lo hi : Z) : list Z :=
  date_range lo (hi - window_minutes) window_minutes.

Definition scan_windows (data : list row) (sleep : list (Z * Z))
  (lo hi : Z) : scan_state :=
  fold_left (scan_step data sleep) (window_starts lo hi) (mk_scan [] []).

Definition pct_removed (data rm : list row) : Q :=
  round2 ((inject_Z (Z.of_nat (length data) - Z.of_nat (length rm))
           / inject_Z (Z.of_nat (length data))) * 100).

Definition remove_both_non_wearing (data : list row) (sleep : list (Z * Z))
  : option (Q * list row) :=
  match time_min data, time_max data with
  | Some lo, Some hi =>
      let st := scan_windows data sleep lo hi in
      Some (pct_removed data (rm_data st), rm_data st)
  | _, _ => None
  end.

(** The second pass keeps a row on either of its two conditions. *)
Definition condition_1 (r : row) : bool :=
  Qltb (diff r) (2 * average r) && Qltb (- 2 * average r) (diff r).

Definition condition_2 (r : row) : bool := Qltb (Qabs (diff r)) 500.

Definition remove_single_non_wearing (data : list row)
  : option (Q * list row) :=
  match data with
  | [] => None
  | _ =>
      let rm := filter (fun r => condition_1 r || condition_2 r) data in
      Some (pct_removed data rm, rm)
  end.

(** *** The window scan, window by window *)

Lemma scan_fold (data : list row) (sleep : list (Z * Z)) (ws : list Z) :
  forall st,
    fold_left (scan_step data sleep) ws st =
    mk_scan
      (rm_data st ++
       flat_map (fun w => if both_non_wearing data sleep w then []
                          else window_of data w) ws)
      (nonwear_start st ++
       flat_map (fun w => if both_non_wearing data sleep w
                          then map time (firstn 1 (window_of data w))
                          else []) ws).
Proof.
  induction ws as [|w ws IH]; intros [rm nw]; simpl.
  - now rewrite !app_nil_r.
  - rewrite IH. unfold scan_step, both_non_wearing.
    destruct (negb (insleep sleep w) && (2 <=? length (window_of data w))%nat);
      simpl; [destruct (check_both_zero (removelast (window_of data w)))|];
      simpl; now rewrite <- ?app_assoc, ?app_nil_r.
Qed.

(** Every scanned window is either dropped whole, its first timestamp going
    to the non-wear list, or appended whole to the output; it is dropped
    exactly when it is outside sleep, has two rows or more and both counts
    are zero in all its rows but the last. *)
Lemma scan_windows_spec (data : list row) (sleep : list (Z * Z)) (lo hi : Z) :
  rm_data (scan_windows data sleep lo hi) =
    flat_map (fun w => if both_non_wearing data sleep w then []
                       else window_of data w) (window_starts lo hi)
  /\ nonwear_start (scan_windows data sleep lo hi) =
    flat_map (fun w => if both_non_wearing data sleep w
                       then map time (firstn 1 (window_of data w))
                       else []) (window_starts lo hi).
Proof.
  unfold scan_windows. rewrite scan_fold. simpl. auto.
Qed.

Lemma both_non_wearing_spec (data : list row) (sleep : list (Z * Z)) (w : Z) :
  both_non_wearing data sleep w = true <->
  (forall t0 t1, In (t0, t1) sleep -> ~ (t0 < w < t1))
  /\ (2 <= length (window_of data w))%nat
  /\ (forall r, In r (removelast (window_of data w)) ->
        (Watch r == 0)%Q /\ (Acti r == 0)%Q).
Proof.
  unfold both_non_wearing, insleep, check_both_zero.
  rewrite !andb_true_iff, negb_true_iff, Nat.leb_le, !forallb_forall.
  split.
  - intros [[Hs Hl] [Hw Ha]]. repeat split; auto.
    + intros t0 t1 Hin [H0 H1].
      assert (existsb (fun s => (fst s <? w) && (w <? snd s)) sleep = true)
        as Hex.
      { apply existsb_exists. exists (t0, t1). split; auto. simpl.
        apply andb_true_iff. split; apply Z.ltb_lt; assumption. }
      congruence.
    + apply Qeq_bool_iff. auto.
    + apply Qeq_bool_iff. auto.
  - intros (Hs & Hl & Hz). repeat split; auto.
    + destruct (existsb _ sleep) eqn:E; auto.
      apply existsb_exists in E. destruct E as [[t0 t1] [Hin Hb]].
      simpl in Hb. apply andb_true_iff in Hb. destruct Hb as [H0 H1].
      apply Z.ltb_lt in H0, H1. exfalso. apply (Hs t0 t1 Hin). lia.
    + intros r Hr. apply Qeq_bool_iff. apply (Hz r Hr).
    + intros r Hr. apply Qeq_bool_iff. apply (Hz r Hr).
Qed.

(** A retained row lies in a scanned window, and a scanned window ends at
    or before the latest timestamp of the table. *)
Lemma date_range_bound (start stop freq t : Z) :
  0 < freq -> In t (date_range start stop freq) -> start <= t <= stop.
Proof.
  unfold date_range. intros Hf Hin.
  destruct (stop <? start) eqn:E; [contradiction|].
  apply Z.ltb_ge in E. apply in_map_iff in Hin.
  destruct Hin as [k [<- Hk]]. apply in_seq in Hk.
  assert (Z.of_nat k <= (stop - start) / freq) as Hle.
  { rewrite <- (Z2Nat.id ((stop - start) / freq)).
    - lia.
    - apply Z.div_pos; lia. }
  assert (freq * ((stop - start) / freq) <= stop - start)
    by (apply Z.mul_div_le; lia).
  nia.
Qed.

Lemma rm_data_before_latest (data : list row) (sleep : list (Z * Z))
  (lo hi : Z) (r : row) :
  In r (rm_data (scan_windows data sleep lo hi)) -> time r < hi.
Proof.
  destruct (scan_windows_spec data sleep lo hi) as [-> _].
  rewrite in_flat_map. intros [w [Hw Hr]].
  apply date_range_bound in Hw; [|reflexivity].
  destruct (both_non_wearing data sleep w); [contradiction|].
  unfold window_of in Hr. apply filter_In in Hr. destruct Hr as [_ Hb].
  apply andb_true_iff in Hb. destruct Hb as [_ Hb]. apply Z.ltb_lt in Hb.
  lia.
Qed.

(** The output of [remove_both_non_wearing] is made of the scanned windows
    that are not both-zero windows, in scan order, and every row of it is
    earlier than the latest timestamp of the table. *)
Lemma remove_both_non_wearing_scanned (data : list row) (sleep : list (Z * Z)) :
  data <> [] ->
  exists lo hi pct,
    time_min data = Some lo /\ time_max data = Some hi
    /\ remove_both_non_wearing data sleep =
         Some (pct,
               flat_map (fun w => if both_non_wearing data sleep w then []
                                  else window_of data w)
                        (window_starts lo hi))
    /\ forall r pct' rm,
         remove_both_non_wearing data sleep = Some (pct', rm) ->
         In r rm -> time r < hi.
Proof.
  intros Hne. destruct data as [|r0 data]; [congruence|].
  unfold remove_both_non_wearing.
  destruct (time_min (r0 :: data)) as [lo|] eqn:Elo; [|discriminate].
  destruct (time_max (r0 :: data)) as [hi|] eqn:Ehi; [|discriminate].
  exists lo, hi. eexists. repeat split.
  - cbv zeta. destruct (scan_windows_spec (r0 :: data) sleep lo hi) as [-> _].
    reflexivity.
  - intros r pct' rm H Hin. cbv zeta in H. injection H as _ <-.
    eapply rm_data_before_latest. exact Hin.
Qed.

(** The condition of the second pass in the words of the specification. *)
Definition retained_by_spec (r : row) : bool :=
  Qltb (Qabs (diff r)) (2 * average r) || Qltb (Qabs (diff r)) 500.

Lemma condition_1_abs (r : row) :
  condition_1 r = Qltb (Qabs (diff r)) (2 * average r).
Proof.
  apply eq_true_iff_eq. unfold condition_1.
  rewrite andb_true_iff, !Qltb_lt, Qabs_Qlt_condition.
  assert (- 2 * average r == - (2 * average r))%Q as -> by ring.
  tauto.
Qed.

(** Three rows ten minutes apart, both devices active throughout. *)
Definition short_table : list row :=
  [ merge_row 0 12 10;
    merge_row (10 * minute) 9 7;
    merge_row (20 * minute) 25 30 ].

(** One 15-minute window, a row per minute, both counts zero but in the
    last row. *)
Definition quiet_window : list row :=
  map (fun k => merge_row (Z.of_nat k * minute) 0 0) (seq 0 14)
  ++ [ merge_row (14 * minute) 40 35 ].

(** C1 (the code at the failing inputs). The scan stops at the last window
    start not later than the latest timestamp minus 15 minutes, and only
    scanned windows reach the output. In [short_table] the window starting
    at minute 15 holds the single, non-zero row of minute 20: it is not a
    both-zero window, yet it is absent from the output, and no non-wear
    start is recorded for it. In [quiet_window], 15 minutes of data inside a
    sleep interval, no window is scanned at all: the output is empty although
    the window starts in sleep. *)
Theorem remove_both_non_wearing_loses_last_window :
  remove_both_non_wearing short_table [] =
    Some (3333 # 100,
          [ merge_row 0 12 10; merge_row (10 * minute) 9 7 ])%Q
  /\ both_non_wearing short_table [] (15 * minute) = false
  /\ window_of short_table (15 * minute) = [ merge_row (20 * minute) 25 30 ]
  /\ nonwear_start (scan_windows short_table [] 0 (20 * minute)) = []
  /\ insleep [(- hour, hour)] 0 = true
  /\ remove_both_non_wearing quiet_window [(- hour, hour)] =
       Some (10000 # 100, [])%Q.
Proof.
  repeat split; vm_compute; reflexivity.
Qed.

(** C2. The second pass keeps exactly the rows whose absolute difference is
    below twice the average or below 500, in table order; diff = 400 with
    average = 100 and diff = 1500 with average = 1000 are kept, diff = 1500
    with average = 100 is removed. *)
Theorem remove_single_non_wearing_retains :
  (forall data,
     match remove_single_non_wearing data with
     | Some (_, rm) => rm = filter retained_by_spec data
     | None => data = []
     end)
  /\ (forall r, retained_by_spec r = true <->
        (Qabs (diff r) < 2 * average r \/ Qabs (diff r) < 500)%Q)
  /\ (forall t a w, remove_single_non_wearing [mk_row t a w 400 100] =
        Some (0 # 100, [mk_row t a w 400 100])%Q)
  /\ (forall t a w, remove_single_non_wearing [mk_row t a w 1500 1000] =
        Some (0 # 100, [mk_row t a w 1500 1000])%Q)
  /\ (forall t a w, remove_single_non_wearing [mk_row t a w 1500 100] =
        Some (10000 # 100, [])%Q).
Proof.
  split; [|split; [|repeat split; intros; reflexivity]].
  - intros [|r data]; [reflexivity|].
    unfold remove_single_non_wearing. apply filter_ext.
    intros x. now rewrite condition_1_abs.
  - intros r. unfold retained_by_spec.
    now rewrite orb_true_iff, !Qltb_lt.
Qed.

End NonWear.

(** ** Sorting, as [sorted(..., key=...)] and [Series.sort_values] do it *)

Module Ordering.

Section SortedBy.
Context {A : Type} (key : A -> Z).

Fixpoint insert_by (x : A) (l : list A) : list A :=
  match l with
  | [] => [x]
  | y :: l' => if key y <=? key x then y :: insert_by x l' else x :: y :: l'
  end.

(** A stable sort by [key]: elements with equal keys keep their order. *)
Definition sorted_by (l : list A) : list A :=
  fold_left (fun acc x => insert_by x acc) l [].

Lemma insert_by_perm (x : A) (l : list A) : Permutation (x :: l) (insert_by x l).
Proof.
  induction l as [|y l IH]; simpl; [reflexivity|].
  destruct (key y <=? key x); [|reflexivity].
  rewrite perm_swap. now apply perm_skip.
Qed.

Lemma insert_by_sorted (x : A) (l : list A) :
  StronglySorted (fun a b => key a <= key b) l ->
  StronglySorted (fun a b => key a <= key b) (insert_by x l).
Proof.
  induction 1 as [|y l Hs IH Hy]; simpl.
  - repeat constructor.
  - destruct (key y <=? key x) eqn:E.
    + constructor; [assumption|].
      apply Z.leb_le in E.
      eapply Permutation_Forall; [apply insert_by_perm|].
      constructor; assumption.
    + apply Z.leb_gt in E. constructor.
      * constructor; assumption.
      * constructor; [lia|].
        eapply Forall_impl; [|exact Hy]. simpl. intros; lia.
Qed.

Lemma sorted_by_fold (l acc : list A) :
  StronglySorted (fun a b => key a <= key b) acc ->
  StronglySorted (fun a b => key a <= key b)
    (fold_left (fun acc x => insert_by x acc) l acc)
  /\ Permutation (acc ++ l) (fold_left (fun acc x => insert_by x acc) l acc).
Proof.
  revert acc. induction l as [|x l IH]; intros acc Hacc; simpl.
  - rewrite app_nil_r. split; [assumption|reflexivity].
  - destruct (IH (insert_by x acc) (insert_by_sorted x acc Hacc)) as [Hs Hp].
    split; [assumption|].
    rewrite <- Hp. rewrite <- insert_by_perm.
    symmetry. apply Permutation_middle.
Qed.

Lemma sorted_by_sorted (l : list A) :
  StronglySorted (fun a b => key a <= key b) (sorted_by l).
Proof. apply sorted_by_fold. constructor. Qed.

Lemma sorted_by_perm (l : list A) : Permutation l (sorted_by l).
Proof. apply (sorted_by_fold l []). constructor. Qed.

Lemma sorted_by_length (l : list A) : length (sorted_by l) = length l.
Proof. symmetry. apply Permutation_length, sorted_by_perm. Qed.

End SortedBy.

(** [Series.sort_values()] on timestamps. *)
Definition sort_values (l : list Z) : list Z := sorted_by (fun t => t) l.

End Ordering.

(** ** time_preprocessing/01_Watch_charging.py *)

Module Charging.
Import Clock.

(** A row of the battery table: [time], [state] and [level]. A state that
    failed to parse is any number outside the codes the script tests. *)
Record battery_row : Type := mk_battery {
  time : Z;
  state : Z;
  level : Z
}.

Definition window_size : nat := 40.
Definition half_window : nat := 20.
Definition buffer_minute : Z := 5.
Definition increase_thres : Z := 5.

(** [Series.shift(1)] and [Series.shift(-1)]: the freed end holds NaN. *)
Definition shift_1 (l : list Z) : list (option Z) :=
  match l with
  | [] => []
  | _ :: _ => None :: map Some (removelast l)
  end.

Definition shift_neg1 (l : list Z) : list (option Z) :=
  match l with
  | [] => []
  | _ :: l' => map Some l' ++ [None]
  end.

(** [Series.isin(codes)], false on NaN. *)
Definition isin (codes : list Z) (v : option Z) : bool :=
  match v with
  | Some x => existsb (Z.eqb x) codes
  | None => false
  end.

Definition mask_and (shifted : list (option Z)) (states : list Z) : list bool :=
  map (fun p => isin [1; 2] (fst p) && isin [3; 4; 5; 6] (Some (snd p)))
      (combine shifted states).

Definition increase_mask (df_battery : list battery_row) : list bool :=
  mask_and (shift_1 (map state df_battery)) (map state df_battery).

Definition decrease_mask (df_battery : list battery_row) : list bool :=
  mask_and (shift_neg1 (map state df_battery)) (map state df_battery).

(** [df_battery.loc[mask, 'time']] *)
Definition loc_time (mask : list bool) (df_battery : list battery_row) : list Z :=
  map (fun p => time (snd p)) (filter fst (combine mask df_battery)).

(** The charge starts and ends before the counts are compared. *)
Definition charge_starttime (df_battery : list battery_row) : list Z :=
  map (fun t => t - 2 * minute) (loc_time (increase_mask df_battery) df_battery).

Definition charge_endtime (df_battery : list battery_row) : list Z :=
  map (fun t => t + 2 * minute) (loc_time (decrease_mask df_battery) df_battery).

(** The [if]/[elif] on the two lengths: [del charge_endtime[0]] or
    [charge_starttime[:-1]]. *)
Definition reconcile (starts ends : list Z) : list Z * list Z :=
  if (length starts <? length ends)%nat then (starts, tl ends)
  else if (length ends <? length starts)%nat then (removelast starts, ends)
  else (starts, ends).

(** The loop of [find_charging_time] over the battery files of the folder:
    the hour in each name and the table read from it, [None] for a file
    [battery_csv] could not read. The result is [None] while no file has
    given a table: [pd.DataFrame()] has no column. *)
Definition read_battery_folder (files : list (Z * option (list battery_row)))
  (start_time end_time : Z) : option (list battery_row) :=
  match flat_map (fun f => match snd f with Some df => [df] | None => [] end)
          (filter (fun f => (start_time <=? fst f) && (fst f <? end_time))
             (Ordering.sorted_by fst files)) with
  | [] => None
  | tables => Some (concat tables)
  end.

(** [find_charging_time] from the concatenated table on, the table having
    its columns: at least one file was read, be it one without a row. The
    final loop raises when it reads [charge_endtime[i]] past the end. *)
Definition find_charging_time (df_battery : list battery_row)
  : option (list battery_row * list Z * list Z) :=
  let (starts, ends) :=
    reconcile (charge_starttime df_battery) (charge_endtime df_battery) in
  if (length ends <? length starts)%nat then None
  else Some (df_battery, starts, ends).

(** [find_charging_time] on the folder: without a table the selection of
    the [state] column raises. *)
Definition find_charging_time_folder
  (files : list (Z * option (list battery_row))) (start_time end_time : Z)
  : option (list battery_row * list Z * list Z) :=
  match read_battery_folder files start_time end_time with
  | Some df_battery => find_charging_time df_battery
  | None => None
  end.

Definition charging_timev1 (df_battery : list battery_row)
  (start_time end_time : Z) : option (list battery_row * list Z * list Z) :=
  match find_charging_time df_battery with
  | Some (df, starts, ends) =>
      Some (df, start_time :: ends, starts ++ [end_time])
  | None => None
  end.

(** [Series.diff()]: NaN, then each value minus the one before. *)
Fixpoint diff_from (prev : Z) (l : list Z) : list (option Z) :=
  match l with
  | [] => []
  | x :: l' => Some (x - prev) :: diff_from x l'
  end.

Definition series_diff (l : list Z) : list (option Z) :=
  match l with
  | [] => []
  | x :: l' => None :: diff_from x l'
  end.

(** [Series.all()]: every value that is not NaN is non-zero. *)
Definition series_all (l : list (option Z)) : bool :=
  forallb (fun v => match v with Some d => negb (d =? 0) | None => true end) l.

(** [Series.sum()], NaN skipped. *)
Definition series_sum (l : list (option Z)) : Z :=
  fold_right (fun v acc => match v with Some d => d + acc | None => acc end) 0 l.

(** [df.iloc[i : i + n]] *)
Definition iloc {A : Type} (l : list A) (i n : nat) : list A :=
  firstn n (skipn i l).

(** The test of the first loop,
    [level_diff[:half_window].all() <= 0 and
     level_diff[half_window:].sum() > increase_thres]:
    the boolean [all()] is compared with 0 as the integer it is. *)
Definition charge_start_test (current_window : list battery_row) : bool :=
  let level_diff := series_diff (map level current_window) in
  (Z.b2z (series_all (firstn half_window level_diff)) <=? 0)
  && (increase_thres <? series_sum (skipn half_window level_diff)).

(** The two tests of the second loop. *)
Definition charge_end_test_level (current_window : list battery_row) : bool :=
  let level_diff := series_diff (map level current_window) in
  (5 <? series_sum (firstn half_window level_diff))
  && (series_sum (skipn half_window level_diff) <=? -1).

Definition charge_end_test_state (current_window : list battery_row) : bool :=
  let statuses := map state current_window in
  forallb (fun s => 2 <? s) (firstn half_window statuses)
  && forallb (fun s => s <=? 2)
       (firstn (window_size + 1 - (half_window + 1))
          (skipn (half_window + 1) statuses)).

(** The [while i < len(df_battery) - window_size] loop, [test] deciding a
    match and [stamp] the timestamp it records. [fuel] bounds the number of
    iterations; the table length is always enough. *)
Fixpoint scan (test : list battery_row -> bool) (stamp : list battery_row -> list Z)
  (df_battery : list battery_row) (fuel i : nat) : list Z :=
  match fuel with
  | O => []
  | S fuel' =>
      if (Z.of_nat i <? Z.of_nat (length df_battery) - Z.of_nat window_size)
      then
        let current_window := iloc df_battery i window_size in
        if test current_window
        then stamp current_window
             ++ scan test stamp df_battery fuel' (i + window_size)
        else scan test stamp df_battery fuel' (i + 1)
      else []
  end.

Definition first_time (current_window : list battery_row) : list Z :=
  map (fun r => time r - buffer_minute * minute) (firstn 1 current_window).

Definition last_time (current_window : list battery_row) : list Z :=
  map (fun r => time r + buffer_minute * minute)
      (skipn (length current_window - 1) current_window).

Definition charging_timev2 (df_battery : list battery_row)
  (start_time end_time : Z) : list Z * list Z :=
  let end_times2 :=
    scan charge_start_test first_time df_battery (length df_battery) 0
    ++ [end_time] in
  let start_times2 :=
    start_time ::
    scan (fun w => charge_end_test_level w || charge_end_test_state w)
         last_time df_battery (length df_battery) 0 in
  (start_times2, end_times2).

(** *** The two masks, row by row *)

Definition low (s : Z) : bool := isin [1; 2] (Some s).
Definition high (s : Z) : bool := isin [3; 4; 5; 6] (Some s).

(** The rows selected by [increase_mask], [prev] being the state above. *)
Fixpoint starts_from (prev : option Z) (df : list battery_row) : list Z :=
  match df with
  | [] => []
  | r :: df' =>
      (if isin [1; 2] prev && high (state r) then [time r] else [])
      ++ starts_from (Some (state r)) df'
  end.

(** The rows selected by [decrease_mask]. *)
Fixpoint ends_of (df : list battery_row) : list Z :=
  match df with
  | [] => []
  | r :: df' =>
      (if isin [1; 2] (option_map state (hd_error df')) && high (state r)
       then [time r] else [])
      ++ ends_of df'
  end.

Lemma loc_time_cons (b : bool) (mask : list bool) (r : battery_row)
  (df : list battery_row) :
  loc_time (b :: mask) (r :: df) =
  (if b then [time r] else []) ++ loc_time mask df.
Proof. unfold loc_time. simpl. now destruct b. Qed.

Lemma increase_mask_rows (r : battery_row) (df : list battery_row) :
  loc_time
    (mask_and (map Some (removelast (map state (r :: df)))) (map state df)) df
  = starts_from (Some (state r)) df.
Proof.
  revert r. induction df as [|r' df IH]; intros r; [reflexivity|].
  change (removelast (map state (r :: r' :: df)))
    with (state r :: removelast (map state (r' :: df))).
  unfold mask_and. simpl map. simpl combine. simpl map.
  rewrite loc_time_cons. simpl starts_from. f_equal. apply IH.
Qed.

Lemma increase_rows (df : list battery_row) :
  loc_time (increase_mask df) df = starts_from None df.
Proof.
  destruct df as [|r df]; [reflexivity|].
  unfold increase_mask. simpl map at 1. unfold shift_1.
  unfold mask_and. simpl combine. simpl map. rewrite loc_time_cons.
  simpl. apply increase_mask_rows.
Qed.

Lemma decrease_rows (df : list battery_row) :
  loc_time (decrease_mask df) df = ends_of df.
Proof.
  unfold decrease_mask.
  induction df as [|r df IH]; [reflexivity|].
  destruct df as [|r' df].
  - unfold mask_and, loc_time. simpl. now destruct (high (state r)).
  - simpl map. unfold shift_neg1. unfold mask_and.
    simpl app. simpl combine. simpl map. rewrite loc_time_cons.
    simpl ends_of. f_equal. exact IH.
Qed.

(** When every state is a tested code, an increase and a decrease alternate:
    their numbers differ by what the first and the last state are. *)
Definition valid_state (r : battery_row) : Prop := 1 <= state r <= 6.

Lemma low_high_valid (s : Z) : 1 <= s <= 6 -> low s = negb (high s).
Proof.
  intros H. unfold low, high, isin. simpl.
  assert (s = 1 \/ s = 2 \/ s = 3 \/ s = 4 \/ s = 5 \/ s = 6) as Hs by lia.
  destruct Hs as [->|[->|[->|[->|[->| ->]]]]]; reflexivity.
Qed.

Lemma last_cons {A : Type} (l : list A) (x d : A) :
  last (x :: l) d = last l x.
Proof.
  revert x d. induction l as [|y l IH]; intros x d; [reflexivity|].
  change (last (x :: y :: l) d) with (last (y :: l) d).
  now rewrite !IH.
Qed.

Lemma transitions_balance (r : battery_row) (df : list battery_row) :
  Forall valid_state (r :: df) ->
  Z.of_nat (length (starts_from (Some (state r)) df))
  - Z.of_nat (length (ends_of (r :: df)))
  = Z.b2z (high (state (last df r))) - Z.b2z (high (state r)).
Proof.
  revert r. induction df as [|r' df IH]; intros r Hv.
  - simpl. destruct (high (state r)); simpl; lia.
  - inversion Hv as [|? ? Hr Hv']; subst.
    specialize (IH r' Hv').
    rewrite last_cons.
    inversion Hv' as [|? ? Hr' _]; subst.
    change (starts_from (Some (state r)) (r' :: df))
      with ((if low (state r) && high (state r') then [time r'] else [])
            ++ starts_from (Some (state r')) df).
    change (ends_of (r :: r' :: df))
      with ((if low (state r') && high (state r) then [time r] else [])
            ++ ends_of (r' :: df)).
    rewrite !length_app, !Nat2Z.inj_add.
    rewrite (low_high_valid _ Hr), (low_high_valid _ Hr').
    set (n := length (starts_from (Some (state r')) df)) in *.
    set (m := length (ends_of (r' :: df))) in *.
    destruct (high (state r)), (high (state r'));
      cbn [negb andb length Z.b2z] in *; lia.
Qed.

Lemma starts_from_None (r : battery_row) (df : list battery_row) :
  starts_from None (r :: df) = starts_from (Some (state r)) df.
Proof. reflexivity. Qed.

Lemma counts_differ_by_one (df : list battery_row) :
  Forall valid_state df ->
  (length (charge_starttime df) <= S (length (charge_endtime df))
   /\ length (charge_endtime df) <= S (length (charge_starttime df)))%nat.
Proof.
  intros Hv. unfold charge_starttime, charge_endtime.
  rewrite !length_map, increase_rows, decrease_rows.
  destruct df as [|r df]; [simpl; lia|].
  rewrite starts_from_None.
  pose proof (transitions_balance r df Hv) as Hb.
  destruct (high (state (last df r))), (high (state r)); simpl Z.b2z in Hb; lia.
Qed.

Lemma length_removelast {A : Type} (l : list A) :
  length (removelast l) = (length l - 1)%nat.
Proof.
  induction l as [|x l IH]; [reflexivity|].
  destruct l as [|y l]; [reflexivity|].
  change (removelast (x :: y :: l)) with (x :: removelast (y :: l)).
  simpl length in *. lia.
Qed.

Lemma length_tl {A : Type} (l : list A) : length (tl l) = (length l - 1)%nat.
Proof. destruct l; simpl; lia. Qed.

(** In a series in time order the selected timestamps are in time order
    too, so the first end is the earliest and the last start the latest. *)
Lemma starts_from_in (prev : option Z) (df : list battery_row) (t : Z) :
  In t (starts_from prev df) -> In t (map time df).
Proof.
  revert prev. induction df as [|r df IH]; intros prev; simpl; [tauto|].
  rewrite in_app_iff. intros [H|H]; [|right; eapply IH; exact H].
  destruct (isin [1; 2] prev && high (state r)); simpl in H; tauto.
Qed.

Lemma ends_of_in (df : list battery_row) (t : Z) :
  In t (ends_of df) -> In t (map time df).
Proof.
  induction df as [|r df IH]; simpl; [tauto|].
  rewrite in_app_iff. intros [H|H]; [|right; apply IH; exact H].
  destruct (isin [1; 2] (option_map state (hd_error df)) && high (state r));
    simpl in H; tauto.
Qed.

Lemma sorted_app_single (x : Z) (b : bool) (l : list Z) :
  StronglySorted Z.le l -> (forall t, In t l -> x <= t) ->
  StronglySorted Z.le ((if b then [x] else []) ++ l).
Proof.
  intros Hs Hx. destruct b; simpl; [|assumption].
  constructor; [assumption|]. now apply Forall_forall.
Qed.

Lemma starts_from_sorted (prev : option Z) (df : list battery_row) :
  StronglySorted Z.le (map time df) ->
  StronglySorted Z.le (starts_from prev df).
Proof.
  revert prev. induction df as [|r df IH]; intros prev Hs; simpl.
  - constructor.
  - inversion Hs as [|? ? Hs' Hr]; subst. apply sorted_app_single.
    + now apply IH.
    + intros t Ht. apply starts_from_in in Ht.
      rewrite Forall_forall in Hr. now apply Hr.
Qed.

Lemma ends_of_sorted (df : list battery_row) :
  StronglySorted Z.le (map time df) -> StronglySorted Z.le (ends_of df).
Proof.
  induction df as [|r df IH]; intros Hs; simpl.
  - constructor.
  - inversion Hs as [|? ? Hs' Hr]; subst. apply sorted_app_single.
    + now apply IH.
    + intros t Ht. apply ends_of_in in Ht.
      rewrite Forall_forall in Hr. now apply Hr.
Qed.

Lemma sorted_shift (c : Z) (l : list Z) :
  StronglySorted Z.le l -> StronglySorted Z.le (map (fun t => t + c) l).
Proof.
  induction 1 as [|x l Hs IH Hx]; simpl; constructor; [assumption|].
  rewrite Forall_forall in *. intros y Hy. apply in_map_iff in Hy.
  destruct Hy as [z [<- Hz]]. specialize (Hx z Hz). lia.
Qed.

Lemma ends_of_sorted_charge (df : list battery_row) :
  StronglySorted Z.le (map time df) ->
  StronglySorted Z.le (loc_time (decrease_mask df) df).
Proof. rewrite decrease_rows. apply ends_of_sorted. Qed.

Lemma starts_sorted_charge (df : list battery_row) :
  StronglySorted Z.le (map time df) ->
  StronglySorted Z.le (loc_time (increase_mask df) df).
Proof. rewrite increase_rows. apply starts_from_sorted. Qed.

Lemma sorted_head_least (l : list Z) (x : Z) :
  StronglySorted Z.le l -> In x (tl l) -> hd 0 l <= x.
Proof.
  intros Hs Hx. destruct l as [|y l]; [contradiction|].
  inversion Hs as [|? ? _ Hy]; subst. rewrite Forall_forall in Hy.
  now apply Hy.
Qed.

Lemma last_in {A : Type} (l : list A) (x d : A) : In (last (x :: l) d) (x :: l).
Proof.
  revert x. induction l as [|y l IH]; intros x; [now left|].
  right.
  rewrite (last_cons (y :: l) x d), (last_cons l y x), <- (last_cons l y d).
  apply IH.
Qed.

Lemma sorted_last_greatest (l : list Z) (x : Z) :
  StronglySorted Z.le l -> In x (removelast l) -> x <= last l 0.
Proof.
  induction 1 as [|y l Hs IH Hy]; [contradiction|].
  destruct l as [|z l]; [contradiction|].
  change (removelast (y :: z :: l)) with (y :: removelast (z :: l)).
  rewrite (last_cons (z :: l) y 0), (last_cons l z y), <- (last_cons l z 0).
  intros [<-|Hx].
  - rewrite Forall_forall in Hy. apply Hy, last_in.
  - now apply IH.
Qed.

(** Whatever the imbalance, unequal counts lose exactly one timestamp. *)
Lemma reconcile_deletes_one (starts ends : list Z) :
  length starts <> length ends ->
  (length (fst (reconcile starts ends)) + length (snd (reconcile starts ends))
   + 1 = length starts + length ends)%nat.
Proof.
  intros Hne. unfold reconcile.
  destruct (Nat.ltb_spec (length starts) (length ends)) as [Hlt|Hge].
  - simpl. rewrite length_tl. lia.
  - destruct (Nat.ltb_spec (length ends) (length starts)) as [Hgt|Hle].
    + simpl. rewrite length_removelast. lia.
    + lia.
Qed.

(** A series with an unparsed state (0) between two discharges: no start
    is detected, and two ends. *)
Definition unparsed_series : list battery_row :=
  [ mk_battery 0 3 80;
    mk_battery (10 * second) 1 80;
    mk_battery (20 * second) 0 80;
    mk_battery (30 * second) 3 79;
    mk_battery (40 * second) 1 79 ].

(** A series of tested codes only, with one start and two ends. *)
Definition two_ends_series : list battery_row :=
  [ mk_battery 0 3 80;
    mk_battery (10 * second) 1 80;
    mk_battery (20 * second) 3 79;
    mk_battery (30 * second) 1 79 ].

(** C3 (counterexample). With no start and two ends detected, one end is
    deleted and the returned lists have lengths 0 and 1. *)
Lemma find_charging_time_unequal_lengths :
  length (charge_starttime unparsed_series) = 0%nat
  /\ length (charge_endtime unparsed_series) = 2%nat
  /\ find_charging_time unparsed_series =
       Some (unparsed_series, [], [30 * second + 2 * minute])
  /\ length (@nil Z) <> length [30 * second + 2 * minute].
Proof. repeat split; vm_compute; congruence. Qed.

(** C3 (amended). For a battery series whose states are all among the tested
    codes 1..6, the detected starts and ends differ in number by at most
    one, and [find_charging_time] returns lists of equal length: when the ends
    outnumber the starts it deletes the first end, when the starts outnumber
    the ends it deletes the last start. In a series in time order the
    deleted end is the earliest and the deleted start the latest. *)
Theorem find_charging_time_reconciles (df : list battery_row) :
  df <> [] -> Forall valid_state df ->
  exists starts ends,
    find_charging_time df = Some (df, starts, ends)
    /\ length starts = length ends
    /\ ((length (charge_starttime df) < length (charge_endtime df))%nat ->
        starts = charge_starttime df /\ ends = tl (charge_endtime df)
        /\ (StronglySorted Z.le (map time df) ->
            forall t, In t ends -> hd 0 (charge_endtime df) <= t))
    /\ ((length (charge_endtime df) < length (charge_starttime df))%nat ->
        starts = removelast (charge_starttime df) /\ ends = charge_endtime df
        /\ (StronglySorted Z.le (map time df) ->
            forall t, In t starts -> t <= last (charge_starttime df) 0)).
Proof.
  intros Hne Hv. destruct (counts_differ_by_one df Hv) as [H1 H2].
  destruct df as [|r df]; [congruence|].
  unfold find_charging_time, reconcile.
  set (S := charge_starttime (r :: df)) in *.
  set (E := charge_endtime (r :: df)) in *.
  destruct (Nat.ltb_spec (length S) (length E)) as [Hlt|Hge].
  - exists S, (tl E).
    assert ((length (tl E) <? length S)%nat = false) as ->
      by (apply Nat.ltb_ge; rewrite length_tl; lia).
    repeat split; try (rewrite length_tl; lia); try lia.
    intros Hs t Ht. apply sorted_head_least; [|assumption].
    apply (sorted_shift (2 * minute)). now apply ends_of_sorted_charge.
  - destruct (Nat.ltb_spec (length E) (length S)) as [Hgt|Heq].
    + exists (removelast S), E.
      assert ((length E <? length (removelast S))%nat = false) as ->
        by (apply Nat.ltb_ge; rewrite length_removelast; lia).
      repeat split; try (rewrite length_removelast; lia); try lia.
      intros Hs t Ht. apply sorted_last_greatest; [|assumption].
      apply (sorted_shift (- (2 * minute))). now apply starts_sorted_charge.
    + exists S, E.
      assert ((length E <? length S)%nat = false) as ->
        by (apply Nat.ltb_ge; lia).
      repeat split; lia.
Qed.

(** The theorem at [two_ends_series]. *)
Lemma find_charging_time_reconciles_witness :
  exists starts ends,
    find_charging_time two_ends_series = Some (two_ends_series, starts, ends)
    /\ length starts = length ends
    /\ ((length (charge_starttime two_ends_series)
         < length (charge_endtime two_ends_series))%nat ->
        starts = charge_starttime two_ends_series
        /\ ends = tl (charge_endtime two_ends_series)
        /\ (StronglySorted Z.le (map time two_ends_series) ->
            forall t, In t ends -> hd 0 (charge_endtime two_ends_series) <= t))
    /\ ((length (charge_endtime two_ends_series)
         < length (charge_starttime two_ends_series))%nat ->
        starts = removelast (charge_starttime two_ends_series)
        /\ ends = charge_endtime two_ends_series
        /\ (StronglySorted Z.le (map time two_ends_series) ->
            forall t, In t starts ->
            t <= last (charge_starttime two_ends_series) 0)).
Proof.
  apply (find_charging_time_reconciles two_ends_series).
  - discriminate.
  - repeat constructor; vm_compute; discriminate.
Defined.

(** *** The level-trend pass *)

(** The test of the first loop in the words of the specification: every
    difference of the first half is at most 0 and the differences of the
    second half sum to more than 5. *)
Definition non_increasing_then_rising (current_window : list battery_row) : bool :=
  let level_diff := series_diff (map level current_window) in
  forallb (fun v => match v with Some d => d <=? 0 | None => true end)
          (firstn half_window level_diff)
  && (increase_thres <? series_sum (skipn half_window level_diff)).

(** What the test of the code amounts to: some difference of the first half
    is exactly 0, and the differences of the second half sum to more than 5. *)
Lemma charge_start_test_spec (current_window : list battery_row) :
  charge_start_test current_window = true <->
  In (Some 0)
     (firstn half_window (series_diff (map level current_window)))
  /\ increase_thres
     < series_sum (skipn half_window (series_diff (map level current_window))).
Proof.
  unfold charge_start_test. rewrite andb_true_iff, Z.ltb_lt.
  set (l := firstn half_window (series_diff (map level current_window))).
  assert ((Z.b2z (series_all l) <=? 0) = true <-> In (Some 0) l) as ->;
    [|tauto].
  unfold series_all. induction l as [|[d|] l IH]; simpl.
  - split; [discriminate|tauto].
  - destruct (Z.eqb_spec d 0) as [->|Hd]; simpl.
    + split; [auto|reflexivity].
    + rewrite IH. split; [auto|]. intros [H|H]; [congruence|assumption].
  - rewrite IH. split; [auto|]. intros [H|H]; [discriminate|assumption].
Qed.

(** One step of the scan: a match records its timestamp and moves the index
    by the window size, anything else moves it by one. *)
Lemma scan_step_eq (test : list battery_row -> bool)
  (stamp : list battery_row -> list Z) (df : list battery_row) (fuel i : nat) :
  scan test stamp df (S fuel) i =
  if Z.of_nat i <? Z.of_nat (length df) - Z.of_nat window_size then
    if test (iloc df i window_size)
    then stamp (iloc df i window_size)
         ++ scan test stamp df fuel (i + window_size)
    else scan test stamp df fuel (i + 1)
  else [].
Proof. reflexivity. Qed.

(** The loop has stopped once [fuel] covers the rows left: more fuel changes
    nothing, so the table length given by [charging_timev2] is enough. *)
Lemma scan_fuel (test : list battery_row -> bool)
  (stamp : list battery_row -> list Z) (df : list battery_row) :
  forall fuel i extra, (length df <= i + fuel)%nat ->
    scan test stamp df (fuel + extra) i = scan test stamp df fuel i.
Proof.
  induction fuel as [|fuel IH]; intros i extra Hle.
  - destruct extra as [|extra]; [reflexivity|].
    simpl plus. rewrite scan_step_eq.
    destruct (Z.ltb_spec (Z.of_nat i)
                (Z.of_nat (length df) - Z.of_nat window_size));
      [unfold window_size in *; lia|reflexivity].
  - simpl plus. rewrite !scan_step_eq.
    destruct (Z.of_nat i <? Z.of_nat (length df) - Z.of_nat window_size);
      [|reflexivity].
    rewrite !IH by (unfold window_size; lia). reflexivity.
Qed.

(** Forty-one samples ten seconds apart: the level falls by one per sample
    for the first twenty and rises by one per sample afterwards. *)
Definition fall_then_rise : list battery_row :=
  map (fun k => mk_battery (hour + Z.of_nat k * 10 * second) 3
                  (if (k <? 20)%nat then 50 - Z.of_nat k
                   else 12 + Z.of_nat k))
      (seq 0 41).

(** Forty-one samples: the level is flat for one sample, then rises by one
    per sample throughout. *)
Definition rise_after_flat : list battery_row :=
  map (fun k => mk_battery (hour + Z.of_nat k * 10 * second) 3
                  (if (k <? 2)%nat then 10 else 9 + Z.of_nat k))
      (seq 0 41).

(** C4 (the code at the failing inputs). In [fall_then_rise] the first half
    of the window is non-increasing and the second half gains 20, but no
    charge start is recorded: the test of the code asks for a difference that
    is exactly 0. In [rise_after_flat] the first half rises, yet the window
    is a match, its first timestamp minus 5 minutes is recorded, and the scan
    has moved by the window size. *)
Theorem charging_timev2_start_test :
  non_increasing_then_rising (iloc fall_then_rise 0 window_size) = true
  /\ charge_start_test (iloc fall_then_rise 0 window_size) = false
  /\ charging_timev2 fall_then_rise 0 (2 * hour) = ([0], [2 * hour])
  /\ non_increasing_then_rising (iloc rise_after_flat 0 window_size) = false
  /\ charge_start_test (iloc rise_after_flat 0 window_size) = true
  /\ charging_timev2 rise_after_flat 0 (2 * hour) =
       ([0], [hour - 5 * minute; 2 * hour]).
Proof. repeat split; vm_compute; reflexivity. Qed.

End Charging.

(** ** time_preprocessing/02_Watch_times.py *)

Module WatchTimes.
Import Clock.

(** An hourly file name [DD.MM.YY_HH.csv] is the hour it parses to; the
    name written for a timestamp is that of its hour. *)
Definition file_name (t : Z) : Z := floor_to hour t.

(** The [while current_time < end_time] loop over the expected hours. *)
Definition expected_files (start_time end_time : Z) : list Z :=
  map file_name (date_range_left start_time end_time hour).

Fixpoint dedup (l : list Z) : list Z :=
  match l with
  | [] => []
  | x :: l' => if existsb (Z.eqb x) l' then dedup l' else x :: dedup l'
  end.

(** [sorted(set(expected_files) - set(files), key=...)] *)
Definition files_miss (start_time end_time : Z) (files : list Z) : list Z :=
  Ordering.sort_values
    (dedup (filter (fun f => negb (existsb (Z.eqb f) files))
                   (expected_files start_time end_time))).

(** The variables of the loop of [files_to_time]. [current_start] is held
    as the hour its name parses to. *)
Record run_state : Type := mk_run {
  nofile_starts : list Z;
  nofile_ends : list Z;
  current_start : option Z;
  previous_datetime : option Z
}.

(** The two appends that close the current run; both branches of the
    comparison of names are kept as written. *)
Definition close_run (st : run_state) : list Z * list Z :=
  match current_start st, previous_datetime st with
  | Some cs, Some prev =>
      if cs =? prev
      then (nofile_starts st ++ [cs], nofile_ends st ++ [cs + hour])
      else (nofile_starts st ++ [cs], nofile_ends st ++ [prev + hour])
  | _, _ => (nofile_starts st, nofile_ends st)
  end.

Definition run_step (st : run_state) (current_datetime : Z) : run_state :=
  let st1 :=
    match previous_datetime st with
    | Some prev =>
        if hour <? current_datetime - prev
        then let (starts, ends) := close_run st in
             mk_run starts ends None (previous_datetime st)
        else st
    | None => st
    end in
  let st2 :=
    match current_start st1 with
    | None => mk_run (nofile_starts st1) (nofile_ends st1)
                     (Some current_datetime) (previous_datetime st1)
    | Some _ => st1
    end in
  mk_run (nofile_starts st2) (nofile_ends st2) (current_start st2)
         (Some current_datetime).

Definition files_to_time (missing_files : list Z) : list Z * list Z :=
  close_run (fold_left run_step missing_files (mk_run [] [] None None)).

(** A row of the combined table; [Start] is missing (NaT) in a row that
    only the end column reaches. *)
Record wear_row : Type := mk_wear {
  Start : option Z;
  End_ : Z
}.

(** [combine_battery_nofile]: the loop reads [combined_ends.iloc[i]] for
    every index of [combined_starts] and raises past the end; the two
    columns are aligned by index when the table is built. *)
Definition combine_battery_nofile
  (start_times end_times nofile_starts nofile_ends : list Z)
  : option (list wear_row) :=
  let combined_starts := Ordering.sort_values (start_times ++ nofile_ends) in
  let combined_ends := Ordering.sort_values (end_times ++ nofile_starts) in
  if (length combined_ends <? length combined_starts)%nat then None
  else
    Some (flat_map (fun p => if fst p <? snd p
                             then [mk_wear (Some (fst p)) (snd p)] else [])
                   (combine combined_starts combined_ends)
          ++ map (fun e => mk_wear None e)
                 (skipn (length combined_starts) combined_ends)).

(** *** Runs of missing hours, in the words of the specification *)

(** [run_from x l] splits [x :: l] into its first maximal run of hours at
    most one hour apart and the later runs. *)
Fixpoint run_from (x : Z) (l : list Z) : list Z * list (list Z) :=
  match l with
  | [] => ([x], [])
  | y :: l' =>
      let (r, rest) := run_from y l' in
      if y - x <=? hour then (x :: r, rest) else ([x], r :: rest)
  end.

Definition runs (l : list Z) : list (list Z) :=
  match l with
  | [] => []
  | x :: l' => let (r, rest) := run_from x l' in r :: rest
  end.

(** The interval of a run: from its first hour to one hour past its last. *)
Definition interval_of (run : list Z) : Z * Z := (hd 0 run, last run 0 + hour).

Definition merged_intervals (missing_files : list Z) : list (Z * Z) :=
  map interval_of (runs missing_files).

(** Consecutive hours of a run are at most one hour apart. *)
Fixpoint close_chain (x : Z) (l : list Z) : Prop :=
  match l with
  | [] => True
  | y :: l' => y - x <= hour /\ close_chain y l'
  end.

Definition is_run (r : list Z) : Prop :=
  match r with
  | [] => False
  | x :: l => close_chain x l
  end.

(** Each run is more than one hour before the next one. *)
Fixpoint runs_apart (rs : list (list Z)) : Prop :=
  match rs with
  | r1 :: ((r2 :: _) as rest) => hour < hd 0 r2 - last r1 0 /\ runs_apart rest
  | _ => True
  end.

(** The loop of [files_to_time] from inside a run: [cs] is the start of
    the current run and [prev] the hour before the rest [l]. *)
Fixpoint go (cs prev : Z) (l : list Z) : list (Z * Z) :=
  match l with
  | [] => [(cs, prev + hour)]
  | x :: l' =>
      if hour <? x - prev then (cs, prev + hour) :: go x x l'
      else go cs x l'
  end.

Lemma close_run_open (starts ends : list Z) (cs prev : Z) :
  close_run (mk_run starts ends (Some cs) (Some prev)) =
  (starts ++ [cs], ends ++ [prev + hour]).
Proof.
  unfold close_run. simpl.
  destruct (Z.eqb_spec cs prev) as [->|_]; reflexivity.
Qed.

Lemma fold_run (l : list Z) :
  forall starts ends cs prev,
    close_run (fold_left run_step l (mk_run starts ends (Some cs) (Some prev)))
    = (starts ++ map fst (go cs prev l), ends ++ map snd (go cs prev l)).
Proof.
  induction l as [|x l IH]; intros starts ends cs prev.
  - apply close_run_open.
  - simpl fold_left. unfold run_step at 2.
    cbn [previous_datetime]. simpl go.
    destruct (hour <? x - prev).
    + rewrite close_run_open. cbn. rewrite IH. cbn.
      now rewrite <- !app_assoc.
    + cbn. apply IH.
Qed.

Lemma run_from_hd (l : list Z) (x : Z) :
  exists r', fst (run_from x l) = x :: r'.
Proof.
  destruct l as [|y l]; simpl; [now exists []|].
  destruct (run_from y l) as [r rest].
  destruct (y - x <=? hour); simpl; eauto.
Qed.

Lemma last_cons_default (r : list Z) (x y d : Z) :
  last (x :: y :: r) d = last (y :: r) d.
Proof. reflexivity. Qed.

Lemma go_runs (l : list Z) :
  forall cs prev,
    go cs prev l =
    (cs, last (fst (run_from prev l)) 0 + hour)
    :: map interval_of (snd (run_from prev l)).
Proof.
  induction l as [|x l IH]; intros cs prev; [reflexivity|].
  simpl go. simpl run_from.
  destruct (run_from_hd l x) as [r' Hr'].
  rewrite !IH.
  destruct (run_from x l) as [r rest]. simpl in Hr'. subst r.
  destruct (Z.ltb_spec hour (x - prev)) as [Hgt|Hle].
  - assert ((x - prev <=? hour) = false) as -> by (apply Z.leb_gt; lia).
    reflexivity.
  - assert ((x - prev <=? hour) = true) as -> by (apply Z.leb_le; lia).
    reflexivity.
Qed.

Lemma files_to_time_runs (missing_files : list Z) :
  files_to_time missing_files =
  (map fst (merged_intervals missing_files),
   map snd (merged_intervals missing_files)).
Proof.
  destruct missing_files as [|x l]; [reflexivity|].
  unfold files_to_time. simpl fold_left.
  change (run_step (mk_run [] [] None None) x)
    with (mk_run [] [] (Some x) (Some x)).
  rewrite fold_run, go_runs. unfold merged_intervals, runs.
  destruct (run_from_hd l x) as [r' Hr'].
  destruct (run_from x l) as [r rest]. simpl in Hr'. subst r. reflexivity.
Qed.

(** The runs split the list, each is a chain of hours at most one hour
    apart, and two runs in a row are more than one hour apart. *)
Lemma run_from_spec (l : list Z) :
  forall x,
    fst (run_from x l) ++ concat (snd (run_from x l)) = x :: l
    /\ is_run (fst (run_from x l))
    /\ Forall is_run (snd (run_from x l))
    /\ runs_apart (fst (run_from x l) :: snd (run_from x l)).
Proof.
  induction l as [|y l IH]; intros x.
  - simpl. repeat split. constructor.
  - specialize (IH y). simpl run_from.
    destruct (run_from_hd l y) as [r' Hr'].
    destruct (run_from y l) as [r rest]. simpl in Hr'. subst r.
    simpl fst in IH. simpl snd in IH.
    destruct IH as (Hc & Hr & Hrest & Hap).
    destruct (Z.leb_spec (y - x) hour) as [Hle|Hgt]; simpl fst; simpl snd.
    + split; [|split; [|split]].
      * simpl. simpl in Hc. now rewrite Hc.
      * simpl. split; assumption.
      * assumption.
      * destruct rest as [|[|z r2] rest]; try exact I; exact Hap.
    + split; [|split; [|split]].
      * simpl. simpl in Hc. now rewrite Hc.
      * exact I.
      * constructor; assumption.
      * split; [simpl; lia|exact Hap].
Qed.

Lemma runs_spec (l : list Z) :
  concat (runs l) = l /\ Forall is_run (runs l) /\ runs_apart (runs l).
Proof.
  destruct l as [|x l]; [repeat split; constructor|].
  unfold runs. pose proof (run_from_spec l x) as H.
  destruct (run_from x l) as [r rest]. simpl in H.
  destruct H as (Hc & Hr & Hrest & Hap).
  repeat split; [exact Hc|constructor; assumption|exact Hap].
Qed.

(** C5. [files_to_time] returns, run by run, the first missing hour of the
    run and one hour past its last missing hour, the runs being the maximal
    stretches of the list in which consecutive hours are at most one hour
    apart; a run of a single hour gives the interval of exactly one hour
    starting at that hour. *)
Theorem files_to_time_merges_runs :
  forall missing_files : list Z,
    files_to_time missing_files =
      (map (fun r => hd 0 r) (runs missing_files),
       map (fun r => last r 0 + hour) (runs missing_files))
    /\ concat (runs missing_files) = missing_files
    /\ Forall is_run (runs missing_files)
    /\ runs_apart (runs missing_files)
    /\ (forall h, In [h] (runs missing_files) ->
         In (h, h + hour)
            (combine (fst (files_to_time missing_files))
                     (snd (files_to_time missing_files)))).
Proof.
  intros l. destruct (runs_spec l) as (Hc & Hr & Hap).
  assert (files_to_time l =
          (map (fun r => hd 0 r) (runs l),
           map (fun r => last r 0 + hour) (runs l))) as Heq.
  { rewrite files_to_time_runs. unfold merged_intervals.
    now rewrite !map_map. }
  repeat split; try assumption.
  intros h Hin. rewrite Heq. simpl fst. simpl snd.
  assert (forall rs : list (list Z),
            combine (map (fun r => hd 0 r) rs)
                    (map (fun r => last r 0 + hour) rs)
            = map interval_of rs) as ->.
  { induction rs as [|r rs IHrs]; simpl; [reflexivity|]. now rewrite IHrs. }
  apply in_map_iff. exists [h]. split; [reflexivity|assumption].
Qed.

(** *** The combined table *)

Lemma kept_pairs (ps : list (Z * Z)) :
  flat_map (fun p => if fst p <? snd p
                     then [mk_wear (Some (fst p)) (snd p)] else []) ps
  = map (fun p => mk_wear (Some (fst p)) (snd p))
        (filter (fun p => fst p <? snd p) ps).
Proof.
  induction ps as [|p ps IH]; simpl; [reflexivity|].
  destruct (fst p <? snd p); simpl; now rewrite IH.
Qed.

(** C8. For a wear-time list and a no-file interval list, the combined
    table is built from the index pairs of the two sorted columns, the pairs
    whose start is not strictly before their end being dropped, and every
    row of it has its start strictly before its end. *)
Theorem combine_battery_nofile_start_before_end :
  forall wear nofile : list (Z * Z),
    exists rows,
      combine_battery_nofile (map fst wear) (map snd wear)
                             (map fst nofile) (map snd nofile) = Some rows
      /\ rows =
         map (fun p => mk_wear (Some (fst p)) (snd p))
           (filter (fun p => fst p <? snd p)
              (combine
                 (Ordering.sort_values (map fst wear ++ map snd nofile))
                 (Ordering.sort_values (map snd wear ++ map fst nofile))))
      /\ Forall (fun r => exists s, Start r = Some s /\ s < End_ r) rows.
Proof.
  intros wear nofile. unfold combine_battery_nofile.
  set (S := Ordering.sort_values (map fst wear ++ map snd nofile)).
  set (E := Ordering.sort_values (map snd wear ++ map fst nofile)).
  assert (length S = length E) as Hlen.
  { unfold S, E, Ordering.sort_values.
    now rewrite !Ordering.sorted_by_length, !length_app, !length_map. }
  assert ((length E <? length S)%nat = false) as ->
    by (apply Nat.ltb_ge; lia).
  rewrite Hlen, skipn_all, app_nil_r, kept_pairs.
  eexists. split; [reflexivity|]. split; [reflexivity|].
  apply Forall_forall. intros r Hr. apply in_map_iff in Hr.
  destruct Hr as [p [<- Hp]]. apply filter_In in Hp. destruct Hp as [_ Hp].
  apply Z.ltb_lt in Hp. exists (fst p). simpl. auto.
Qed.

End WatchTimes.

(** ** utils/read_file.py: the readers of the raw files *)

Module ReadFile.
Import Clock.

(** A [UnixTimestamp] cell as [pd.read_csv] hands it over: missing, text
    that [pd.to_numeric] turns into NaN, or a number of milliseconds. *)
Inductive cell : Type :=
| Missing
| Text
| Num (ms : Z).

Definition notna (c : cell) : bool :=
  match c with Missing => false | _ => true end.

(** [pd.to_numeric(errors='coerce')] followed by [fromtimestamp]: the time
    of the row, or NaN. *)
Definition to_time (c : cell) : option Z :=
  match c with Num ms => Some ms | _ => None end.

(** *** [acc_watch_csv] *)

Record acc_raw : Type := mk_acc_raw {
  UnixTimestamp : cell;
  x : Q;
  y : Q;
  z : Q
}.

Record acc_row : Type := mk_acc {
  time : Z;
  X : Q;
  Y : Q;
  Z_axis : Q
}.

(** The rows that reach the length test of [acc_watch_csv]: those with a
    timestamp, with their time. *)
Definition acc_parsed (raw : list acc_raw) : list (Z * acc_raw) :=
  flat_map (fun r => match to_time (UnixTimestamp r) with
                     | Some t => [(t, r)]
                     | None => []
                     end)
           (filter (fun r => notna (UnixTimestamp r)) raw).

(** [df.loc[~df.index.duplicated(), :]]: [duplicated] marks every
    occurrence of a label but the first. *)
Fixpoint drop_duplicated_from (seen : list Z) (df : list acc_row) : list acc_row :=
  match df with
  | [] => []
  | r :: df' =>
      if existsb (Z.eqb (time r)) seen then drop_duplicated_from seen df'
      else r :: drop_duplicated_from (time r :: seen) df'
  end.

Definition drop_duplicated (df : list acc_row) : list acc_row :=
  drop_duplicated_from [] df.

(** [df.index = df.index.sort_values()]: the labels are sorted and given
    back to the rows in the order the rows are in. *)
Definition sort_index (df : list acc_row) : list acc_row :=
  map (fun p => mk_acc (fst p) (X (snd p)) (Y (snd p)) (Z_axis (snd p)))
      (combine (Ordering.sort_values (map time df)) df).

(** [df.reindex(idx, method='nearest')] for one label of [idx]: the row of
    the nearest label, the larger one on a tie. *)
Fixpoint nearest (g : Z) (best : acc_row) (df : list acc_row) : acc_row :=
  match df with
  | [] => best
  | r :: df' =>
      if Z.abs (time r - g) <=? Z.abs (time best - g)
      then nearest g r df' else nearest g best df'
  end.

Definition reindex_nearest (idx : list Z) (df : list acc_row) : list acc_row :=
  match df with
  | [] => []
  | r0 :: df' =>
      map (fun g => let r := nearest g r0 df' in
                    mk_acc g (X r) (Y r) (Z_axis r)) idx
  end.

Definition list_min (t : Z) (l : list Z) : Z := fold_left Z.min l t.
Definition list_max (t : Z) (l : list Z) : Z := fold_left Z.max l t.

(** [acc_watch_csv] on the rows of the file named by the hour [start_time].
    A table left empty by the hour filter has no first and last time, and
    [pd.date_range] raises. *)
Definition acc_watch_csv (start_time : Z) (raw : list acc_raw)
  : option (list acc_row) :=
  let df := acc_parsed raw in
  if (length df <? 50)%nat then None
  else
    let end_time := start_time + hour in
    let df := filter (fun p => (start_time <=? fst p) && (fst p <=? end_time)) df in
    let df := map (fun p => mk_acc (fst p) (x (snd p) / 4096)
                                   (y (snd p) / 4096) (z (snd p) / 4096)) df in
    match df with
    | [] => None
    | r0 :: rest =>
        let rounded_start_time :=
          floor_to minute (list_min (time r0) (map time rest)) in
        let rounded_end_time :=
          ceil_to minute (list_max (time r0) (map time rest)) in
        let idx :=
          date_range_left rounded_start_time rounded_end_time (20 : Z) in
        Some (reindex_nearest idx (sort_index (drop_duplicated df)))
    end.

(** One turn of the loop of [read_watch_acc_folder] on a file in range:
    [pd.concat] leaves out the [None] of a rejected file. *)
Definition concat_file (df_samsung : list acc_row) (start_time : Z)
  (raw : list acc_raw) : list acc_row :=
  match acc_watch_csv start_time raw with
  | Some df => df_samsung ++ df
  | None => df_samsung
  end.

(** *** [hr_csv] *)

Record hr_raw : Type := mk_hr_raw {
  hr_UnixTimestamp : cell;
  hr : option Q;
  hrIbi : option Q;
  status : option Z
}.

Record hr_row : Type := mk_hr {
  hr_time : Z;
  hr_value : Q;
  hr_ibi : option Q
}.

(** The rows that reach the length test of [hr_csv]: those whose
    timestamp is not missing. *)
Definition hr_parsed (raw : list hr_raw) : list hr_raw :=
  filter (fun r => notna (hr_UnixTimestamp r)) raw.

Definition hr_csv (start_time : Z) (raw : list hr_raw) : option (list hr_row) :=
  let df := hr_parsed raw in
  if (length df <? 50)%nat then None
  else
    let end_time := start_time + hour in
    Some
      (flat_map
         (fun r =>
            match to_time (hr_UnixTimestamp r), hr r, status r with
            | Some t, Some v, Some 1 =>
                if (start_time <=? t) && (t <=? end_time)
                then [mk_hr (floor_to second t) v (hrIbi r)]
                else []
            | _, _, _ => []
            end) df).

(** One turn of the loop of [read_hr_folder]. *)
Definition concat_hr_file (df_hr : list hr_row) (start_time : Z)
  (raw : list hr_raw) : list hr_row :=
  match hr_csv start_time raw with
  | Some df => df_hr ++ df
  | None => df_hr
  end.

(** *** [core_csv] *)

(** A row of the temperature file once its [DateTime] is parsed; [others]
    are the columns of the file the reader does not name. *)
Record core_raw : Type := mk_core_raw {
  DateTime : Z;
  CBT : Q;
  SkinT : Q;
  qualityT : Z;
  others : list Q
}.

Record core_row : Type := mk_core {
  core_time : Z;
  core_CBT : Q;
  core_qualityT : Z;
  core_SkinT : Q
}.

Fixpoint same_values (l1 l2 : list Q) : bool :=
  match l1, l2 with
  | [], [] => true
  | a :: l1', b :: l2' => Qeq_bool a b && same_values l1' l2'
  | _, _ => false
  end.

(** Two rows are duplicates when they agree in every column. *)
Definition same_row (r1 r2 : core_raw) : bool :=
  (DateTime r1 =? DateTime r2)
  && Qeq_bool (CBT r1) (CBT r2)
  && Qeq_bool (SkinT r1) (SkinT r2)
  && (qualityT r1 =? qualityT r2)
  && same_values (others r1) (others r2).

(** [df.drop_duplicates(keep='last')] *)
Fixpoint drop_duplicates_last (df : list core_raw) : list core_raw :=
  match df with
  | [] => []
  | r :: df' =>
      if existsb (same_row r) df' then drop_duplicates_last df'
      else r :: drop_duplicates_last df'
  end.

(** [Series.dt.round(freq)]: to the nearest multiple, a tie to the even one. *)
Definition round_to (freq t : Z) : Z :=
  let q := t / freq in
  let r := t mod freq in
  if 2 * r <? freq then q * freq
  else if freq <? 2 * r then (q + 1) * freq
  else if Z.even q then q * freq else (q + 1) * freq.

(** [core_csv] from the parsed table on, [time_format] being the
    participant's format code: format 1 rewrites [DateTime] without its
    seconds. *)
Definition core_csv (time_format : Z) (start_time end_time : Z)
  (raw : list core_raw) : list core_row :=
  let df :=
    if time_format =? 1
    then map (fun r => mk_core_raw (floor_to minute (DateTime r)) (CBT r)
                         (SkinT r) (qualityT r) (others r)) raw
    else raw in
  let df := filter (fun r => 3 <=? qualityT r) df in
  let df := filter (fun r => (start_time <=? DateTime r)
                             && (DateTime r <? end_time)) df in
  let df := drop_duplicates_last df in
  let df := filter (fun r => Qle_bool 0 (CBT r)) df in
  map (fun r => mk_core (round_to minute (DateTime r)) (CBT r)
                        (qualityT r) (SkinT r)) df.

(** *** Files with fewer than 50 rows at the length test *)

(** [acc_watch_csv] returns nothing when fewer than 50 rows have a
    timestamp, and the loop over the folder adds no row for that file. *)
Lemma acc_watch_csv_short (start_time : Z) (acc : list acc_raw) :
  (length (acc_parsed acc) < 50)%nat ->
  acc_watch_csv start_time acc = None
  /\ (forall df_samsung, concat_file df_samsung start_time acc = df_samsung).
Proof.
  intros Ha. apply Nat.ltb_lt in Ha.
  assert (acc_watch_csv start_time acc = None) as Hacc
    by (unfold acc_watch_csv; now rewrite Ha).
  split; [exact Hacc|].
  intros df. unfold concat_file. now rewrite Hacc.
Qed.

(** [hr_csv] returns nothing when fewer than 50 rows have a timestamp
    cell, text or number. *)
Lemma hr_csv_short (start_time : Z) (hrs : list hr_raw) :
  (length (hr_parsed hrs) < 50)%nat ->
  hr_csv start_time hrs = None
  /\ (forall df_hr, concat_hr_file df_hr start_time hrs = df_hr).
Proof.
  intros Hh. apply Nat.ltb_lt in Hh.
  assert (hr_csv start_time hrs = None) as Hhr
    by (unfold hr_csv; now rewrite Hh).
  split; [exact Hhr|].
  intros df. unfold concat_hr_file. now rewrite Hhr.
Qed.

(** *** Duplicated timestamps and the order of the rows *)

Lemma drop_duplicated_from_spec (df : list acc_row) :
  forall seen r,
    In r (drop_duplicated_from seen df) <->
    ~ In (time r) seen
    /\ find (fun r' => time r' =? time r) df = Some r.
Proof.
  induction df as [|r0 df IH]; intros seen r; simpl.
  - split; [tauto|]. intros [_ H]. discriminate.
  - destruct (existsb (Z.eqb (time r0)) seen) eqn:E.
    + apply existsb_exists in E. destruct E as [t [Ht Heq]].
      apply Z.eqb_eq in Heq. subst t. rewrite IH.
      destruct (Z.eqb_spec (time r0) (time r)) as [Hsame|Hdiff].
      * split; intros [Hn H]; [exfalso; apply Hn; congruence|].
        injection H as <-. contradiction.
      * tauto.
    + assert (~ In (time r0) seen) as Hn0.
      { intros Hin.
        assert (existsb (Z.eqb (time r0)) seen = true) as Hex.
        { apply existsb_exists. exists (time r0). split; [assumption|].
          apply Z.eqb_refl. }
        congruence. }
      simpl. rewrite IH. simpl.
      destruct (Z.eqb_spec (time r0) (time r)) as [Hsame|Hdiff].
      * split.
        -- intros [<-|[Hn _]]; [split; [assumption|reflexivity]|].
           exfalso. apply Hn. now left.
        -- intros [_ H]. injection H as <-. now left.
      * split.
        -- intros [<-|[Hn H]]; [congruence|]. split; [|assumption].
           intros Hin. apply Hn. now right.
        -- intros [Hn H]. right. split; [|assumption].
           intros [Heq|Hin]; [congruence|contradiction].
Qed.

Lemma drop_duplicated_from_NoDup (df : list acc_row) :
  forall seen, NoDup (map time (drop_duplicated_from seen df)).
Proof.
  induction df as [|r0 df IH]; intros seen; simpl; [constructor|].
  destruct (existsb (Z.eqb (time r0)) seen); [apply IH|].
  simpl. constructor; [|apply IH].
  intros Hin. apply in_map_iff in Hin. destruct Hin as [r [Ht Hr]].
  apply drop_duplicated_from_spec in Hr. destruct Hr as [Hn _].
  apply Hn. left. congruence.
Qed.

Lemma sorted_NoDup_strict (l : list Z) :
  StronglySorted Z.le l -> NoDup l -> StronglySorted Z.lt l.
Proof.
  induction 1 as [|a l Hs IH Ha]; intros Hnd; constructor.
  - apply IH. now inversion Hnd.
  - inversion Hnd as [|? ? Hnotin _]; subst.
    rewrite Forall_forall in *. intros b Hb. specialize (Ha b Hb).
    assert (a <> b) by (intros ->; contradiction). lia.
Qed.

Lemma sort_index_times (df : list acc_row) :
  map time (sort_index df) = Ordering.sort_values (map time df).
Proof.
  unfold sort_index. rewrite map_map. simpl.
  assert (length (Ordering.sort_values (map time df)) = length df) as Hlen.
  { unfold Ordering.sort_values.
    now rewrite Ordering.sorted_by_length, length_map. }
  revert Hlen. generalize (Ordering.sort_values (map time df)) as ts.
  induction df as [|r df IH]; intros [|t ts] Hlen; simpl in *;
    try discriminate; [reflexivity|].
  f_equal. apply IH. lia.
Qed.

Lemma sort_index_increasing (df : list acc_row) :
  StronglySorted Z.lt (map time (sort_index (drop_duplicated df))).
Proof.
  rewrite sort_index_times. apply sorted_NoDup_strict.
  - apply (Ordering.sorted_by_sorted (fun t => t)).
  - eapply Permutation_NoDup.
    + apply (Ordering.sorted_by_perm (fun t => t)).
    + apply drop_duplicated_from_NoDup.
Qed.

Lemma range_increasing (start freq : Z) (n : nat) :
  0 < freq ->
  forall s, StronglySorted Z.lt
              (map (fun k => start + Z.of_nat k * freq) (seq s n)).
Proof.
  intros Hf. induction n as [|n IH]; intros s; simpl; constructor.
  - apply IH.
  - apply Forall_forall. intros t Ht. apply in_map_iff in Ht.
    destruct Ht as [k [<- Hk]]. apply in_seq in Hk. nia.
Qed.

Lemma filter_sorted (p : Z -> bool) (l : list Z) :
  StronglySorted Z.lt l -> StronglySorted Z.lt (filter p l).
Proof.
  induction 1 as [|a l Hs IH Ha]; simpl; [constructor|].
  destruct (p a); [|assumption]. constructor; [assumption|].
  rewrite Forall_forall in *. intros b Hb. apply filter_In in Hb.
  now apply Ha.
Qed.

Lemma date_range_left_increasing (start stop freq : Z) :
  0 < freq -> StronglySorted Z.lt (date_range_left start stop freq).
Proof.
  intros Hf. unfold date_range_left, date_range. apply filter_sorted.
  destruct (stop <? start); [constructor|]. now apply range_increasing.
Qed.

Lemma reindex_nearest_times (idx : list Z) (df : list acc_row) :
  map time (reindex_nearest idx df) = match df with [] => [] | _ => idx end.
Proof.
  destruct df as [|r0 df]; [reflexivity|]. unfold reindex_nearest.
  rewrite map_map. simpl. apply map_id.
Qed.

Lemma acc_watch_csv_increasing (start_time : Z) (raw : list acc_raw)
  (df : list acc_row) :
  acc_watch_csv start_time raw = Some df -> StronglySorted Z.lt (map time df).
Proof.
  unfold acc_watch_csv.
  destruct (length (acc_parsed raw) <? 50)%nat; [discriminate|].
  destruct (map _ (filter _ (acc_parsed raw))) as [|r0 rest];
    [discriminate|].
  intros H. injection H as <-. rewrite reindex_nearest_times.
  destruct (sort_index (drop_duplicated (r0 :: rest))); [constructor|].
  apply date_range_left_increasing. reflexivity.
Qed.

(** [drop_duplicates(keep='last')] drops a row exactly when a row equal to
    it in every column comes later. *)
Lemma drop_duplicates_last_spec (df : list core_raw) (r : core_raw) :
  In r (drop_duplicates_last df) <->
  exists before after,
    df = before ++ r :: after /\ existsb (same_row r) after = false.
Proof.
  induction df as [|r0 df IH]; simpl.
  - split; [tauto|]. intros (b & a & H & _). now destruct b.
  - destruct (existsb (same_row r0) df) eqn:E.
    + rewrite IH. split.
      * intros (b & a & -> & Ha). now exists (r0 :: b), a.
      * intros (b & a & H & Ha). destruct b as [|r1 b].
        -- simpl in H. injection H as -> ->. congruence.
        -- simpl in H. injection H as -> ->. now exists b, a.
    + simpl. rewrite IH. split.
      * intros [<-|(b & a & -> & Ha)].
        -- now exists [], df.
        -- now exists (r0 :: b), a.
      * intros (b & a & H & Ha). destruct b as [|r1 b].
        -- simpl in H. injection H as -> ->. now left.
        -- simpl in H. injection H as -> ->. right. now exists b, a.
Qed.

(** A file of hour 0 whose first timestamp comes twice, with x = 4096 and
    then with x = 8192 (1 and 2 once divided by 4096), followed by 49
    samples. *)
Definition repeated_stamp_file : list acc_raw :=
  mk_acc_raw (Num 0) 4096 0 0
  :: mk_acc_raw (Num 0) 8192 0 0
  :: map (fun k => mk_acc_raw (Num (Z.of_nat k * 40)) 0 0 0) (seq 1 49).

(** Two temperature rows of the same minute with different values, after
    a row of a later minute. *)
Definition repeated_minute_file : list core_raw :=
  [ mk_core_raw (10 * minute) 37 33 4 [];
    mk_core_raw (5 * minute) (73 # 2) 33 4 [];
    mk_core_raw (5 * minute) (75 # 2) 33 4 [] ].

(** With 51 samples the same reader returns the series filled onto the
    20 ms grid of its minute: 3000 rows. *)
Lemma long_file_filled :
  option_map (@length acc_row) (acc_watch_csv 0 repeated_stamp_file)
  = Some 3000%nat.
Proof. vm_compute. reflexivity. Qed.

(** C7 (counterexample). [acc_watch_csv] keeps the first of two samples
    with the same timestamp, not the last; [core_csv] keeps both of two
    samples with the same timestamp and leaves the rows in file order, a
    later minute before an earlier one. *)
Lemma readers_keep_last_fails :
  drop_duplicated [mk_acc 0 1 0 0; mk_acc 0 2 0 0] = [mk_acc 0 1 0 0]
  /\ option_map (fun df => map time (firstn 1 df))
       (acc_watch_csv 0 repeated_stamp_file) = Some [0]
  /\ option_map (fun df => map (fun r => Qeq_bool (X r) 1) (firstn 1 df))
       (acc_watch_csv 0 repeated_stamp_file) = Some [true]
  /\ core_csv 2 0 hour repeated_minute_file =
       [ mk_core (10 * minute) 37 4 33;
         mk_core (5 * minute) (73 # 2) 4 33;
         mk_core (5 * minute) (75 # 2) 4 33 ].
Proof. repeat split; vm_compute; reflexivity. Qed.

(** C7 (amended). In [acc_watch_csv] the deduplication keeps, for each
    timestamp, the first row that carries it and no other, and after the
    index sort, as in the table returned, the timestamps are strictly
    increasing. In [core_csv] a row is dropped only when a later row equals
    it in every column. *)
Theorem readers_order_and_duplicates :
  (forall df r,
     In r (drop_duplicated df) <->
     find (fun r' => time r' =? time r) df = Some r)
  /\ (forall df, NoDup (map time (drop_duplicated df)))
  /\ (forall df,
        StronglySorted Z.lt (map time (sort_index (drop_duplicated df))))
  /\ (forall start_time raw,
        match acc_watch_csv start_time raw with
        | Some df => StronglySorted Z.lt (map time df)
        | None => True
        end)
  /\ (forall df r,
        In r (drop_duplicates_last df) <->
        exists before after,
          df = before ++ r :: after /\ existsb (same_row r) after = false).
Proof.
  split; [|split; [|split; [|split]]].
  - intros df r. unfold drop_duplicated.
    rewrite drop_duplicated_from_spec. simpl. tauto.
  - intros df. apply drop_duplicated_from_NoDup.
  - apply sort_index_increasing.
  - intros start_time raw.
    destruct (acc_watch_csv start_time raw) as [df|] eqn:E; [|exact I].
    eapply acc_watch_csv_increasing. exact E.
  - apply drop_duplicates_last_spec.
Qed.

End ReadFile.

(** ** The binary64 numbers of the scripts *)

Module Binary64.
Local Open Scope Q_scope.

(** The exponent of the binade of a positive number [m]: the [e] with
    [2^e <= m < 2^(e+1)]. *)
Definition binade (m : Q) : Z :=
  let b := (Z.log2 (Qnum m) - Z.log2 (Zpos (Qden m)))%Z in
  if Qle_bool (2 ^ b) m then b else (b - 1)%Z.

(** The exponent of the unit in the last place at [m]: 53 significant
    bits, and 2^-1074 for the subnormal numbers. *)
Definition ulp_exponent (m : Q) : Z := Z.max (binade m - 52) (-1074).

Definition ulp (m : Q) : Q := 2 ^ ulp_exponent m.

(** The magnitude [m] rounded to the nearest multiple of its unit in the
    last place, a tie going to the even multiple. *)
Definition rnd_mag (m : Q) : Q :=
  inject_Z (round_half_even (m / ulp m)) * ulp m.

(** Rounding to the nearest binary64 number: the sign kept, the magnitude
    rounded. Magnitudes stay below 2^1024 in the scripts; overflow to an
    infinity is not part of the model. *)
Definition rnd (x : Q) : Q :=
  if Qltb x 0 then - rnd_mag (- x) else rnd_mag x.

(** A number that binary64 holds as it is. *)
Definition representable (x : Q) : Prop := rnd x == x.

(** The four operations, correctly rounded. *)
Definition add (x y : Q) : Q := rnd (x + y).
Definition sub (x y : Q) : Q := rnd (x - y).
Definition mul (x y : Q) : Q := rnd (x * y).
Definition div (x y : Q) : Q := rnd (x / y).

(** *** Powers of two *)

Lemma pow2_pos (e : Z) : 0 < 2 ^ e.
Proof. apply Qpower_0_lt. reflexivity. Qed.

Lemma pow2_le (a b : Z) : (a <= b)%Z -> 2 ^ a <= 2 ^ b.
Proof. intros H. apply Qpower_le_compat_l; [exact H|discriminate]. Qed.

Lemma pow2_lt (a b : Z) : (a < b)%Z -> 2 ^ a < 2 ^ b.
Proof. intros H. apply Qpower_lt_compat_l; [exact H|reflexivity]. Qed.

Lemma pow2_plus (a b : Z) : 2 ^ (a + b) == 2 ^ a * 2 ^ b.
Proof. apply Qpower_plus. discriminate. Qed.

Lemma pow2_Z (n : Z) : (0 <= n)%Z -> inject_Z (2 ^ n) == 2 ^ n.
Proof. intros H. now rewrite Zpower_Qpower. Qed.

(** *** The binade *)

Lemma binade_spec (m : Q) :
  0 < m -> 2 ^ binade m <= m /\ m < 2 ^ (binade m + 1).
Proof.
  intros Hm. destruct m as [n d]. unfold binade. cbn [Qnum Qden].
  assert (0 < n)%Z as Hn by (unfold Qlt in Hm; simpl in Hm; lia).
  set (ln := Z.log2 n). set (ld := Z.log2 (Zpos d)).
  destruct (Z.log2_spec n Hn) as [Hn1 Hn2]. fold ln in Hn1, Hn2.
  destruct (Z.log2_spec (Zpos d) eq_refl) as [Hd1 Hd2]. fold ld in Hd1, Hd2.
  assert (0 <= ln)%Z as Hln by apply Z.log2_nonneg.
  assert (0 <= ld)%Z as Hld by apply Z.log2_nonneg.
  assert (n # d == inject_Z n / inject_Z (Zpos d)) as Hq by apply Qmake_Qdiv.
  assert (0 < inject_Z (Zpos d)) as Hdpos by reflexivity.
  assert ((n # d) * inject_Z (Zpos d) == inject_Z n) as Hmul.
  { rewrite Hq. field. intros H. rewrite H in Hdpos. discriminate. }
  assert (2 ^ ln <= inject_Z n) as Qn1
    by (rewrite <- pow2_Z by exact Hln; now rewrite <- Zle_Qle).
  assert (inject_Z n < 2 ^ (ln + 1)) as Qn2
    by (rewrite <- pow2_Z by lia; rewrite <- Zlt_Qlt;
        now rewrite <- Z.add_1_r in Hn2).
  assert (2 ^ ld <= inject_Z (Zpos d)) as Qd1
    by (rewrite <- pow2_Z by exact Hld; now rewrite <- Zle_Qle).
  assert (inject_Z (Zpos d) < 2 ^ (ld + 1)) as Qd2
    by (rewrite <- pow2_Z by lia; rewrite <- Zlt_Qlt;
        now rewrite <- Z.add_1_r in Hd2).
  set (b := (ln - ld)%Z).
  assert (n # d < 2 ^ (b + 1)) as Hup.
  { apply (Qmult_lt_r _ _ (inject_Z (Zpos d))); [exact Hdpos|].
    rewrite Hmul. eapply Qlt_le_trans; [exact Qn2|].
    assert (2 ^ (ln + 1) == 2 ^ (b + 1) * 2 ^ ld) as ->.
    { rewrite <- pow2_plus. now replace (b + 1 + ld)%Z with (ln + 1)%Z
        by (unfold b; ring). }
    apply Qmult_le_l; [apply pow2_pos|exact Qd1]. }
  assert (2 ^ (b - 1) < n # d) as Hlo.
  { apply (Qmult_lt_r _ _ (inject_Z (Zpos d))); [exact Hdpos|].
    rewrite Hmul. eapply Qlt_le_trans; [|exact Qn1].
    assert (2 ^ ln == 2 ^ (b - 1) * 2 ^ (ld + 1)) as ->.
    { rewrite <- pow2_plus. now replace (b - 1 + (ld + 1))%Z with ln
        by (unfold b; ring). }
    apply Qmult_lt_l; [apply pow2_pos|exact Qd2]. }
  destruct (Qle_bool (2 ^ b) (n # d)) eqn:E.
  - apply Qle_bool_iff in E. split; assumption.
  - assert (n # d < 2 ^ b) as Hlt.
    { destruct (Qlt_le_dec (n # d) (2 ^ b)) as [H|H]; [exact H|].
      apply Qle_bool_iff in H. congruence. }
    split; [now apply Qlt_le_weak|].
    now replace (b - 1 + 1)%Z with b by ring.
Qed.

Lemma binade_unique (m : Q) (e : Z) :
  2 ^ e <= m -> m < 2 ^ (e + 1) -> binade m = e.
Proof.
  intros H1 H2.
  assert (0 < m) as Hm by (eapply Qlt_le_trans; [apply (pow2_pos e)|exact H1]).
  destruct (binade_spec m Hm) as [B1 B2].
  destruct (Z.lt_trichotomy (binade m) e) as [Hlt|[Heq|Hgt]]; [|exact Heq|].
  - exfalso. assert (2 ^ (binade m + 1) <= 2 ^ e) by (apply pow2_le; lia).
    lra.
  - exfalso. assert (2 ^ (e + 1) <= 2 ^ binade m) by (apply pow2_le; lia).
    lra.
Qed.

Lemma binade_mono (x y : Q) : 0 < x -> x <= y -> (binade x <= binade y)%Z.
Proof.
  intros Hx Hxy. assert (0 < y) as Hy by lra.
  destruct (binade_spec x Hx) as [X1 X2].
  destruct (binade_spec y Hy) as [Y1 Y2].
  destruct (Z.le_gt_cases (binade x) (binade y)) as [H|H]; [exact H|].
  exfalso. assert (2 ^ (binade y + 1) <= 2 ^ binade x) by (apply pow2_le; lia).
  lra.
Qed.

Lemma binade_comp (x y : Q) : 0 < x -> x == y -> binade x = binade y.
Proof.
  intros Hx Hxy. destruct (binade_spec x Hx) as [X1 X2].
  symmetry. apply binade_unique; rewrite <- Hxy; assumption.
Qed.

(** *** Rounding to an integer *)

Lemma rhe_bounds (x : Q) :
  (Qfloor x <= round_half_even x <= Qfloor x + 1)%Z.
Proof.
  unfold round_half_even.
  destruct (Qcompare (x - inject_Z (Qfloor x)) (1 # 2));
    [destruct (Z.even (Qfloor x))| |]; lia.
Qed.

Lemma rhe_comp (x y : Q) : x == y -> round_half_even x = round_half_even y.
Proof.
  intros H. unfold round_half_even. rewrite (Qfloor_comp _ _ H).
  assert (x - inject_Z (Qfloor y) == y - inject_Z (Qfloor y)) as Hd
    by (rewrite H; reflexivity).
  now rewrite (Qcompare_comp _ _ Hd _ _ (Qeq_refl (1 # 2))).
Qed.

Lemma rhe_Z (k : Z) : round_half_even (inject_Z k) = k.
Proof.
  unfold round_half_even. rewrite Qfloor_Z.
  assert (inject_Z k - inject_Z k == 0) as Hd by ring.
  now rewrite (Qcompare_comp _ _ Hd _ _ (Qeq_refl (1 # 2))).
Qed.

Lemma rhe_mono (x y : Q) :
  x <= y -> (round_half_even x <= round_half_even y)%Z.
Proof.
  intros Hxy. pose proof (Qfloor_resp_le x y Hxy) as Hf.
  pose proof (rhe_bounds x). pose proof (rhe_bounds y).
  destruct (Z.eq_dec (Qfloor x) (Qfloor y)) as [Heq|Hne]; [|lia].
  unfold round_half_even. rewrite <- Heq. set (f := Qfloor x).
  destruct (Qcompare (x - inject_Z f) (1 # 2)) eqn:Ex;
    destruct (Qcompare (y - inject_Z f) (1 # 2)) eqn:Ey;
    try (destruct (Z.even f)); try lia; exfalso;
    first [apply Qeq_alt in Ex|apply Qlt_alt in Ex|apply Qgt_alt in Ex];
    first [apply Qeq_alt in Ey|apply Qlt_alt in Ey|apply Qgt_alt in Ey];
    lra.
Qed.

(** *** Rounding a magnitude *)

Lemma ulp_pos (m : Q) : 0 < ulp m.
Proof. apply pow2_pos. Qed.

Lemma zero_div (x u : Q) : x == 0 -> x / u == inject_Z 0.
Proof. intros H. rewrite H. unfold Qdiv. ring. Qed.

Lemma rnd_mag_comp (x y : Q) : 0 <= x -> x == y -> rnd_mag x == rnd_mag y.
Proof.
  intros Hx Hxy. unfold rnd_mag.
  destruct (Qlt_le_dec 0 x) as [Hpos|Hle].
  - unfold ulp, ulp_exponent. rewrite (binade_comp x y Hpos Hxy).
    set (u := 2 ^ Z.max (binade y - 52) (-1074)).
    assert (x / u == y / u) as Hd by (rewrite Hxy; reflexivity).
    now rewrite (rhe_comp _ _ Hd).
  - assert (x == 0) as Hx0 by lra. assert (y == 0) as Hy0 by lra.
    pose proof (zero_div x (ulp x) Hx0) as Hdx.
    pose proof (zero_div y (ulp y) Hy0) as Hdy.
    rewrite (rhe_comp _ _ Hdx), (rhe_comp _ _ Hdy), rhe_Z. ring.
Qed.

Lemma rnd_mag_nonneg (m : Q) : 0 <= m -> 0 <= rnd_mag m.
Proof.
  intros Hm. unfold rnd_mag. pose proof (ulp_pos m) as Hu.
  apply Qmult_le_0_compat; [|lra].
  assert (inject_Z 0 <= m / ulp m) as Hq
    by (change (inject_Z 0) with 0; apply Qle_shift_div_l; lra).
  apply rhe_mono in Hq. rewrite rhe_Z in Hq.
  change 0 with (inject_Z 0). now rewrite <- Zle_Qle.
Qed.

(** A rounded magnitude stays in the closed binade of the magnitude. *)
Lemma rnd_mag_upper (m : Q) :
  0 < m -> rnd_mag m <= 2 ^ (ulp_exponent m + 53).
Proof.
  intros Hm. destruct (binade_spec m Hm) as [_ B2].
  unfold rnd_mag. pose proof (ulp_pos m) as Hu. unfold ulp in *.
  set (e := ulp_exponent m) in *.
  assert (2 ^ (binade m + 1) <= 2 ^ (53 + e)) as Hb
    by (apply pow2_le; unfold e, ulp_exponent; lia).
  assert (m / 2 ^ e <= inject_Z (2 ^ 53)) as Hq.
  { apply Qle_shift_div_r; [exact Hu|].
    rewrite pow2_Z by discriminate. rewrite <- pow2_plus. lra. }
  apply rhe_mono in Hq. rewrite rhe_Z in Hq.
  assert (2 ^ (e + 53) == inject_Z (2 ^ 53) * 2 ^ e) as ->.
  { rewrite pow2_Z by discriminate. rewrite <- pow2_plus.
    now rewrite Z.add_comm. }
  apply Qmult_le_compat_r; [|lra]. now rewrite <- Zle_Qle.
Qed.

Lemma rnd_mag_lower (m : Q) :
  0 < m -> (-1074 <= binade m - 52)%Z -> 2 ^ binade m <= rnd_mag m.
Proof.
  intros Hm Hnormal. destruct (binade_spec m Hm) as [B1 _].
  unfold rnd_mag. pose proof (ulp_pos m) as Hu. unfold ulp in *.
  assert (ulp_exponent m = (binade m - 52)%Z) as He
    by (unfold ulp_exponent; lia).
  rewrite He in *. set (e := (binade m - 52)%Z) in *.
  assert (2 ^ binade m == inject_Z (2 ^ 52) * 2 ^ e) as Hb.
  { rewrite pow2_Z by discriminate. rewrite <- pow2_plus.
    now replace (52 + e)%Z with (binade m) by (unfold e; ring). }
  assert (inject_Z (2 ^ 52) <= m / 2 ^ e) as Hq
    by (apply Qle_shift_div_l; [exact Hu|]; lra).
  apply rhe_mono in Hq. rewrite rhe_Z in Hq.
  rewrite Hb. apply Qmult_le_compat_r; [|lra]. now rewrite <- Zle_Qle.
Qed.

Lemma rnd_mag_mono (x y : Q) :
  0 < x -> x <= y -> rnd_mag x <= rnd_mag y.
Proof.
  intros Hx Hxy. assert (0 < y) as Hy by lra.
  pose proof (binade_mono x y Hx Hxy) as Hb.
  destruct (Z.eq_dec (ulp_exponent x) (ulp_exponent y)) as [Heq|Hne].
  - unfold rnd_mag, ulp. rewrite Heq.
    pose proof (pow2_pos (ulp_exponent y)) as Hu.
    apply Qmult_le_compat_r; [|lra]. rewrite <- Zle_Qle. apply rhe_mono.
    apply Qle_shift_div_l; [exact Hu|].
    assert (x / 2 ^ ulp_exponent y * 2 ^ ulp_exponent y == x) as ->
      by (field; lra).
    exact Hxy.
  - assert (ulp_exponent x < ulp_exponent y)%Z as Hlt
      by (unfold ulp_exponent in *; lia).
    assert (-1074 <= binade y - 52)%Z as Hnormal
      by (unfold ulp_exponent in *; lia).
    pose proof (rnd_mag_upper x Hx) as Hux.
    pose proof (rnd_mag_lower y Hy Hnormal) as Hly.
    assert (2 ^ (ulp_exponent x + 53) <= 2 ^ binade y)
      by (apply pow2_le; unfold ulp_exponent in *; lia).
    lra.
Qed.

(** *** Rounding *)

Lemma Qltb_false (a b : Q) : Qltb a b = false <-> b <= a.
Proof.
  destruct (Qltb a b) eqn:E.
  - apply Qltb_lt in E. split; [discriminate|]. intros H. lra.
  - split; [|reflexivity]. intros _.
    destruct (Qlt_le_dec a b) as [H|H]; [|exact H].
    apply Qltb_lt in H. congruence.
Qed.

Theorem rnd_mono (x y : Q) : x <= y -> rnd x <= rnd y.
Proof.
  intros Hxy. unfold rnd.
  destruct (Qltb x 0) eqn:Ex; destruct (Qltb y 0) eqn:Ey.
  - apply Qltb_lt in Ex, Ey.
    assert (rnd_mag (- y) <= rnd_mag (- x)) by (apply rnd_mag_mono; lra).
    lra.
  - apply Qltb_lt in Ex. apply Qltb_false in Ey.
    pose proof (rnd_mag_nonneg (- x) ltac:(lra)).
    pose proof (rnd_mag_nonneg y Ey). lra.
  - apply Qltb_false in Ex. apply Qltb_lt in Ey. lra.
  - apply Qltb_false in Ex, Ey.
    destruct (Qlt_le_dec 0 x) as [Hpos|Hle].
    + now apply rnd_mag_mono.
    + assert (0 == x) as H0 by lra.
      rewrite <- (rnd_mag_comp 0 x (Qle_refl 0) H0).
      assert (rnd_mag 0 == 0) as -> by reflexivity.
      now apply rnd_mag_nonneg.
Qed.

Lemma rnd_comp (x y : Q) : x == y -> rnd x == rnd y.
Proof.
  intros H. apply Qle_antisym; apply rnd_mono; rewrite H; apply Qle_refl.
Qed.

Lemma rnd_opp (x : Q) : rnd (- x) == - rnd x.
Proof.
  unfold rnd. destruct (Qltb x 0) eqn:Ex; destruct (Qltb (- x) 0) eqn:Ey.
  - apply Qltb_lt in Ex, Ey. lra.
  - ring.
  - apply Qltb_false in Ex. apply Qltb_lt in Ey.
    rewrite (rnd_mag_comp x (- - x)); [reflexivity|exact Ex|ring].
  - apply Qltb_false in Ex, Ey. assert (x == 0) as Hx by lra.
    rewrite (rnd_mag_comp (- x) 0), (rnd_mag_comp x 0); try lra.
    reflexivity.
Qed.

Lemma rnd_0 : rnd 0 == 0.
Proof. reflexivity. Qed.

(** Rounding does not cross a binary64 number. *)
Lemma rnd_le (x c : Q) : representable c -> x <= c -> rnd x <= c.
Proof.
  unfold representable. intros Hc Hx.
  apply Qle_trans with (rnd c); [now apply rnd_mono|].
  rewrite Hc. apply Qle_refl.
Qed.

Lemma rnd_ge (x c : Q) : representable c -> c <= x -> c <= rnd x.
Proof.
  unfold representable. intros Hc Hx.
  apply Qle_trans with (rnd c); [|now apply rnd_mono].
  rewrite Hc. apply Qle_refl.
Qed.

(** A positive binary64 number is a whole multiple of its unit in the last
    place, hence of every smaller power of two. *)
Lemma representable_grid (x : Q) (e : Z) :
  representable x -> 0 < x -> (e <= ulp_exponent x)%Z ->
  exists k : Z, x == inject_Z k * 2 ^ e.
Proof.
  intros Hr Hx He. unfold representable, rnd in Hr.
  assert (Qltb x 0 = false) as Hs by (apply Qltb_false; lra).
  rewrite Hs in Hr. unfold rnd_mag, ulp in Hr.
  set (k := round_half_even (x / 2 ^ ulp_exponent x)) in *.
  exists (k * 2 ^ (ulp_exponent x - e))%Z.
  rewrite inject_Z_mult, pow2_Z by lia. rewrite <- Qmult_assoc, <- pow2_plus.
  replace (ulp_exponent x - e + e)%Z with (ulp_exponent x) by ring.
  now symmetry.
Qed.

End Binary64.

(** ** circadian_calculation_comparison/01_Cosinor_metrics.py *)

Module Cosinor.
Import Binary64.
Local Open Scope Q_scope.

(** [np.pi], the binary64 number nearest to pi, as the fraction it is. *)
Definition np_pi : Q := 884279719003555 # 281474976710656.

(** [two_pi = 2 * np.pi] *)
Definition two_pi : Q := mul 2 np_pi.

(** The [while value < 0: value += two_pi] loop on binary64 numbers, each
    addition rounded; [None] when the loop has not ended after [fuel]
    additions. *)
Fixpoint acro_neg_to_pos (fuel : nat) (value : Q) : option Q :=
  match fuel with
  | O => if Qltb value 0 then None else Some value
  | S fuel' =>
      if Qltb value 0 then acro_neg_to_pos fuel' (add value two_pi)
      else Some value
  end.

(** [acro_to_time]: [24 - 24 * acrophase / (2 * np.pi)], the product
    first, then the quotient, then the difference. *)
Definition acro_to_time (acrophase : Q) : Q :=
  sub 24 (div (mul 24 acrophase) two_pi).

Lemma two_pi_value : two_pi == 2 * np_pi.
Proof. vm_compute. reflexivity. Qed.

Lemma two_pi_pos : 0 < two_pi.
Proof. vm_compute. reflexivity. Qed.

Lemma two_pi_representable : representable two_pi.
Proof. vm_compute. reflexivity. Qed.

Lemma neg_two_pi_representable : representable (- two_pi).
Proof. vm_compute. reflexivity. Qed.

Lemma zero_representable : representable 0.
Proof. vm_compute. reflexivity. Qed.

Lemma acro_neg_to_pos_nonneg (fuel : nat) (value : Q) :
  0 <= value -> acro_neg_to_pos fuel value = Some value.
Proof.
  intros H. apply Qltb_false in H. destruct fuel; simpl; now rewrite H.
Qed.

(** From - 2 * two_pi on, one or two additions end the loop, in
    [0, two_pi]. *)
Lemma acro_neg_to_pos_two_turns (fuel : nat) (value : Q) :
  - (2 * two_pi) <= value -> value < 0 -> (2 <= fuel)%nat ->
  exists r,
    acro_neg_to_pos fuel value = Some r
    /\ 0 <= r /\ r <= two_pi
    /\ (r = add value two_pi \/ r = add (add value two_pi) two_pi).
Proof.
  intros Hlo Hneg Hfuel. pose proof two_pi_pos as Hpos.
  destruct fuel as [|[|fuel]]; try lia. clear Hfuel.
  assert (add value two_pi <= two_pi) as H1
    by (apply rnd_le; [apply two_pi_representable|lra]).
  assert (- two_pi <= add value two_pi) as H2
    by (apply rnd_ge; [apply neg_two_pi_representable|lra]).
  cbn [acro_neg_to_pos]. apply Qltb_lt in Hneg. rewrite Hneg.
  destruct (Qltb (add value two_pi) 0) eqn:E1.
  - apply Qltb_lt in E1. set (v1 := add value two_pi) in *.
    assert (add v1 two_pi <= two_pi) as H3
      by (apply rnd_le; [apply two_pi_representable|lra]).
    assert (0 <= add v1 two_pi) as H4
      by (apply rnd_ge; [apply zero_representable|lra]).
    exists (add v1 two_pi). rewrite acro_neg_to_pos_nonneg by exact H4.
    auto.
  - apply Qltb_false in E1. exists (add value two_pi).
    split; [reflexivity|]. auto.
Qed.

(** No binary64 number lies strictly between - 2 * two_pi and the number
    2^-49 below it. *)
Lemma below_two_turns (value : Q) :
  representable value -> value < - (2 * two_pi) ->
  value <= - (2 * two_pi + (1 # 562949953421312)).
Proof.
  intros Hr Hlt.
  assert (representable (- value)) as Hm.
  { unfold representable in *. rewrite rnd_opp, Hr. reflexivity. }
  assert (2 * two_pi < - value) as Hgt by lra.
  assert (8 < 2 * two_pi) as H8 by (vm_compute; reflexivity).
  assert (0 < - value) as Hpos by lra.
  assert (3 <= binade (- value))%Z as Hb.
  { assert (binade 8 = 3%Z) as <- by (vm_compute; reflexivity).
    apply binade_mono; [reflexivity|lra]. }
  destruct (representable_grid (- value) (-49) Hm Hpos) as [k Hk];
    [unfold ulp_exponent; lia|].
  assert (2 * two_pi == inject_Z 7074237752028440 * 2 ^ (-49)) as Hc
    by (vm_compute; reflexivity).
  assert (0 < 2 ^ (-49)) as Hu by apply pow2_pos.
  assert (inject_Z 7074237752028440 < inject_Z k) as Hlk.
  { apply (Qmult_lt_r _ _ (2 ^ (-49))); [exact Hu|].
    rewrite <- Hk, <- Hc. exact Hgt. }
  rewrite <- Zlt_Qlt in Hlk.
  assert (inject_Z (7074237752028440 + 1) <= inject_Z k) as Hk1
    by (rewrite <- Zle_Qle; lia).
  assert (2 * two_pi + (1 # 562949953421312)
          == inject_Z (7074237752028440 + 1) * 2 ^ (-49)) as Hc1
    by (vm_compute; reflexivity).
  assert (2 * two_pi + (1 # 562949953421312) <= - value).
  { rewrite Hc1, Hk. apply Qmult_le_compat_r; [exact Hk1|lra]. }
  lra.
Qed.

(** Far below zero an addition of [two_pi] is lost in the rounding, and the
    loop does not end: - 10^17 plus [two_pi] is - 10^17. *)
Lemma acro_neg_to_pos_stalls (fuel : nat) :
  forall value, value == - (100000000000000000) ->
                acro_neg_to_pos fuel value = None.
Proof.
  induction fuel as [|fuel IH]; intros value Hv; cbn [acro_neg_to_pos].
  - assert (Qltb value 0 = true) as -> by (apply Qltb_lt; rewrite Hv; reflexivity).
    reflexivity.
  - assert (Qltb value 0 = true) as -> by (apply Qltb_lt; rewrite Hv; reflexivity).
    apply IH. unfold add.
    apply Qeq_trans with (rnd (- (100000000000000000) + two_pi)).
    + apply rnd_comp. rewrite Hv. reflexivity.
    + vm_compute. reflexivity.
Qed.

End Cosinor.

(** ** pi as a real number *)

Module RealPi.
Import Reals Qreals Machin.
Local Open Scope Q_scope.

(** The partial sums of the series 2 atan(1/3) + atan(1/7) for pi / 4,
    computed on rationals. *)
Fixpoint qpow (q : Q) (n : nat) : Q :=
  match n with
  | O => 1
  | S n' => q * qpow q n'
  end.

Definition machin_term (i : nat) : Q :=
  qpow (- (1)) i
  * (2 * (qpow (1 # 3) (2 * i + 1) / inject_Z (Z.of_nat (2 * i + 1)))
     + qpow (1 # 7) (2 * i + 1) / inject_Z (Z.of_nat (2 * i + 1))).

Fixpoint machin_sum (n : nat) : Q :=
  match n with
  | O => machin_term 0
  | S i => machin_sum i + machin_term (S i)
  end.

Lemma Q2R_qpow (q : Q) (n : nat) : Q2R (qpow q n) = (Q2R q ^ n)%R.
Proof.
  induction n as [|n IH]; cbn [qpow pow].
  - unfold Q2R. simpl. Lra.lra.
  - now rewrite Q2R_mult, IH.
Qed.

Lemma Q2R_nat (n : nat) : Q2R (inject_Z (Z.of_nat n)) = INR n.
Proof.
  unfold Q2R. cbn [Qnum Qden inject_Z]. rewrite <- INR_IZR_INZ.
  rewrite Rinv_1. apply Rmult_1_r.
Qed.

Lemma Q2R_machin_term (i : nat) :
  Q2R (machin_term i) = tg_alt PI_2_3_7_tg i.
Proof.
  unfold machin_term, tg_alt, PI_2_3_7_tg, Ratan_seq.
  assert (~ inject_Z (Z.of_nat (2 * i + 1)) == 0) as Hnz.
  { change 0 with (inject_Z 0). rewrite inject_Z_injective. lia. }
  rewrite Q2R_mult, Q2R_plus, Q2R_mult, !Q2R_div, !Q2R_qpow, Q2R_nat
    by exact Hnz.
  assert (Q2R (- (1)) = (-1)%R) as -> by (unfold Q2R; simpl; Lra.lra).
  assert (Q2R (1 # 3) = (/ 3)%R) as -> by (unfold Q2R; simpl; Lra.lra).
  assert (Q2R (1 # 7) = (/ 7)%R) as -> by (unfold Q2R; simpl; Lra.lra).
  assert (Q2R 2 = 2%R) as -> by (unfold Q2R; simpl; Lra.lra).
  reflexivity.
Qed.

Lemma Q2R_machin_sum (n : nat) :
  Q2R (machin_sum n) = sum_f_R0 (tg_alt PI_2_3_7_tg) n.
Proof.
  induction n as [|n IH]; cbn [machin_sum sum_f_R0].
  - apply Q2R_machin_term.
  - now rewrite Q2R_plus, IH, Q2R_machin_term.
Qed.

Lemma Q2R_4 : Q2R 4 = 4%R.
Proof. unfold Q2R. simpl. Lra.lra. Qed.

Lemma Q2R_2 : Q2R 2 = 2%R.
Proof. unfold Q2R. simpl. Lra.lra. Qed.

(** [np.pi] lies below pi, by less than 2^-52. *)
Lemma np_pi_below_PI : (Q2R Cosinor.np_pi < PI)%R.
Proof.
  destruct (PI_2_3_7_ineq 8) as [Hlo _].
  change (S (2 * 8)) with 17%nat in Hlo.
  rewrite <- Q2R_machin_sum in Hlo.
  assert (Cosinor.np_pi < 4 * machin_sum 17) as Hq
    by (vm_compute; reflexivity).
  apply Qlt_Rlt in Hq. rewrite Q2R_mult, Q2R_4 in Hq. Lra.lra.
Qed.

Lemma PI_below_next :
  (PI < Q2R (Cosinor.np_pi + (1 # 4503599627370496)))%R.
Proof.
  destruct (PI_2_3_7_ineq 9) as [_ Hhi].
  change (2 * 9)%nat with 18%nat in Hhi.
  rewrite <- Q2R_machin_sum in Hhi.
  assert (4 * machin_sum 18 < Cosinor.np_pi + (1 # 4503599627370496)) as Hq
    by (vm_compute; reflexivity).
  apply Qlt_Rlt in Hq. rewrite Q2R_mult, Q2R_4 in Hq. Lra.lra.
Qed.

End RealPi.

Module CosinorReal.
Import Reals Qreals Binary64 Cosinor RealPi.
Local Open Scope Q_scope.

Lemma two_pi_below : (Q2R two_pi < 2 * PI)%R.
Proof.
  rewrite (Qeq_eqR _ _ two_pi_value), Q2R_mult, Q2R_2.
  pose proof np_pi_below_PI. Lra.lra.
Qed.

(** The binary64 numbers above - 4 pi are those from - 2 * two_pi on. *)
Lemma above_four_pi (value : Q) :
  representable value -> (- (4 * PI) < Q2R value)%R ->
  - (2 * two_pi) <= value.
Proof.
  intros Hr Hv. destruct (Qlt_le_dec value (- (2 * two_pi))) as [Hlt|Hle];
    [exfalso|exact Hle].
  pose proof (below_two_turns value Hr Hlt) as Hb.
  apply Qle_Rle in Hb.
  assert (- (2 * two_pi + (1 # 562949953421312))
          == - (4 * (np_pi + (1 # 2251799813685248)))) as He
    by (vm_compute; reflexivity).
  rewrite (Qeq_eqR _ _ He), Q2R_opp, Q2R_mult, Q2R_4, Q2R_plus in Hb.
  pose proof PI_below_next as Hpi. rewrite Q2R_plus in Hpi.
  assert (Q2R (1 # 4503599627370496) < Q2R (1 # 2251799813685248))%R
    by (apply Qlt_Rlt; reflexivity).
  Lra.lra.
Qed.

(** C9. On binary64 numbers, for every input above - 4 pi and below 0,
    [acro_neg_to_pos] ends after one or two additions of [2 * np.pi] and
    returns a value that is at least 0 and below 2 pi; for - pi / 2 (the
    binary64 number [- np.pi / 2]) it returns [3 * np.pi / 2], the binary64
    number nearest to 3 pi / 2; an input that is not negative is returned
    as it is. *)
Theorem acro_neg_to_pos_canonical :
  (forall value fuel,
      representable value ->
      (- (4 * PI) < Q2R value)%R -> value < 0 -> (2 <= fuel)%nat ->
      exists r,
        acro_neg_to_pos fuel value = Some r
        /\ 0 <= r /\ (Q2R r < 2 * PI)%R
        /\ (r = add value two_pi \/ r = add (add value two_pi) two_pi))
  /\ (forall fuel, (1 <= fuel)%nat ->
      exists r,
        acro_neg_to_pos fuel (div (- np_pi) 2) = Some r
        /\ r == 3 * np_pi / 2
        /\ ulp r == 1 # 1125899906842624
        /\ (Rabs (Q2R r - 3 * PI / 2) < Q2R (1 # 2251799813685248))%R)
  /\ (forall value fuel, 0 <= value -> acro_neg_to_pos fuel value = Some value).
Proof.
  split; [|split].
  - intros value fuel Hr Hv Hneg Hfuel.
    pose proof (above_four_pi value Hr Hv) as Hlo.
    destruct (acro_neg_to_pos_two_turns fuel value Hlo Hneg Hfuel)
      as (r & Hrun & H0 & H1 & Hsteps).
    exists r. split; [exact Hrun|]. split; [exact H0|]. split; [|exact Hsteps].
    apply Qle_Rle in H1. pose proof two_pi_below. Lra.lra.
  - intros fuel Hfuel. destruct fuel as [|fuel]; [lia|].
    exists (add (div (- np_pi) 2) two_pi).
    assert (0 <= add (div (- np_pi) 2) two_pi) as Hpos
      by (vm_compute; discriminate).
    split.
    { cbn [acro_neg_to_pos].
      assert (Qltb (div (- np_pi) 2) 0 = true) as -> by (vm_compute; reflexivity).
      now apply acro_neg_to_pos_nonneg. }
    assert (add (div (- np_pi) 2) two_pi == 3 * np_pi / 2) as Hval
      by (vm_compute; reflexivity).
    split; [exact Hval|]. split; [vm_compute; reflexivity|].
    rewrite (Qeq_eqR _ _ Hval).
    assert (Q2R (3 * np_pi / 2) = (3 * Q2R np_pi / 2)%R) as ->.
    { unfold Qdiv. rewrite !Q2R_mult.
      assert (Q2R 3 = 3%R) as -> by (unfold Q2R; simpl; Lra.lra).
      assert (Q2R (/ 2) = (/ 2)%R) as -> by (unfold Q2R; simpl; Lra.lra).
      reflexivity. }
    pose proof np_pi_below_PI as Hlo. pose proof PI_below_next as Hhi.
    rewrite Q2R_plus in Hhi.
    assert (Q2R (1 # 4503599627370496) = (/ 4503599627370496)%R) as H52
      by (unfold Q2R; simpl; Lra.lra).
    assert (Q2R (1 # 2251799813685248) = (/ 2251799813685248)%R) as H51
      by (unfold Q2R; simpl; Lra.lra).
    rewrite H52 in Hhi. rewrite H51.
    apply Rabs_def1; Lra.lra.
  - intros value fuel. apply acro_neg_to_pos_nonneg.
Qed.

(** The theorem at the acrophase -1. *)
Lemma acro_neg_to_pos_canonical_witness :
  exists r,
    acro_neg_to_pos 2 (- (1)) = Some r
    /\ 0 <= r /\ (Q2R r < 2 * PI)%R
    /\ (r = add (- (1)) two_pi \/ r = add (add (- (1)) two_pi) two_pi).
Proof.
  apply (proj1 acro_neg_to_pos_canonical (- (1)) 2%nat).
  - vm_compute. reflexivity.
  - assert (Q2R (- (1)) = (-1)%R) as -> by (unfold Q2R; simpl; Lra.lra).
    pose proof np_pi_below_PI.
    assert (Q2R 3 < Q2R np_pi)%R as H3 by (apply Qlt_Rlt; reflexivity).
    assert (Q2R 3 = 3%R) as E3 by (unfold Q2R; simpl; Lra.lra).
    rewrite E3 in H3. Lra.lra.
  - reflexivity.
  - lia.
Defined.

End CosinorReal.

(** ** The rounding of [Binary64] against the numbers of the machine

    On sample operands the four operations of the machine give the numbers
    that [Binary64] computes, and the loop of [acro_neg_to_pos] run on
    machine numbers ends, or does not end, as the loop of the embedding. *)

Module CosinorB64.
Import Floats Binary64 Cosinor.
Local Open Scope Q_scope.

(** The rational number that a machine number is. *)
Definition to_Q (f : float) : option Q :=
  match Prim2SF f with
  | S754_zero _ => Some 0
  | S754_finite s m e =>
      Some ((if s then - (1) else 1) * inject_Z (Zpos m) * 2 ^ e)
  | _ => None
  end.

Definition agree (machine : float) (model : Q) : bool :=
  match to_Q machine with
  | Some q => Qeq_bool q model
  | None => false
  end.

(** The four operations of the machine against the rounded operations of
    [Binary64], on a pair of machine numbers. *)
Definition operations_agree (p : float * float) : bool :=
  let (a, b) := p in
  match to_Q a, to_Q b with
  | Some x, Some y =>
      agree (a + b)%float (add x y) && agree (a - b)%float (sub x y)
      && agree (a * b)%float (mul x y) && agree (a / b)%float (div x y)
  | _, _ => false
  end.

Definition b64_pi : float := 0x1.921fb54442d18p+1%float.

Definition b64_two_pi : float := (2 * b64_pi)%float.

Definition samples : list (float * float) :=
  [ ((- 0x1p-70)%float, b64_two_pi);
    ((- 0x1.6345785d8ap+56)%float, b64_two_pi);
    (0x1.999999999999ap-4%float, 0x1.999999999999ap-3%float);
    ((- b64_pi / 2)%float, b64_two_pi);
    (24%float, b64_two_pi);
    ((24 * b64_two_pi)%float, b64_two_pi);
    (1%float, 3%float);
    (0x0.0000000000001p-1022%float, 3%float);
    (0x1.fffffffffffffp-1%float, 60%float);
    (0x1.7fbbbbbbbbbbcp+4%float, 0x1.1111111111111p-6%float) ].

Fixpoint b64_acro_neg_to_pos (fuel : nat) (value : float) : option float :=
  match fuel with
  | O => if (value <? 0)%float then None else Some value
  | S fuel' =>
      if (value <? 0)%float
      then b64_acro_neg_to_pos fuel' (value + b64_two_pi)%float
      else Some value
  end.

Definition loops_agree (fuel : nat) (value : float) : bool :=
  match to_Q value with
  | Some v =>
      match b64_acro_neg_to_pos fuel value, acro_neg_to_pos fuel v with
      | Some r, Some q => agree r q
      | None, None => true
      | _, _ => false
      end
  | None => false
  end.

Lemma machine_agrees :
  forallb operations_agree samples = true
  /\ forallb (loops_agree 3)
       [ (- b64_pi / 2)%float; (- 0x1p-70)%float; (-2 * b64_two_pi)%float;
         (- 0x1.6345785d8ap+56)%float; 1%float ] = true
  /\ b64_acro_neg_to_pos 2 (- 0x1p-70)%float = Some b64_two_pi.
Proof. repeat split; vm_compute; reflexivity. Qed.

End CosinorB64.

(** ** circadian_calculation_comparison/02_CR_non_parametric.py *)

Module NonParametric.
Import Clock.
Local Open Scope Q_scope.

(** *** Series statistics of pandas *)

Definition qsum (l : list Q) : Q := fold_right Qplus 0 l.

Definition count (l : list Q) : Q := inject_Z (Z.of_nat (length l)).

Definition mean_q (l : list Q) : Q := qsum l / count l.

(** The sum of the squared deviations from [m]. *)
Definition ssd (m : Q) (l : list Q) : Q :=
  qsum (map (fun v => (v - m) * (v - m)) l).

Definition variance_q (l : list Q) : Q := ssd (mean_q l) l / (count l - 1).

(** [Series.mean()]: NaN on an empty series. *)
Definition mean (l : list Q) : option Q :=
  match l with
  | [] => None
  | _ :: _ => Some (mean_q l)
  end.

(** [Series.var()], with its default [ddof=1]: NaN below two values. *)
Definition var (l : list Q) : option Q :=
  if (length l <? 2)%nat then None else Some (variance_q l).

(** A quotient of two statistics; a missing operand or a zero divisor
    gives no number. *)
Definition quotient (a b : option Q) : option Q :=
  match a, b with
  | Some u, Some v => if Qeq_bool v 0 then None else Some (u / v)
  | _, _ => None
  end.

(** [Series.diff(1)] without its leading NaN. *)
Fixpoint diff_from (prev : Q) (l : list Q) : list Q :=
  match l with
  | [] => []
  | v :: l' => (v - prev) :: diff_from v l'
  end.

Definition diff_1 (l : list Q) : list Q :=
  match l with
  | [] => []
  | v :: l' => diff_from v l'
  end.

(** *** Grouping by the time of day *)

Definition index_hour (t : Z) : Z := ((t / hour) mod 24)%Z.
Definition index_minute (t : Z) : Z := ((t / minute) mod 60)%Z.

(** The key of [groupby([index.hour, index.minute])]: pairs in
    lexicographic order are the numbers hour * 60 + minute in order. *)
Definition hour_minute (t : Z) : Z := (index_hour t * 60 + index_minute t)%Z.

Definition values_at (key : Z -> Z) (k : Z) (data : list (Z * Q)) : list Q :=
  map snd (filter (fun r => (key (fst r) =? k)%Z) data).

(** [data.groupby(key).mean()]: one mean per key present, in key order,
    [keys] being the number of possible keys. *)
Definition group_means (key : Z -> Z) (keys : nat) (data : list (Z * Q))
  : list Q :=
  flat_map (fun k => match mean (values_at key (Z.of_nat k) data) with
                     | Some m => [m]
                     | None => []
                     end)
           (seq 0 keys).

(** [nlargest] and [nsmallest] through a sort. *)
Fixpoint insert_q (leb : Q -> Q -> bool) (v : Q) (l : list Q) : list Q :=
  match l with
  | [] => [v]
  | w :: l' => if leb v w then v :: w :: l' else w :: insert_q leb v l'
  end.

Definition sort_q (leb : Q -> Q -> bool) (l : list Q) : list Q :=
  fold_right (insert_q leb) [] l.

Definition nlargest (n : nat) (l : list Q) : list Q :=
  firstn n (sort_q (fun a b => Qle_bool b a) l).

Definition nsmallest (n : nat) (l : list Q) : list Q :=
  firstn n (sort_q Qle_bool l).

(** *** [non_parametrics] *)

Record metrics : Type := mk_metrics {
  IS : option Q;
  IV : option Q;
  M10 : option Q;
  L5 : option Q;
  RA : option Q
}.

Definition non_parametrics (data : list (Z * Q)) : metrics :=
  let values := map snd data in
  let d_fraction := var (group_means hour_minute 1440 data) in
  let d_daily := var values in
  let d_across := mean (map (fun d => d * d) (diff_1 values)) in
  let hourly_activity := group_means index_hour 24 data in
  let m10 := mean (nlargest 10 hourly_activity) in
  let l5 := mean (nsmallest 5 hourly_activity) in
  mk_metrics
    (quotient d_fraction d_daily)
    (quotient d_across d_daily)
    m10 l5
    (match m10, l5 with
     | Some a, Some b => quotient (Some (a - b)) (Some (a + b))
     | _, _ => None
     end).

(** Interdaily stability in the words of the specification: the variance
    of the hour-of-day group means over the overall variance. *)
Definition IS_by_hour (data : list (Z * Q)) : option Q :=
  quotient (var (group_means index_hour 24 data)) (var (map snd data)).

(** A signal sampled every minute over [days] whole days from a midnight on,
    the value at minute [m] of each day being [profile m]. *)
Definition sample (profile : nat -> Q) (day0 : Z) (j m : nat) : Z * Q :=
  ((day0 * 24 * hour + (Z.of_nat j * 1440 + Z.of_nat m) * minute)%Z,
   profile m).

Definition periodic (profile : nat -> Q) (day0 : Z) (days : nat)
  : list (Z * Q) :=
  flat_map (fun j => map (sample profile day0 j) (seq 0 1440)) (seq 0 days).

(** *** A signal that repeats every 24 hours *)

Lemma hour_minute_sample (profile : nat -> Q) (day0 : Z) (j m : nat) :
  (m < 1440)%nat ->
  hour_minute (fst (sample profile day0 j m)) = Z.of_nat m.
Proof.
  intros Hm. unfold hour_minute, index_hour, index_minute, sample.
  cbn [fst]. change hour with (60000 * 60)%Z. change minute with 60000%Z.
  set (A := (day0 * 1440 + Z.of_nat j * 1440 + Z.of_nat m)%Z).
  replace (day0 * 24 * (60000 * 60) + (Z.of_nat j * 1440 + Z.of_nat m) * 60000)%Z
    with (A * 60000)%Z by (unfold A; ring).
  rewrite <- Z.div_div by lia. rewrite Z.div_mul by lia.
  assert (A / 60 = 24 * (day0 + Z.of_nat j) + Z.of_nat m / 60)%Z as ->.
  { unfold A. Z.div_mod_to_equations. lia. }
  assert (A mod 60 = Z.of_nat m mod 60)%Z as ->.
  { unfold A. Z.div_mod_to_equations. lia. }
  Z.div_mod_to_equations. lia.
Qed.

Lemma filter_seq_eq (k n : nat) :
  forall a, filter (fun m => (m =? k)%nat) (seq a n) =
            if ((a <=? k) && (k <? a + n))%nat then [k] else [].
Proof.
  induction n as [|n IH]; intros a.
  - simpl. destruct (Nat.leb_spec a k), (Nat.ltb_spec k (a + 0));
      try reflexivity; lia.
  - cbn [seq filter]. rewrite IH.
    destruct (Nat.eqb_spec a k), (Nat.leb_spec (S a) k), (Nat.leb_spec a k),
      (Nat.ltb_spec k (S a + n)), (Nat.ltb_spec k (a + S n));
      cbn [andb]; try lia; subst; reflexivity.
Qed.

Section Periodic.
Variable profile : nat -> Q.
Variable day0 : Z.

Lemma filter_day (j k : nat) (l : list nat) :
  Forall (fun m => (m < 1440)%nat) l ->
  filter (fun r => (hour_minute (fst r) =? Z.of_nat k)%Z)
         (map (sample profile day0 j) l)
  = map (sample profile day0 j) (filter (fun m => (m =? k)%nat) l).
Proof.
  induction 1 as [|m l Hm _ IH]; [reflexivity|].
  cbn [map filter]. rewrite (hour_minute_sample profile day0 j m Hm), IH.
  destruct (Nat.eqb_spec m k) as [->|Hne].
  - now rewrite Z.eqb_refl.
  - assert ((Z.of_nat m =? Z.of_nat k)%Z = false) as ->
      by (apply Z.eqb_neq; lia).
    reflexivity.
Qed.

Lemma seq_below (n : nat) : Forall (fun m => (m < n)%nat) (seq 0 n).
Proof. apply Forall_forall. intros m Hm. apply in_seq in Hm. lia. Qed.

Lemma values_at_days (k : nat) (js : list nat) :
  (k < 1440)%nat ->
  values_at hour_minute (Z.of_nat k)
    (flat_map (fun j => map (sample profile day0 j) (seq 0 1440)) js)
  = repeat (profile k) (length js).
Proof.
  intros Hk. unfold values_at.
  induction js as [|j js IH]; [reflexivity|].
  cbn [flat_map length repeat]. rewrite filter_app, map_app, IH.
  rewrite (filter_day j k _ (seq_below 1440)), filter_seq_eq.
  assert (((0 <=? k) && (k <? 0 + 1440))%nat = true) as ->.
  { apply andb_true_iff. split; [apply Nat.leb_le|apply Nat.ltb_lt]; lia. }
  reflexivity.
Qed.

Lemma qsum_repeat (v : Q) (n : nat) :
  qsum (repeat v n) == inject_Z (Z.of_nat n) * v.
Proof.
  induction n as [|n IH].
  - simpl. ring.
  - cbn [repeat qsum fold_right]. fold (qsum (repeat v n)). rewrite IH.
    rewrite Nat2Z.inj_succ. unfold Z.succ. rewrite inject_Z_plus.
    change (inject_Z 1) with 1. ring.
Qed.

Lemma inject_nat_pos (n : nat) : (1 <= n)%nat -> 1 <= inject_Z (Z.of_nat n).
Proof.
  intros H. change 1 with (inject_Z 1). rewrite <- Zle_Qle. lia.
Qed.

Lemma mean_q_repeat (v : Q) (n : nat) :
  (1 <= n)%nat -> mean_q (repeat v n) == v.
Proof.
  intros Hn. unfold mean_q, count. rewrite qsum_repeat, repeat_length.
  pose proof (inject_nat_pos n Hn). field. lra.
Qed.

Lemma group_means_days (js : list nat) (ks : list nat) :
  (1 <= length js)%nat ->
  Forall (fun k => (k < 1440)%nat) ks ->
  flat_map (fun k =>
              match mean (values_at hour_minute (Z.of_nat k)
                            (flat_map (fun j => map (sample profile day0 j)
                                                    (seq 0 1440)) js)) with
              | Some m => [m]
              | None => []
              end) ks
  = map (fun k => mean_q (repeat (profile k) (length js))) ks.
Proof.
  intros Hjs. induction 1 as [|k ks Hk _ IH]; [reflexivity|].
  cbn [flat_map map]. rewrite IH, (values_at_days k js Hk).
  destruct (length js) as [|n]; [lia|]. reflexivity.
Qed.

Lemma values_days (js : list nat) :
  map snd (flat_map (fun j => map (sample profile day0 j) (seq 0 1440)) js)
  = flat_map (fun _ => map profile (seq 0 1440)) js.
Proof.
  induction js as [|j js IH]; [reflexivity|].
  cbn [flat_map]. rewrite map_app, IH, map_map. reflexivity.
Qed.

End Periodic.

Lemma qsum_app (l1 l2 : list Q) : qsum (l1 ++ l2) == qsum l1 + qsum l2.
Proof.
  induction l1 as [|v l1 IH]; simpl.
  - ring.
  - fold (qsum (l1 ++ l2)). fold (qsum l1). rewrite IH. ring.
Qed.

Lemma qsum_copies (p : list Q) (js : list nat) :
  qsum (flat_map (fun _ => p) js) == inject_Z (Z.of_nat (length js)) * qsum p.
Proof.
  induction js as [|j js IH].
  - simpl. ring.
  - cbn [flat_map length]. rewrite qsum_app, IH, Nat2Z.inj_succ.
    unfold Z.succ. rewrite inject_Z_plus. change (inject_Z 1) with 1. ring.
Qed.

Lemma ssd_copies (m : Q) (p : list Q) (js : list nat) :
  ssd m (flat_map (fun _ => p) js)
  == inject_Z (Z.of_nat (length js)) * ssd m p.
Proof.
  unfold ssd. induction js as [|j js IH].
  - simpl. ring.
  - cbn [flat_map length]. rewrite map_app, qsum_app, IH, Nat2Z.inj_succ.
    unfold Z.succ. rewrite inject_Z_plus. change (inject_Z 1) with 1. ring.
Qed.

Lemma length_copies (p : list Q) (js : list nat) :
  length (flat_map (fun _ => p) js) = (length js * length p)%nat.
Proof.
  induction js as [|j js IH]; [reflexivity|].
  cbn [flat_map length]. rewrite length_app, IH. lia.
Qed.

Lemma qsum_map_ext (g h : nat -> Q) (l : list nat) :
  (forall k, g k == h k) -> qsum (map g l) == qsum (map h l).
Proof.
  intros Hgh. induction l as [|k l IH]; simpl; [reflexivity|].
  fold (qsum (map g l)). fold (qsum (map h l)). now rewrite IH, Hgh.
Qed.

Lemma ssd_map_ext (m m' : Q) (g h : nat -> Q) (l : list nat) :
  m == m' -> (forall k, g k == h k) ->
  ssd m (map g l) == ssd m' (map h l).
Proof.
  intros Hm Hgh. unfold ssd. induction l as [|k l IH]; simpl; [reflexivity|].
  fold (qsum (map (fun v => (v - m) * (v - m)) (map g l))).
  fold (qsum (map (fun v => (v - m') * (v - m')) (map h l))).
  now rewrite IH, Hgh, Hm.
Qed.

Lemma square_nonneg (a : Q) : 0 <= a * a.
Proof. nra. Qed.

Lemma ssd_nonneg (m : Q) (l : list Q) : 0 <= ssd m l.
Proof.
  unfold ssd. induction l as [|v l IH]; simpl; [lra|].
  fold (qsum (map (fun v => (v - m) * (v - m)) l)).
  pose proof (square_nonneg (v - m)). lra.
Qed.

Lemma ssd_zero (m : Q) (l : list Q) :
  ssd m l == 0 -> forall v, In v l -> v == m.
Proof.
  induction l as [|w l IH]; intros Hz v Hv; [contradiction|].
  unfold ssd in Hz. simpl in Hz.
  fold (ssd m l) in Hz.
  pose proof (ssd_nonneg m l) as Hl.
  pose proof (square_nonneg (w - m)) as Hw.
  destruct Hv as [<-|Hv].
  - assert ((w - m) * (w - m) == 0) as H0 by lra.
    apply Qmult_integral in H0. destruct H0; lra.
  - apply IH; [lra|assumption].
Qed.

Lemma Qeq_bool_nonzero (v : Q) : ~ v == 0 -> Qeq_bool v 0 = false.
Proof.
  intros Hv. destruct (Qeq_bool v 0) eqn:E; [|reflexivity].
  apply Qeq_bool_eq in E. contradiction.
Qed.

Definition day_profile (profile : nat -> Q) : list Q := map profile (seq 0 1440).

Lemma count_day (g : nat -> Q) : count (map g (seq 0 1440)) == 1440.
Proof. unfold count. rewrite length_map, length_seq. reflexivity. Qed.

Lemma variance_group_means (profile : nat -> Q) (day0 : Z) (days : nat) :
  (1 <= days)%nat ->
  group_means hour_minute 1440 (periodic profile day0 days)
    = map (fun k => mean_q (repeat (profile k) days)) (seq 0 1440)
  /\ variance_q (group_means hour_minute 1440 (periodic profile day0 days))
     == ssd (mean_q (day_profile profile)) (day_profile profile) / 1439.
Proof.
  intros Hd.
  assert (group_means hour_minute 1440 (periodic profile day0 days)
          = map (fun k => mean_q (repeat (profile k) days)) (seq 0 1440)) as Hg.
  { unfold group_means, periodic.
    rewrite (group_means_days profile day0 (seq 0 days) (seq 0 1440));
      rewrite ?length_seq; auto using seq_below. }
  split; [exact Hg|]. rewrite Hg. unfold variance_q, day_profile.
  set (g := fun k => mean_q (repeat (profile k) days)).
  assert (forall k, g k == profile k) as Hgp
    by (intros k; unfold g; now apply mean_q_repeat).
  assert (mean_q (map g (seq 0 1440)) == mean_q (map profile (seq 0 1440)))
    as Hm.
  { unfold mean_q. rewrite !count_day.
    now rewrite (qsum_map_ext g profile). }
  rewrite (ssd_map_ext _ _ g profile _ Hm Hgp), count_day.
  field.
Qed.

Lemma variance_all_days (profile : nat -> Q) (day0 : Z) (days : nat) :
  (1 <= days)%nat ->
  variance_q (map snd (periodic profile day0 days))
  == inject_Z (Z.of_nat days)
     * ssd (mean_q (day_profile profile)) (day_profile profile)
     / (inject_Z (Z.of_nat days) * 1440 - 1).
Proof.
  intros Hd. pose proof (inject_nat_pos days Hd) as Hpos.
  unfold periodic. rewrite values_days. fold (day_profile profile).
  set (p := day_profile profile). set (d := inject_Z (Z.of_nat days)) in *.
  assert (count (flat_map (fun _ => p) (seq 0 days)) == d * 1440) as Hc.
  { unfold count. rewrite length_copies, length_seq. unfold p, day_profile.
    rewrite length_map, length_seq, Nat2Z.inj_mul, inject_Z_mult.
    reflexivity. }
  assert (mean_q (flat_map (fun _ => p) (seq 0 days)) == mean_q p) as Hm.
  { unfold mean_q. rewrite Hc, qsum_copies, length_seq. fold d.
    unfold p at 3. unfold day_profile. rewrite count_day. field. lra. }
  unfold variance_q. rewrite Hc, ssd_copies, length_seq. fold d.
  unfold p at 2 4. unfold day_profile.
  rewrite (ssd_map_ext _ (mean_q p) profile profile _ Hm
             (fun k => Qeq_refl (profile k))).
  reflexivity.
Qed.

Lemma profile_varies (profile : nat -> Q) (a b : nat) :
  (a < 1440)%nat -> (b < 1440)%nat -> ~ profile a == profile b ->
  0 < ssd (mean_q (day_profile profile)) (day_profile profile).
Proof.
  intros Ha Hb Hab.
  pose proof (ssd_nonneg (mean_q (day_profile profile)) (day_profile profile))
    as H0.
  destruct (Qlt_le_dec 0 (ssd (mean_q (day_profile profile))
                              (day_profile profile))) as [Hlt|Hle];
    [assumption|exfalso].
  assert (ssd (mean_q (day_profile profile)) (day_profile profile) == 0)
    as Hz by lra.
  apply Hab.
  rewrite (ssd_zero _ _ Hz (profile a)), (ssd_zero _ _ Hz (profile b)).
  - reflexivity.
  - apply in_map, in_seq. lia.
  - apply in_map, in_seq. lia.
Qed.

Lemma IS_periodic (profile : nat -> Q) (day0 : Z) (days a b : nat) :
  (1 <= days)%nat ->
  (a < 1440)%nat -> (b < 1440)%nat -> ~ profile a == profile b ->
  exists v,
    IS (non_parametrics (periodic profile day0 days)) = Some v
    /\ v == (1440 * inject_Z (Z.of_nat days) - 1)
            / (1439 * inject_Z (Z.of_nat days)).
Proof.
  intros Hd Ha Hb Hab.
  pose proof (inject_nat_pos days Hd) as Hpos.
  pose proof (profile_varies profile a b Ha Hb Hab) as Hss.
  destruct (variance_group_means profile day0 days Hd) as [Hg Hvg].
  pose proof (variance_all_days profile day0 days Hd) as Hva.
  set (d := inject_Z (Z.of_nat days)) in *.
  set (ss := ssd (mean_q (day_profile profile)) (day_profile profile)) in *.
  assert (~ variance_q (map snd (periodic profile day0 days)) == 0) as Hnz.
  { rewrite Hva. intros H0.
    assert (d * ss == 0) as H1.
    { rewrite <- (Qmult_div_r (d * ss) (d * 1440 - 1)) by lra.
      rewrite H0. ring. }
    apply Qmult_integral in H1. destruct H1; lra. }
  exists (variance_q (group_means hour_minute 1440 (periodic profile day0 days))
          / variance_q (map snd (periodic profile day0 days))).
  split.
  - unfold non_parametrics. cbn [IS]. unfold var.
    assert ((length (group_means hour_minute 1440
                       (periodic profile day0 days)) <? 2)%nat = false) as ->.
    { rewrite Hg, length_map, length_seq. reflexivity. }
    assert ((length (map snd (periodic profile day0 days)) <? 2)%nat = false)
      as ->.
    { unfold periodic. rewrite values_days, length_copies, length_seq,
        length_map, length_seq. apply Nat.ltb_ge. lia. }
    unfold quotient. now rewrite (Qeq_bool_nonzero _ Hnz).
  - rewrite Hvg, Hva. field. repeat split; lra.
Qed.

(** The day profile used below: 1 in the first half of the day, 0 in the
    second. *)
Definition half_day (m : nat) : Q := if (m <? 720)%nat then 1 else 0.

(** Four samples: minutes 00:00 and 00:01 of two hours in a row, with values
    0 and 1 in both hours. *)
Definition two_hours : list (Z * Q) :=
  [ (0%Z, 0); (minute, 1); (hour, 0); ((hour + minute)%Z, 1) ].

(** C10 (counterexample). Two identical days of a signal sampled every
    minute give an interdaily stability of 2879/2878, more than 3/10000
    above 1. And the variance of the hour-of-day means is not what the code
    divides: in [two_hours] the two hourly means are equal, the hour-of-day
    formula gives 0, the code gives 1. *)
Lemma IS_of_two_identical_days :
  exists v,
    IS (non_parametrics (periodic half_day 0 2)) = Some v
    /\ v == 2879 # 2878
    /\ 3 # 10000 < Qabs (v - 1)
    /\ option_map (Qeq_bool 0) (IS_by_hour two_hours) = Some true
    /\ option_map (Qeq_bool 1) (IS (non_parametrics two_hours)) = Some true.
Proof.
  destruct (IS_periodic half_day 0 2 0 720) as (v & Hv & Heq);
    try lia; [vm_compute; discriminate|].
  exists v. split; [exact Hv|].
  assert (v == 2879 # 2878) as Hval by (rewrite Heq; reflexivity).
  split; [exact Hval|]. split.
  - rewrite Hval. reflexivity.
  - split; vm_compute; reflexivity.
Qed.

(** C10 (amended). [non_parametrics] divides the variance (with its n - 1
    denominator) of the means of the (hour, minute)-of-day groups by the
    variance of the series for IS, and the mean squared first difference by
    that variance for IV. Consequently a signal sampled every minute that
    repeats the same non-constant day over D whole days has
    IS = (1440 D - 1) / (1439 D): 1 for a single day, above 1 for more. *)
Theorem IS_of_repeating_signal :
  (forall data,
     IS (non_parametrics data) =
       quotient (var (group_means hour_minute 1440 data)) (var (map snd data))
     /\ IV (non_parametrics data) =
       quotient (mean (map (fun d => d * d) (diff_1 (map snd data))))
                (var (map snd data)))
  /\ (forall (profile : nat -> Q) (day0 : Z) (days a b : nat),
        (1 <= days)%nat ->
        (a < 1440)%nat -> (b < 1440)%nat -> ~ profile a == profile b ->
        exists v,
          IS (non_parametrics (periodic profile day0 days)) = Some v
          /\ v == (1440 * inject_Z (Z.of_nat days) - 1)
                  / (1439 * inject_Z (Z.of_nat days))
          /\ (days = 1%nat -> v == 1)
          /\ ((2 <= days)%nat -> 1 < v)).
Proof.
  split; [intros data; split; reflexivity|].
  intros profile day0 days a b Hd Ha Hb Hab.
  destruct (IS_periodic profile day0 days a b Hd Ha Hb Hab) as (v & Hv & Heq).
  exists v. split; [exact Hv|]. split; [exact Heq|]. split.
  - intros ->. rewrite Heq. reflexivity.
  - intros H2. rewrite Heq.
    assert (2 <= inject_Z (Z.of_nat days)) as Hd2.
    { change 2 with (inject_Z 2). rewrite <- Zle_Qle. lia. }
    apply Qlt_shift_div_l; lra.
Qed.

(** The theorem at three days of [half_day]. *)
Lemma IS_of_repeating_signal_witness :
  exists v,
    IS (non_parametrics (periodic half_day 0 3)) = Some v
    /\ v == (1440 * inject_Z (Z.of_nat 3) - 1) / (1439 * inject_Z (Z.of_nat 3))
    /\ (3%nat = 1%nat -> v == 1)
    /\ ((2 <= 3)%nat -> 1 < v).
Proof.
  apply (proj2 IS_of_repeating_signal half_day 0%Z 3%nat 0%nat 720%nat);
    try lia.
  vm_compute. discriminate.
Defined.

End NonParametric.

(** * Further properties of the pipeline

    The sections below cover code around the functions above: their callers,
    the functions they call and their neighbours in the same files. *)

(** ** Lists, sorting and ranges *)

Module Facts.
Import Clock.

(** A sorted list has one sorted arrangement. *)
Lemma sorted_perm_unique (l1 l2 : list Z) :
  StronglySorted Z.le l1 -> StronglySorted Z.le l2 -> Permutation l1 l2 ->
  l1 = l2.
Proof.
  intros H1. revert l2. induction H1 as [|a l1 Hs1 IH Ha]; intros l2 H2 Hp.
  - apply Permutation_nil in Hp. now subst.
  - destruct l2 as [|b l2].
    + apply Permutation_sym, Permutation_nil in Hp. discriminate.
    + inversion H2 as [|? ? Hs2 Hb]; subst.
      rewrite Forall_forall in Ha, Hb.
      assert (a = b) as ->.
      { assert (In a (b :: l2)) as Hina
          by (eapply Permutation_in; [exact Hp|now left]).
        assert (In b (a :: l1)) as Hinb
          by (eapply Permutation_in; [symmetry; exact Hp|now left]).
        destruct Hina as [->|Hina]; [reflexivity|].
        destruct Hinb as [->|Hinb]; [reflexivity|].
        specialize (Ha b Hinb). specialize (Hb a Hina). lia. }
      f_equal. apply IH; [assumption|].
      eapply Permutation_cons_inv. exact Hp.
Qed.

Lemma sort_values_of_perm (l sorted : list Z) :
  StronglySorted Z.le sorted -> Permutation l sorted ->
  Ordering.sort_values l = sorted.
Proof.
  intros Hs Hp. apply sorted_perm_unique; [|assumption|].
  - apply (Ordering.sorted_by_sorted (fun t => t)).
  - rewrite <- Hp. symmetry. apply (Ordering.sorted_by_perm (fun t => t)).
Qed.

Lemma sort_values_sorted (l : list Z) :
  StronglySorted Z.le l -> Ordering.sort_values l = l.
Proof. intros Hs. now apply sort_values_of_perm. Qed.

Lemma lt_sorted_le (l : list Z) :
  StronglySorted Z.lt l -> StronglySorted Z.le l.
Proof.
  induction 1 as [|a l Hs IH Ha]; constructor; [assumption|].
  eapply Forall_impl; [|exact Ha]. simpl. intros; lia.
Qed.

Lemma lt_sorted_NoDup (l : list Z) : StronglySorted Z.lt l -> NoDup l.
Proof.
  induction 1 as [|a l Hs IH Ha]; constructor; [|assumption].
  rewrite Forall_forall in Ha. intros Hin. specialize (Ha a Hin). lia.
Qed.

(** The members of a range: the start plus a whole number of steps, up to
    the stop. *)
Lemma date_range_In (start stop freq t : Z) :
  0 < freq ->
  In t (date_range start stop freq) <->
  exists k, 0 <= k /\ t = start + k * freq /\ t <= stop.
Proof.
  intros Hf. unfold date_range. destruct (Z.ltb_spec stop start) as [Hlt|Hge].
  - split; [contradiction|]. intros (k & Hk & -> & Hle). nia.
  - rewrite in_map_iff. split.
    + intros (n & <- & Hn). apply in_seq in Hn. exists (Z.of_nat n).
      split; [lia|]. split; [reflexivity|].
      assert (Z.of_nat n <= (stop - start) / freq) as Hle.
      { rewrite <- (Z2Nat.id ((stop - start) / freq)); [lia|].
        apply Z.div_pos; lia. }
      pose proof (Z.mul_div_le (stop - start) freq Hf). nia.
    + intros (k & Hk & -> & Hle). exists (Z.to_nat k).
      split; [now rewrite Z2Nat.id|]. apply in_seq.
      assert (k <= (stop - start) / freq) as Hkq
        by (apply Z.div_le_lower_bound; [assumption|nia]).
      lia.
Qed.

Lemma date_range_left_In (start stop freq t : Z) :
  0 < freq ->
  In t (date_range_left start stop freq) <->
  exists k, 0 <= k /\ t = start + k * freq /\ t < stop.
Proof.
  intros Hf. unfold date_range_left. rewrite filter_In, Z.ltb_lt.
  rewrite (date_range_In _ _ _ _ Hf). split.
  - intros [(k & Hk & -> & _) Hlt]. eauto.
  - intros (k & Hk & -> & Hlt). split; [|assumption]. exists k.
    repeat split; [assumption|lia].
Qed.

Lemma date_range_increasing (start stop freq : Z) :
  0 < freq -> StronglySorted Z.lt (date_range start stop freq).
Proof.
  intros Hf. unfold date_range.
  destruct (stop <? start); [constructor|].
  now apply ReadFile.range_increasing.
Qed.

(** The rounded percentage of a share between 0 and 100 stays there. *)
Lemma round2_bounds (q : Q) : (0 <= q)%Q -> (q <= 100)%Q ->
  (0 <= round2 q)%Q /\ (round2 q <= 100)%Q.
Proof.
  intros H0 H100. unfold round2, round_half_even.
  set (y := (q * 100)%Q).
  assert (0 <= y)%Q as Hy0 by (unfold y; nra).
  assert (y <= 10000)%Q as Hy1 by (unfold y; nra).
  pose proof (Qfloor_le y) as Hfl. pose proof (Qlt_floor y) as Hfu.
  assert (0 <= Qfloor y) as Hf0.
  { change 0 with (Qfloor 0). now apply Qfloor_resp_le. }
  assert (Qfloor y <= 10000) as Hf1.
  { change 10000 with (Qfloor 10000). now apply Qfloor_resp_le. }
  assert (forall z : Z, 0 <= z <= 10000 ->
            (0 <= z # 100)%Q /\ (z # 100 <= 100)%Q) as Hz.
  { intros z Hzb. unfold Qle. simpl. lia. }
  assert ((y - inject_Z (Qfloor y) < 1 # 2)%Q \/ Qfloor y + 1 <= 10000) as Hup.
  { destruct (Z.eq_dec (Qfloor y) 10000) as [E|E]; [left|right; lia].
    rewrite E in *. change (inject_Z 10000) with 10000%Q in *. lra. }
  destruct (Qcompare (y - inject_Z (Qfloor y)) (1 # 2)) eqn:E.
  - destruct (Z.even (Qfloor y)); apply Hz; [lia|].
    destruct Hup as [Hlt|Hle]; [|lia].
    apply Qeq_alt in E. lra.
  - apply Hz. lia.
  - apply Hz. destruct Hup as [Hlt|Hle]; [|lia].
    apply Qgt_alt in E. lra.
Qed.

End Facts.

(** ** algorithms/ActivityCounts.py and the two passes of counts_cal_.py *)

Module ActivityCounts.
Import Clock NonWear.
Local Open Scope Q_scope.

(** An activity-count table: a time and a count per row. *)
Definition counts : Type := list (Z * Q).

(** [merge_ACs]: the inner merge on the time column keeps the order of the
    watch rows and pairs each of them with every Actigraph row of the same
    time; [diff] and [average] are then filled in. This is the order of
    pandas for a watch table in which no time occurs twice. *)
Definition merge_ACs (WatchAC ActiAC : counts) : list row :=
  flat_map
    (fun w => map (fun a => merge_row (fst w) (snd a) (snd w))
                  (filter (fun a => (fst a =? fst w)%Z) ActiAC))
    WatchAC.

(** The three percentages and the final table of [clean_ACs]; nothing when
    one of the divisions is by zero. *)
Definition clean_ACs (ActiAC : counts) (data : list row) (sleep : list (Z * Z))
  : option (Q * Q * Q * list row) :=
  match ActiAC with
  | [] => None
  | _ :: _ =>
      let pct_charging :=
        round2 ((inject_Z (Z.of_nat (length ActiAC) - Z.of_nat (length data))
                 / inject_Z (Z.of_nat (length ActiAC))) * 100) in
      match remove_both_non_wearing data sleep with
      | Some (pct_both_no_wear, rm_data) =>
          match remove_single_non_wearing rm_data with
          | Some (pct_single_no_wear, final_data) =>
              Some (pct_charging, pct_both_no_wear, pct_single_no_wear,
                    final_data)
          | None => None
          end
      | None => None
      end
  end.

(** A merged row of two non-negative counts. *)
Definition merged (r : row) : Prop :=
  0 <= Acti r /\ 0 <= Watch r
  /\ diff r == Watch r - Acti r /\ average r == (Watch r + Acti r) / 2.

Lemma merge_ACs_merged (WatchAC ActiAC : counts) :
  Forall (fun w => 0 <= snd w) WatchAC ->
  Forall (fun a => 0 <= snd a) ActiAC ->
  Forall merged (merge_ACs WatchAC ActiAC).
Proof.
  intros Hw Ha. rewrite Forall_forall in *. intros r Hr.
  unfold merge_ACs in Hr. apply in_flat_map in Hr.
  destruct Hr as (w & Hinw & Hr). apply in_map_iff in Hr.
  destruct Hr as (a & <- & Hina). apply filter_In in Hina.
  destruct Hina as [Hina _]. unfold merged, merge_row. simpl.
  repeat split; auto; reflexivity.
Qed.

(** On such a row the first condition fails exactly when one of the two
    counts is zero. *)
Lemma condition_1_merged (r : row) :
  merged r -> (condition_1 r = true <-> 0 < Acti r /\ 0 < Watch r).
Proof.
  intros (Ha & Hw & Hd & Hv). unfold condition_1.
  rewrite andb_true_iff, !Qltb_lt, Hd, Hv.
  assert (2 * ((Watch r + Acti r) / 2) == Watch r + Acti r) as -> by field.
  assert (- 2 * ((Watch r + Acti r) / 2) == - (Watch r + Acti r)) as ->
    by field.
  split; intros [H1 H2]; split; lra.
Qed.

Lemma condition_2_merged (r : row) :
  merged r ->
  (condition_2 r = true <->
   Watch r - Acti r < 500 /\ Acti r - Watch r < 500).
Proof.
  intros (_ & _ & Hd & _). unfold condition_2.
  rewrite Qltb_lt, Qabs_Qlt_condition, Hd. split; intros [H1 H2]; split; lra.
Qed.

Lemma not_true_iff (b : bool) (P : Prop) :
  (b = true <-> P) -> (b = false <-> ~ P).
Proof.
  intros [H1 H2]. destruct b.
  - split; [discriminate|]. intros Hn. exfalso. apply Hn. now apply H1.
  - split; [|reflexivity]. intros _ HP. apply H2 in HP. discriminate.
Qed.

(** X1. On a table of merged rows with non-negative counts, the second
    pass removes a row exactly when one device reads zero and the other at
    least 500. *)
Theorem single_pass_removes_zero_against_500 (data : list row) :
  Forall merged data ->
  match remove_single_non_wearing data with
  | Some (_, rm) =>
      forall r, In r rm <->
        In r data
        /\ ~ ((Acti r == 0 /\ 500 <= Watch r)
              \/ (Watch r == 0 /\ 500 <= Acti r))
  | None => data = []
  end.
Proof.
  intros Hm. destruct data as [|r0 data]; [reflexivity|].
  unfold remove_single_non_wearing. intros r.
  rewrite filter_In. rewrite Forall_forall in Hm.
  split; intros [Hin H]; (split; [exact Hin|]);
    pose proof (Hm r Hin) as Hr;
    pose proof (condition_1_merged r Hr) as H1;
    pose proof (condition_2_merged r Hr) as H2;
    destruct Hr as (Ha & Hw & _ & _).
  - apply orb_true_iff in H. intros [[Hz Hb]|[Hz Hb]];
      destruct H as [H|H]; [apply H1 in H|apply H2 in H|apply H1 in H
                           |apply H2 in H]; lra.
  - apply orb_true_iff.
    destruct (Qlt_le_dec 0 (Acti r)) as [Hpa|Hza];
      destruct (Qlt_le_dec 0 (Watch r)) as [Hpw|Hzw].
    + left. apply H1. split; assumption.
    + right. apply H2.
      destruct (Qlt_le_dec (Acti r) 500) as [Hs|Hl]; [split; lra|].
      exfalso. apply H. right. split; [lra|assumption].
    + right. apply H2.
      destruct (Qlt_le_dec (Watch r) 500) as [Hs|Hl]; [split; lra|].
      exfalso. apply H. left. split; [lra|assumption].
    + right. apply H2. split; lra.
Qed.

(** The theorem at a merge of three minutes: both active, watch silent
    against 800, both silent. *)
Lemma single_pass_removes_zero_against_500_witness :
  match remove_single_non_wearing
          (merge_ACs [(0%Z, 300); (minute, 0); ((2 * minute)%Z, 0)]
                     [(0%Z, 900); (minute, 800); ((2 * minute)%Z, 0)]) with
  | Some (_, rm) =>
      forall r, In r rm <->
        In r (merge_ACs [(0%Z, 300); (minute, 0); ((2 * minute)%Z, 0)]
                        [(0%Z, 900); (minute, 800); ((2 * minute)%Z, 0)])
        /\ ~ ((Acti r == 0 /\ 500 <= Watch r)
              \/ (Watch r == 0 /\ 500 <= Acti r))
  | None =>
      merge_ACs [(0%Z, 300); (minute, 0); ((2 * minute)%Z, 0)]
                [(0%Z, 900); (minute, 800); ((2 * minute)%Z, 0)] = []
  end.
Proof.
  apply (single_pass_removes_zero_against_500
           (merge_ACs [(0%Z, 300); (minute, 0); ((2 * minute)%Z, 0)]
                      [(0%Z, 900); (minute, 800); ((2 * minute)%Z, 0)])).
  apply merge_ACs_merged; repeat constructor; simpl; lra.
Defined.

(** *** What the first pass can return *)

Lemma fold_max_in (l : list Z) : forall a, In (fold_left Z.max l a) (a :: l).
Proof.
  induction l as [|x l IH]; intros a; simpl; [now left|].
  destruct (IH (Z.max a x)) as [H|H]; [|now right; right].
  rewrite <- H. destruct (Z.max_spec a x) as [[_ ->]|[_ ->]]; auto.
Qed.

Lemma time_max_attained (data : list row) (hi : Z) :
  time_max data = Some hi -> exists r, In r data /\ time r = hi.
Proof.
  destruct data as [|r0 data]; [discriminate|]. simpl. intros H.
  injection H as <-.
  pose proof (fold_max_in (map time data) (time r0)) as Hin.
  change (time r0 :: map time data) with (map time (r0 :: data)) in Hin.
  apply in_map_iff in Hin. destruct Hin as (r & Hr & Hin). eauto.
Qed.

Lemma filter_length_le {A : Type} (p : A -> bool) (l : list A) :
  (length (filter p l) <= length l)%nat.
Proof.
  induction l as [|x l IH]; simpl; [lia|]. destruct (p x); simpl; lia.
Qed.

Lemma filter_length_lt {A : Type} (p : A -> bool) (l : list A) (x : A) :
  In x l -> p x = false -> (length (filter p l) < length l)%nat.
Proof.
  induction l as [|y l IH]; intros Hin Hp; [contradiction|]. simpl.
  destruct Hin as [->|Hin].
  - rewrite Hp. pose proof (filter_length_le p l). lia.
  - specialize (IH Hin Hp). destruct (p y); simpl; lia.
Qed.

(** A time lies in one window of the scan at most. *)
Definition in_window (t w : Z) : bool :=
  ((w <=? t) && (t <? w + window_minutes))%Z.

Lemma one_window (lo hi t : Z) :
  (length (filter (in_window t) (window_starts lo hi)) <= 1)%nat.
Proof.
  unfold window_starts.
  assert (forall w1 w2,
            In w1 (date_range lo (hi - window_minutes) window_minutes) ->
            In w2 (date_range lo (hi - window_minutes) window_minutes) ->
            in_window t w1 = true -> in_window t w2 = true -> w1 = w2) as Huniq.
  { intros w1 w2 H1 H2 P1 P2.
    apply Facts.date_range_In in H1; [|reflexivity].
    apply Facts.date_range_In in H2; [|reflexivity].
    destruct H1 as (k1 & _ & -> & _). destruct H2 as (k2 & _ & -> & _).
    unfold in_window in P1, P2. apply andb_true_iff in P1, P2.
    rewrite Z.leb_le, Z.ltb_lt in P1, P2.
    assert (k1 = k2) as -> by (unfold window_minutes, minute, second in *; lia).
    reflexivity. }
  pose proof (Facts.lt_sorted_NoDup _
                (Facts.date_range_increasing lo (hi - window_minutes)
                   window_minutes eq_refl)) as Hnd.
  revert Huniq Hnd.
  generalize (date_range lo (hi - window_minutes) window_minutes) as ws.
  induction ws as [|w ws IH]; intros Huniq Hnd; simpl; [lia|].
  inversion Hnd as [|? ? Hnotin Hnd']; subst.
  destruct (in_window t w) eqn:E.
  - assert (filter (in_window t) ws = []) as ->; [|simpl; lia].
    destruct (filter (in_window t) ws) as [|w' l] eqn:F; [reflexivity|].
    assert (In w' (filter (in_window t) ws)) as Hin by (rewrite F; now left).
    apply filter_In in Hin. destruct Hin as [Hin Hp].
    exfalso. apply Hnotin.
    rewrite (Huniq w w'); auto; [now left|now right].
  - apply IH; [|assumption]. intros w1 w2 H1 H2. apply Huniq; now right.
Qed.

Lemma window_before_latest (lo hi t w : Z) :
  In w (window_starts lo hi) -> in_window t w = true -> (t < hi)%Z.
Proof.
  intros Hw Hp. apply date_range_bound in Hw; [|reflexivity].
  unfold in_window in Hp. apply andb_true_iff in Hp.
  rewrite Z.leb_le, Z.ltb_lt in Hp. lia.
Qed.

Lemma window_of_cons (r : row) (data : list row) (w : Z) :
  window_of (r :: data) w =
  (if in_window (time r) w then [r] else []) ++ window_of data w.
Proof.
  unfold window_of, in_window. simpl.
  now destruct ((w <=? time r)%Z && (time r <? w + window_minutes)%Z).
Qed.

Lemma kept_rows_length (keep : Z -> bool) (ws : list Z) (hi : Z)
  (data : list row) :
  (forall t, length (filter (in_window t) ws) <= 1)%nat ->
  (forall t w, In w ws -> in_window t w = true -> (t < hi)%Z) ->
  (length (flat_map (fun w => if keep w then window_of data w else []) ws)
   <= length (filter (fun r => (time r <? hi)%Z) data))%nat.
Proof.
  intros Hone Hhi. induction data as [|r data IH].
  - simpl. clear Hone Hhi. induction ws as [|w ws IHw]; simpl; [lia|].
    destruct (keep w); simpl; exact IHw.
  - assert (forall ws',
              (length (flat_map (fun w => if keep w
                                          then window_of (r :: data) w
                                          else []) ws')
               <= length (filter (in_window (time r)) ws')
                  + length (flat_map (fun w => if keep w
                                               then window_of data w
                                               else []) ws'))%nat) as Hsplit.
    { induction ws' as [|w ws' IHw]; [simpl; lia|].
      cbn [flat_map filter]. rewrite !length_app.
      destruct (keep w).
      - rewrite window_of_cons, length_app.
        destruct (in_window (time r) w); cbn [length]; lia.
      - destruct (in_window (time r) w); cbn [length]; lia. }
    specialize (Hsplit ws). specialize (Hone (time r)).
    cbn [filter]. destruct (Z.ltb_spec (time r) hi) as [Hlt|Hge].
    + cbn [length]. lia.
    + assert (filter (in_window (time r)) ws = []) as Hnone.
      { destruct (filter (in_window (time r)) ws) as [|w l] eqn:F;
          [reflexivity|].
        assert (In w (filter (in_window (time r)) ws)) as Hin
          by (rewrite F; now left).
        apply filter_In in Hin. destruct Hin as [Hin Hp].
        specialize (Hhi (time r) w Hin Hp). lia. }
      rewrite Hnone in Hsplit. cbn [length] in Hsplit. lia.
Qed.

(** X2. The first pass returns rows of the table, none twice and never
    the latest one: the output is strictly shorter than the table, its
    percentage lies between 0 and 100, and a table that spans less than 15
    minutes comes back empty. *)
Theorem first_pass_output (data : list row) (sleep : list (Z * Z))
  (pct : Q) (rm : list row) (lo hi : Z) :
  remove_both_non_wearing data sleep = Some (pct, rm) ->
  time_min data = Some lo -> time_max data = Some hi ->
  (forall r, In r rm -> In r data /\ (time r < hi)%Z)
  /\ (length rm < length data)%nat
  /\ 0 <= pct /\ pct <= 100
  /\ ((hi - lo < window_minutes)%Z -> rm = []).
Proof.
  intros Hrun Hlo Hhi. unfold remove_both_non_wearing in Hrun.
  rewrite Hlo, Hhi in Hrun. cbv zeta in Hrun. injection Hrun as <- <-.
  destruct (scan_windows_spec data sleep lo hi) as [Hrm _].
  assert (rm_data (scan_windows data sleep lo hi) =
          flat_map (fun w => if negb (both_non_wearing data sleep w)
                             then window_of data w else [])
                   (window_starts lo hi)) as Hrm'.
  { rewrite Hrm. apply flat_map_ext. intros w.
    now destruct (both_non_wearing data sleep w). }
  assert (length (rm_data (scan_windows data sleep lo hi)) < length data)%nat
    as Hlen.
  { rewrite Hrm'.
    destruct (time_max_attained data hi Hhi) as (r & Hin & Hr).
    eapply Nat.le_lt_trans.
    - apply (kept_rows_length _ _ hi).
      + intros t. apply one_window.
      + intros t w. apply window_before_latest.
    - apply (filter_length_lt _ data r Hin). apply Z.ltb_ge. lia. }
  split; [|split; [exact Hlen|]].
  - intros r Hr. split; [|eapply rm_data_before_latest; exact Hr].
    rewrite Hrm in Hr. apply in_flat_map in Hr. destruct Hr as (w & _ & Hr).
    destruct (both_non_wearing data sleep w); [contradiction|].
    unfold window_of in Hr. now apply filter_In in Hr.
  - assert (0 <= pct_removed data (rm_data (scan_windows data sleep lo hi))
            /\ pct_removed data (rm_data (scan_windows data sleep lo hi))
               <= 100) as [Hp0 Hp1].
    { unfold pct_removed. apply Facts.round2_bounds.
      - set (n := length data) in *.
        set (m := length (rm_data (scan_windows data sleep lo hi))) in *.
        assert (0 < inject_Z (Z.of_nat n)) as Hn.
        { change 0 with (inject_Z 0). rewrite <- Zlt_Qlt. lia. }
        assert (0 <= inject_Z (Z.of_nat n - Z.of_nat m)) as Hd.
        { change 0 with (inject_Z 0). rewrite <- Zle_Qle. lia. }
        apply Qmult_le_0_compat; [|lra].
        apply Qle_shift_div_l; [assumption|lra].
      - set (n := length data) in *.
        set (m := length (rm_data (scan_windows data sleep lo hi))) in *.
        assert (0 < inject_Z (Z.of_nat n)) as Hn.
        { change 0 with (inject_Z 0). rewrite <- Zlt_Qlt. lia. }
        assert (inject_Z (Z.of_nat n - Z.of_nat m) <= inject_Z (Z.of_nat n))
          as Hd by (rewrite <- Zle_Qle; lia).
        assert (inject_Z (Z.of_nat n - Z.of_nat m) / inject_Z (Z.of_nat n)
                <= 1) as H1
          by (apply Qle_shift_div_r; [assumption|lra]).
        lra. }
    repeat split; try assumption.
    intros Hspan. rewrite Hrm. unfold window_starts, date_range.
    assert ((hi - window_minutes <? lo)%Z = true) as ->
      by (apply Z.ltb_lt; lia).
    reflexivity.
Qed.

Lemma first_pass_output_witness :
  (forall r, In r [ merge_row 0 12 10; merge_row (10 * minute) 9 7 ] ->
     In r short_table /\ (time r < 20 * minute)%Z)
  /\ (length [ merge_row 0 12 10; merge_row (10 * minute) 9 7 ]
      < length short_table)%nat
  /\ 0 <= 3333 # 100 /\ 3333 # 100 <= 100
  /\ ((20 * minute - 0 < window_minutes)%Z ->
      [ merge_row 0 12 10; merge_row (10 * minute) 9 7 ] = []).
Proof.
  apply (first_pass_output short_table [] (3333 # 100)
           [ merge_row 0 12 10; merge_row (10 * minute) 9 7 ] 0
           (20 * minute)); reflexivity.
Defined.

End ActivityCounts.

(** ** More on time_preprocessing/01_Watch_charging.py *)

Module ChargingFacts.
Import Clock Charging.

(** X3. For a battery table whose states are all among the tested codes,
    [charging_timev1] returns as many wear starts as wear ends, at least
    one of each; the first wear start is the start of the study and the
    last wear end its end. On a table without a row they are the only
    ones. *)
Theorem charging_timev1_pairs (df : list battery_row) (start_time end_time : Z) :
  Forall valid_state df ->
  exists start_times end_times,
    charging_timev1 df start_time end_time = Some (df, start_times, end_times)
    /\ length start_times = length end_times
    /\ (1 <= length start_times)%nat
    /\ hd 0 start_times = start_time
    /\ last end_times 0 = end_time
    /\ (df = [] -> start_times = [start_time] /\ end_times = [end_time]).
Proof.
  intros Hv. destruct (counts_differ_by_one df Hv) as [H1 H2].
  destruct df as [|r df].
  { exists [start_time], [end_time]. repeat split. simpl. lia. }
  unfold charging_timev1, find_charging_time, reconcile.
  set (S := charge_starttime (r :: df)) in *.
  set (E := charge_endtime (r :: df)) in *.
  assert (forall starts ends : list Z,
            length starts = length ends ->
            exists start_times end_times,
              (if (length ends <? length starts)%nat then None
               else Some (r :: df, start_time :: ends, starts ++ [end_time]))
              = Some (r :: df, start_times, end_times)
              /\ length start_times = length end_times
              /\ (1 <= length start_times)%nat
              /\ hd 0 start_times = start_time
              /\ last end_times 0 = end_time
              /\ (r :: df = [] ->
                  start_times = [start_time] /\ end_times = [end_time]))
    as Hgo.
  { intros starts ends Hlen.
    assert ((length ends <? length starts)%nat = false) as ->
      by (apply Nat.ltb_ge; lia).
    exists (start_time :: ends), (starts ++ [end_time]).
    repeat split; simpl; try lia; try discriminate.
    - rewrite length_app. simpl. lia.
    - apply last_last. }
  destruct (Nat.ltb_spec (length S) (length E)) as [Hlt|Hge].
  - destruct (Hgo S (tl E)) as (st & en & Heq & Hrest);
      [rewrite length_tl; lia|].
    exists st, en. split; [|exact Hrest].
    destruct (length (tl E) <? length S)%nat; [discriminate|].
    injection Heq as <- <-. reflexivity.
  - destruct (Nat.ltb_spec (length E) (length S)) as [Hgt|Hle].
    + destruct (Hgo (removelast S) E) as (st & en & Heq & Hrest);
        [rewrite length_removelast; lia|].
      exists st, en. split; [|exact Hrest].
      destruct (length E <? length (removelast S))%nat; [discriminate|].
      injection Heq as <- <-. reflexivity.
    + destruct (Hgo S E) as (st & en & Heq & Hrest); [lia|].
      exists st, en. split; [|exact Hrest].
      destruct (length E <? length S)%nat; [discriminate|].
      injection Heq as <- <-. reflexivity.
Qed.

(** The theorem at [two_ends_series]. *)
Lemma charging_timev1_pairs_witness :
  exists start_times end_times,
    charging_timev1 two_ends_series 0 hour
      = Some (two_ends_series, start_times, end_times)
    /\ length start_times = length end_times
    /\ (1 <= length start_times)%nat
    /\ hd 0 start_times = 0
    /\ last end_times 0 = hour
    /\ (two_ends_series = [] -> start_times = [0] /\ end_times = [hour]).
Proof.
  apply (charging_timev1_pairs two_ends_series 0 hour).
  repeat constructor; vm_compute; discriminate.
Defined.

(** *** The scans of [charging_timev2] *)

(** A scan records at most one timestamp per match, and a match uses up a
    whole window. *)
Lemma scan_count (test : list battery_row -> bool)
  (stamp : list battery_row -> list Z) (df : list battery_row) :
  (forall w, length (stamp w) <= 1)%nat ->
  forall fuel i,
    (window_size * length (scan test stamp df fuel i) <= length df - i)%nat.
Proof.
  intros Hst. induction fuel as [|fuel IH]; intros i; [simpl; lia|].
  rewrite scan_step_eq.
  destruct (Z.ltb_spec (Z.of_nat i)
              (Z.of_nat (length df) - Z.of_nat window_size)) as [Hlt|Hge];
    [|simpl; lia].
  destruct (test (iloc df i window_size)).
  - rewrite length_app. specialize (IH (i + window_size)%nat).
    specialize (Hst (iloc df i window_size)).
    unfold window_size in *. lia.
  - specialize (IH (i + 1)%nat). unfold window_size in *. lia.
Qed.

Lemma first_time_length (w : list battery_row) : (length (first_time w) <= 1)%nat.
Proof.
  unfold first_time. rewrite length_map, length_firstn. lia.
Qed.

Lemma last_time_length (w : list battery_row) : (length (last_time w) <= 1)%nat.
Proof.
  unfold last_time. rewrite length_map, length_skipn. lia.
Qed.

(** A table too short for a scan. *)
Lemma scan_short (test : list battery_row -> bool)
  (stamp : list battery_row -> list Z) (df : list battery_row) (fuel : nat) :
  (length df <= window_size)%nat -> scan test stamp df fuel 0 = [].
Proof.
  intros Hlen. destruct fuel as [|fuel]; [reflexivity|].
  rewrite scan_step_eq.
  destruct (Z.ltb_spec (Z.of_nat 0)
              (Z.of_nat (length df) - Z.of_nat window_size)); [lia|reflexivity].
Qed.

Lemma in_skipn {A : Type} (l : list A) (n : nat) (x : A) :
  In x (skipn n l) -> In x l.
Proof.
  intros H. rewrite <- (firstn_skipn n l). apply in_or_app. now right.
Qed.

Lemma in_firstn {A : Type} (l : list A) (n : nat) (x : A) :
  In x (firstn n l) -> In x l.
Proof.
  intros H. rewrite <- (firstn_skipn n l). apply in_or_app. now left.
Qed.

(** What the first loop records comes from the rows at or after the scan
    index. *)
Lemma scan_first_in (test : list battery_row -> bool) (df : list battery_row) :
  forall fuel i t,
    In t (scan test first_time df fuel i) ->
    In t (map (fun r => time r - buffer_minute * minute) (skipn i df)).
Proof.
  induction fuel as [|fuel IH]; intros i t Hin; [contradiction|].
  rewrite scan_step_eq in Hin.
  destruct (Z.of_nat i <? Z.of_nat (length df) - Z.of_nat window_size);
    [|contradiction].
  assert (forall n, In t (map (fun r => time r - buffer_minute * minute)
                            (skipn (i + n) df)) ->
                    In t (map (fun r => time r - buffer_minute * minute)
                            (skipn i df))) as Hlater.
  { intros n Hn. apply in_map_iff in Hn. destruct Hn as (r & <- & Hr).
    apply in_map_iff. exists r. split; [reflexivity|].
    rewrite Nat.add_comm, <- skipn_skipn in Hr.
    eapply in_skipn; exact Hr. }
  destruct (test (iloc df i window_size)).
  - apply in_app_iff in Hin. destruct Hin as [Hin|Hin].
    + unfold first_time, iloc in Hin. apply in_map_iff in Hin.
      destruct Hin as (r & <- & Hr). apply in_map_iff. exists r.
      split; [reflexivity|].
      apply in_firstn in Hr. apply in_firstn in Hr. exact Hr.
    + apply (Hlater window_size). now apply IH.
  - apply (Hlater 1%nat). now apply IH.
Qed.

Lemma skipn_sorted (l : list Z) (n : nat) :
  StronglySorted Z.le l -> StronglySorted Z.le (skipn n l).
Proof.
  revert l. induction n as [|n IH]; intros l Hs; [assumption|].
  destruct l as [|x l]; [constructor|]. simpl. apply IH.
  now inversion Hs.
Qed.

Lemma scan_first_sorted (test : list battery_row -> bool)
  (df : list battery_row) :
  StronglySorted Z.le (map time df) ->
  forall fuel i, StronglySorted Z.le (scan test first_time df fuel i).
Proof.
  intros Hs. induction fuel as [|fuel IH]; intros i; [constructor|].
  rewrite scan_step_eq.
  destruct (Z.of_nat i <? Z.of_nat (length df) - Z.of_nat window_size);
    [|constructor].
  destruct (test (iloc df i window_size)); [|apply IH].
  unfold first_time at 1. unfold iloc. rewrite firstn_firstn.
  change (Init.Nat.min 1 window_size) with 1%nat.
  destruct (skipn i df) as [|r rest] eqn:E; [apply IH|].
  simpl firstn. simpl map. simpl app. constructor; [apply IH|].
  apply Forall_forall. intros t Ht. apply scan_first_in in Ht.
  rewrite Nat.add_comm, <- skipn_skipn, E in Ht.
  apply in_map_iff in Ht. destruct Ht as (r' & <- & Hr').
  assert (In r' rest) as Hin by (eapply (in_skipn rest 39); exact Hr').
  pose proof (skipn_sorted (map time df) i Hs) as Hsk.
  rewrite skipn_map, E in Hsk. simpl in Hsk.
  inversion Hsk as [|? ? _ Hall]; subst. rewrite Forall_forall in Hall.
  specialize (Hall (time r') (in_map time _ _ Hin)).
  unfold buffer_minute, minute, second. lia.
Qed.

(** X4. [charging_timev2] begins its starts with the start of the study
    and ends its ends with the end of the study; each loop detects at most
    one event per 40 rows of the table, so a table of at most 40 rows gives
    the whole study as one interval; and in a table in time order the charge
    starts detected are in time order. *)
Theorem charging_timev2_shape (df : list battery_row) (start_time end_time : Z) :
  exists starts ends,
    charging_timev2 df start_time end_time
      = (start_time :: starts, ends ++ [end_time])
    /\ (window_size * length starts <= length df)%nat
    /\ (window_size * length ends <= length df)%nat
    /\ ((length df <= window_size)%nat -> starts = [] /\ ends = [])
    /\ (StronglySorted Z.le (map time df) -> StronglySorted Z.le ends).
Proof.
  unfold charging_timev2. eexists. eexists. split; [reflexivity|].
  split; [|split; [|split]].
  - pose proof (scan_count
                  (fun w => charge_end_test_level w || charge_end_test_state w)
                  last_time df last_time_length (length df) 0). lia.
  - pose proof (scan_count charge_start_test first_time df first_time_length
                  (length df) 0). lia.
  - intros Hlen. split; now apply scan_short.
  - intros Hs. now apply scan_first_sorted.
Qed.

End ChargingFacts.

(** ** More on time_preprocessing/02_Watch_times.py *)

Module WatchTimesFacts.
Import Clock WatchTimes.

(** *** The missing files *)

Lemma dedup_In (l : list Z) (x : Z) : In x (dedup l) <-> In x l.
Proof.
  induction l as [|y l IH]; simpl; [tauto|].
  destruct (existsb (Z.eqb y) l) eqn:E.
  - rewrite IH. split; [auto|]. intros [<-|H]; [|assumption].
    apply existsb_exists in E. destruct E as (z & Hz & Heq).
    apply Z.eqb_eq in Heq. now subst.
  - simpl. now rewrite IH.
Qed.

Lemma dedup_NoDup (l : list Z) : NoDup (dedup l).
Proof.
  induction l as [|y l IH]; simpl; [constructor|].
  destruct (existsb (Z.eqb y) l) eqn:E; [assumption|].
  constructor; [|assumption]. rewrite dedup_In. intros Hin.
  assert (existsb (Z.eqb y) l = true) as Hex.
  { apply existsb_exists. exists y. split; [assumption|apply Z.eqb_refl]. }
  congruence.
Qed.

Lemma sort_values_In (l : list Z) (x : Z) :
  In x (Ordering.sort_values l) <-> In x l.
Proof.
  pose proof (Ordering.sorted_by_perm (fun t => t) l) as Hp. split; intros H.
  - eapply Permutation_in; [symmetry; exact Hp|exact H].
  - eapply Permutation_in; [exact Hp|exact H].
Qed.

Lemma existsb_eqb_In (x : Z) (l : list Z) :
  existsb (Z.eqb x) l = true <-> In x l.
Proof.
  rewrite existsb_exists. split.
  - intros (y & Hy & Heq). apply Z.eqb_eq in Heq. now subst.
  - intros H. exists x. split; [assumption|apply Z.eqb_refl].
Qed.

Lemma files_miss_In (start_time end_time : Z) (files : list Z) (f : Z) :
  In f (files_miss start_time end_time files) <->
  In f (expected_files start_time end_time) /\ ~ In f files.
Proof.
  unfold files_miss.
  rewrite sort_values_In, dedup_In, filter_In, negb_true_iff.
  rewrite <- (existsb_eqb_In f files).
  destruct (existsb (Z.eqb f) files); split; intros [H1 H2];
    (split; [assumption|]); congruence.
Qed.

Lemma files_miss_sorted (start_time end_time : Z) (files : list Z) :
  StronglySorted Z.lt (files_miss start_time end_time files).
Proof.
  unfold files_miss. apply ReadFile.sorted_NoDup_strict.
  - apply (Ordering.sorted_by_sorted (fun t => t)).
  - eapply Permutation_NoDup;
      [apply (Ordering.sorted_by_perm (fun t => t))|apply dedup_NoDup].
Qed.

Lemma files_miss_hours (start_time end_time : Z) (files : list Z) :
  Forall (fun f => f mod hour = 0) (files_miss start_time end_time files).
Proof.
  apply Forall_forall. intros f Hf. apply files_miss_In in Hf.
  destruct Hf as [Hf _]. unfold expected_files in Hf. apply in_map_iff in Hf.
  destruct Hf as (t & <- & _). unfold file_name, floor_to.
  apply Z.mod_mul. discriminate.
Qed.

(** X5. [files_miss] returns the expected hourly files that the folder
    lacks, each once and in time order; every name is a whole hour. *)
Theorem files_miss_spec (start_time end_time : Z) (files : list Z) :
  (forall f, In f (files_miss start_time end_time files) <->
             In f (expected_files start_time end_time) /\ ~ In f files)
  /\ StronglySorted Z.lt (files_miss start_time end_time files)
  /\ Forall (fun f => f mod hour = 0) (files_miss start_time end_time files).
Proof.
  split; [|split].
  - intros f. apply files_miss_In.
  - apply files_miss_sorted.
  - apply files_miss_hours.
Qed.

(** *** Runs of whole hours in time order *)

(** In a run of whole hours in time order, each hour is the one before
    plus one hour, so the interval of the run holds the hours of the run and
    no other whole hour. *)
Lemma run_hours (l : list Z) :
  forall x,
    close_chain x l -> StronglySorted Z.lt (x :: l) ->
    Forall (fun f => f mod hour = 0) (x :: l) ->
    forall h, h mod hour = 0 ->
      (x <= h < last (x :: l) 0 + hour <-> In h (x :: l)).
Proof.
  induction l as [|y l IH]; intros x Hc Hs Ha h Hh.
  - simpl. inversion Ha as [|? ? Hx _]; subst.
    unfold hour, minute, second in *. split; [|intros [->|[]]; lia].
    intros Hb. left. apply Z.mod_divide in Hx, Hh; try discriminate.
    destruct Hx as [a ->]. destruct Hh as [b ->]. lia.
  - destruct Hc as [Hgap Hc].
    inversion Hs as [|? ? Hs' Hlt]; subst.
    inversion Ha as [|? ? Hx Ha']; subst.
    inversion Hlt as [|? ? Hxy _]; subst.
    inversion Ha' as [|? ? Hy _]; subst.
    assert (y = x + hour) as Hstep.
    { unfold hour, minute, second in *.
      apply Z.mod_divide in Hx, Hy; try discriminate.
      destruct Hx as [a ->]. destruct Hy as [b ->]. lia. }
    specialize (IH y Hc Hs' Ha' h Hh).
    change (last (x :: y :: l) 0) with (last (y :: l) 0).
    assert (y <= last (y :: l) 0) as Hlast.
    { assert (In (last (y :: l) 0) (y :: l)) as Hin by apply Charging.last_in.
      destruct Hin as [<-|Hin]; [lia|].
      inversion Hs' as [|? ? _ Hall]; subst. rewrite Forall_forall in Hall.
      specialize (Hall _ Hin). lia. }
    split.
    + intros Hb. destruct (Z.eq_dec h x) as [->|Hne]; [now left|].
      right. apply IH.
      assert (x + hour <= h); [|lia].
      unfold hour, minute, second in *.
      apply Z.mod_divide in Hx, Hh; try discriminate.
      destruct Hx as [a ->]. destruct Hh as [b ->]. lia.
    + intros [->|Hin]; [unfold hour, minute, second in *; lia|].
      apply IH in Hin. lia.
Qed.

Lemma sorted_app_l (l1 l2 : list Z) :
  StronglySorted Z.lt (l1 ++ l2) -> StronglySorted Z.lt l1.
Proof.
  induction l1 as [|x l1 IH]; intros H; [constructor|].
  simpl in H. inversion H as [|? ? Hs Hall]; subst.
  constructor; [now apply IH|].
  apply Forall_app in Hall. tauto.
Qed.

Lemma sorted_app_r (l1 l2 : list Z) :
  StronglySorted Z.lt (l1 ++ l2) -> StronglySorted Z.lt l2.
Proof.
  induction l1 as [|x l1 IH]; intros H; [assumption|].
  simpl in H. inversion H. now apply IH.
Qed.

(** The intervals of the runs of a list of whole hours in time order:
    each has its start before its end, ends before the next one starts, and
    together they hold exactly the hours of the list. *)
Lemma runs_intervals (rs : list (list Z)) :
  Forall is_run rs -> runs_apart rs ->
  StronglySorted Z.lt (concat rs) ->
  Forall (fun f => f mod hour = 0) (concat rs) ->
  Forall (fun p => fst p < snd p) (map interval_of rs)
  /\ (forall h, h mod hour = 0 ->
        ((exists p, In p (map interval_of rs) /\ fst p <= h < snd p)
         <-> In h (concat rs))).
Proof.
  induction rs as [|r rs IH]; intros Hr Hap Hs Ha.
  - split; [constructor|]. intros h _. simpl. split; [|tauto].
    intros (p & [] & _).
  - inversion Hr as [|? ? Hr1 Hr']; subst.
    simpl concat in Hs, Ha.
    pose proof (sorted_app_l _ _ Hs) as Hs1.
    pose proof (sorted_app_r _ _ Hs) as Hs2.
    apply Forall_app in Ha. destruct Ha as [Ha1 Ha2].
    assert (runs_apart rs) as Hap'.
    { destruct rs as [|r2 rs]; [exact I|]. destruct Hap as [_ Hap].
      exact Hap. }
    destruct (IH Hr' Hap' Hs2 Ha2) as [IH1 IH2].
    destruct r as [|x l]; [contradiction|]. simpl in Hr1.
    pose proof (run_hours l x Hr1 Hs1 Ha1) as Hrun.
    assert (x <= last (x :: l) 0) as Hlast.
    { assert (In (last (x :: l) 0) (x :: l)) as Hin by apply Charging.last_in.
      destruct Hin as [<-|Hin]; [lia|].
      inversion Hs1 as [|? ? _ Hall]; subst. rewrite Forall_forall in Hall.
      specialize (Hall _ Hin). lia. }
    split.
    + constructor; [|exact IH1]. unfold interval_of. cbn [fst snd hd].
      unfold hour, minute, second. lia.
    + intros h Hh. cbn [map concat]. rewrite in_app_iff.
      rewrite <- (IH2 h Hh), <- (Hrun h Hh). split.
      * intros (p & [<-|Hp] & Hb); [left; exact Hb|right; eauto].
      * intros [Hb|(p & Hp & Hb)].
        -- exists (interval_of (x :: l)). split; [now left|exact Hb].
        -- exists p. split; [now right|exact Hb].
Qed.

(** X6. The no-file intervals that [files_to_time] builds from the list of
    [files_miss] have their start before their end, and an expected hourly
    file lies in one of them exactly when the folder lacks it. *)
Theorem nofile_intervals_cover_missing (start_time end_time : Z)
  (files : list Z) :
  let missing_files := files_miss start_time end_time files in
  let nofile := combine (fst (files_to_time missing_files))
                        (snd (files_to_time missing_files)) in
  length (fst (files_to_time missing_files))
    = length (snd (files_to_time missing_files))
  /\ Forall (fun p => fst p < snd p) nofile
  /\ (forall f, In f (expected_files start_time end_time) ->
        ((exists p, In p nofile /\ fst p <= f < snd p) <-> ~ In f files)).
Proof.
  intros missing_files nofile.
  pose proof (files_miss_In start_time end_time files) as Hin.
  pose proof (files_miss_sorted start_time end_time files) as Hs.
  pose proof (files_miss_hours start_time end_time files) as Ha.
  fold missing_files in Hin, Hs, Ha.
  destruct (runs_spec missing_files) as (Hc & Hr & Hap).
  assert (nofile = map interval_of (runs missing_files)) as Hno.
  { unfold nofile. rewrite files_to_time_runs. simpl fst. simpl snd.
    unfold merged_intervals.
    generalize (map interval_of (runs missing_files)) as ps.
    induction ps as [|p ps IHp]; simpl; [reflexivity|].
    rewrite IHp. now destruct p. }
  rewrite <- Hc in Hs, Ha.
  destruct (runs_intervals (runs missing_files) Hr Hap Hs Ha) as [H1 H2].
  split; [|split].
  - rewrite files_to_time_runs. simpl. now rewrite !length_map.
  - rewrite Hno. exact H1.
  - intros f Hf. rewrite Hno.
    assert (f mod hour = 0) as Hfh.
    { unfold expected_files in Hf. apply in_map_iff in Hf.
      destruct Hf as (t & <- & _). unfold file_name, floor_to.
      apply Z.mod_mul. discriminate. }
    rewrite (H2 f Hfh), Hc, Hin. tauto.
Qed.

(** *** The combined table *)

(** The boundaries of a list of intervals, in order: start, end, start,
    end, ... *)
Definition boundaries (ps : list (Z * Z)) : list Z :=
  flat_map (fun p => [fst p; snd p]) ps.

Lemma boundaries_sorted (ps : list (Z * Z)) :
  StronglySorted Z.lt (boundaries ps) ->
  StronglySorted Z.le (map fst ps) /\ StronglySorted Z.le (map snd ps)
  /\ Forall (fun p => fst p < snd p) ps.
Proof.
  induction ps as [|p ps IH]; intros Hs.
  - repeat split; constructor.
  - simpl in Hs. inversion Hs as [|? ? Hs1 Hall1]; subst.
    inversion Hs1 as [|? ? Hs2 Hall2]; subst.
    destruct (IH Hs2) as (Hf & Hsn & Hlt).
    inversion Hall1 as [|? ? Hps Hall1']; subst.
    rewrite Forall_forall in Hall1', Hall2.
    assert (forall q, In q ps -> fst p < fst q /\ snd p < snd q) as Hq.
    { intros q Hin. split.
      - apply Hall1'. unfold boundaries. apply in_flat_map. exists q.
        split; [assumption|now left].
      - apply Hall2. unfold boundaries. apply in_flat_map. exists q.
        split; [assumption|now right; left]. }
    repeat split.
    + simpl. constructor; [assumption|]. apply Forall_forall.
      intros t Ht. apply in_map_iff in Ht. destruct Ht as (q & <- & Hin).
      destruct (Hq q Hin). lia.
    + simpl. constructor; [assumption|]. apply Forall_forall.
      intros t Ht. apply in_map_iff in Ht. destruct Ht as (q & <- & Hin).
      destruct (Hq q Hin). lia.
    + constructor; assumption.
Qed.

Lemma combine_fst_snd (ps : list (Z * Z)) :
  combine (map fst ps) (map snd ps) = ps.
Proof.
  induction ps as [|[a b] ps IH]; simpl; [reflexivity|]. now rewrite IH.
Qed.

(** X7. When the wear starts and the ends of the no-file intervals are the
    starts, and the wear ends and the starts of the no-file intervals the
    ends, of intervals that follow one another in time, the combined table
    is the table of these intervals: each wear period comes out cut at the
    hours without a file. *)
Theorem combine_battery_nofile_alternating
  (start_times end_times nofile_starts nofile_ends : list Z)
  (wear : list (Z * Z)) :
  StronglySorted Z.lt (boundaries wear) ->
  Permutation (start_times ++ nofile_ends) (map fst wear) ->
  Permutation (end_times ++ nofile_starts) (map snd wear) ->
  combine_battery_nofile start_times end_times nofile_starts nofile_ends
  = Some (map (fun p => mk_wear (Some (fst p)) (snd p)) wear).
Proof.
  intros Hs Hp1 Hp2. destruct (boundaries_sorted wear Hs) as (Hf & Hsn & Hlt).
  unfold combine_battery_nofile.
  rewrite (Facts.sort_values_of_perm _ _ Hf Hp1).
  rewrite (Facts.sort_values_of_perm _ _ Hsn Hp2).
  rewrite !length_map, Nat.ltb_irrefl.
  rewrite <- (length_map snd wear) at 1. rewrite skipn_all, app_nil_r.
  rewrite combine_fst_snd, kept_pairs. f_equal. f_equal.
  clear -Hlt. induction Hlt as [|p ps Hp _ IH]; [reflexivity|].
  simpl. apply Z.ltb_lt in Hp. rewrite Hp. now rewrite IH.
Qed.

(** A wear period of ten hours with no file for its third hour. *)
Lemma combine_battery_nofile_alternating_witness :
  combine_battery_nofile [0] [10 * hour] [2 * hour] [3 * hour]
  = Some (map (fun p => mk_wear (Some (fst p)) (snd p))
              [(0, 2 * hour); (3 * hour, 10 * hour)]).
Proof.
  apply (combine_battery_nofile_alternating [0] [10 * hour] [2 * hour]
           [3 * hour] [(0, 2 * hour); (3 * hour, 10 * hour)]).
  - repeat constructor; reflexivity.
  - reflexivity.
  - apply perm_swap.
Defined.

(** X8. With more starts than ends in all, [combine_battery_nofile]
    raises; with more ends than starts it returns a table whose last rows
    have an end and no start. *)
Theorem combine_battery_nofile_unpaired
  (start_times end_times nofile_starts nofile_ends : list Z) :
  ((length end_times + length nofile_starts
    < length start_times + length nofile_ends)%nat ->
   combine_battery_nofile start_times end_times nofile_starts nofile_ends
   = None)
  /\ ((length start_times + length nofile_ends
       < length end_times + length nofile_starts)%nat ->
      exists rows e,
        combine_battery_nofile start_times end_times nofile_starts nofile_ends
        = Some (rows ++ [mk_wear None e])
        /\ In e (end_times ++ nofile_starts)).
Proof.
  unfold combine_battery_nofile.
  set (S := Ordering.sort_values (start_times ++ nofile_ends)).
  set (E := Ordering.sort_values (end_times ++ nofile_starts)).
  assert (length S = (length start_times + length nofile_ends)%nat) as HS.
  { unfold S, Ordering.sort_values.
    now rewrite Ordering.sorted_by_length, length_app. }
  assert (length E = (length end_times + length nofile_starts)%nat) as HE.
  { unfold E, Ordering.sort_values.
    now rewrite Ordering.sorted_by_length, length_app. }
  split; intros Hlen.
  - assert ((length E <? length S)%nat = true) as ->
      by (apply Nat.ltb_lt; lia).
    reflexivity.
  - assert ((length E <? length S)%nat = false) as ->
      by (apply Nat.ltb_ge; lia).
    assert (skipn (length S) E <> []) as Hne.
    { intros Hnil. pose proof (length_skipn (length S) E) as Hl.
      rewrite Hnil in Hl. simpl in Hl. lia. }
    destruct (exists_last Hne) as (tl & e & Htl).
    exists (flat_map (fun p => if fst p <? snd p
                               then [mk_wear (Some (fst p)) (snd p)] else [])
                     (combine S E)
            ++ map (fun e => mk_wear None e) tl), e.
    split.
    + rewrite Htl, map_app, app_assoc. reflexivity.
    + apply sort_values_In. fold E.
      apply (ChargingFacts.in_skipn E (length S)). rewrite Htl.
      apply in_or_app. right. now left.
Qed.

End WatchTimesFacts.

(** ** More on utils/read_file.py *)

Module ReadFileFacts.
Import Clock ReadFile.

(** *** The grid of [acc_watch_csv] *)

Lemma floor_to_spec (freq t : Z) :
  0 < freq ->
  floor_to freq t mod freq = 0
  /\ floor_to freq t <= t < floor_to freq t + freq.
Proof.
  intros Hf. unfold floor_to. split; [apply Z.mod_mul; lia|].
  pose proof (Z.mul_div_le t freq Hf).
  pose proof (Z.mul_succ_div_gt t freq Hf). lia.
Qed.

Lemma ceil_to_spec (freq t : Z) :
  0 < freq ->
  ceil_to freq t mod freq = 0
  /\ t <= ceil_to freq t < t + freq.
Proof.
  intros Hf. unfold ceil_to. split; [apply Z.mod_mul; lia|].
  pose proof (Z.mul_div_le (- t) freq Hf).
  pose proof (Z.mul_succ_div_gt (- t) freq Hf). lia.
Qed.

Lemma aligned_le_floor (freq a t : Z) :
  0 < freq -> a mod freq = 0 -> a <= t -> a <= floor_to freq t.
Proof.
  intros Hf Ha Hle. destruct (floor_to_spec freq t Hf) as [Hm Hb].
  apply Z.mod_divide in Ha, Hm; try lia.
  destruct Ha as [x ->]. destruct Hm as [y Hy]. rewrite Hy in *.
  assert (x < y + 1) by (apply (Z.mul_lt_mono_pos_r freq); lia).
  apply Z.mul_le_mono_nonneg_r; lia.
Qed.

Lemma ceil_le_aligned (freq a t : Z) :
  0 < freq -> a mod freq = 0 -> t <= a -> ceil_to freq t <= a.
Proof.
  intros Hf Ha Hle. destruct (ceil_to_spec freq t Hf) as [Hm Hb].
  apply Z.mod_divide in Ha, Hm; try lia.
  destruct Ha as [x ->]. destruct Hm as [y Hy]. rewrite Hy in *.
  assert (y < x + 1) by (apply (Z.mul_lt_mono_pos_r freq); lia).
  apply Z.mul_le_mono_nonneg_r; lia.
Qed.

Lemma filter_all {A : Type} (p : A -> bool) (l : list A) :
  (forall x, In x l -> p x = true) -> filter p l = l.
Proof.
  induction l as [|x l IH]; intros H; simpl; [reflexivity|].
  rewrite (H x (or_introl eq_refl)). f_equal. apply IH.
  intros y Hy. apply H. now right.
Qed.

(** A left-closed range whose span is a whole number of steps. *)
Lemma date_range_left_grid (start stop freq : Z) :
  0 < freq -> start <= stop -> (stop - start) mod freq = 0 ->
  date_range_left start stop freq =
  map (fun k => start + Z.of_nat k * freq)
      (seq 0 (Z.to_nat ((stop - start) / freq))).
Proof.
  intros Hf Hle Hm. unfold date_range_left, date_range.
  assert ((stop <? start) = false) as -> by (apply Z.ltb_ge; lia).
  set (n := Z.to_nat ((stop - start) / freq)).
  assert (Z.of_nat n * freq = stop - start) as Hn.
  { unfold n. rewrite Z2Nat.id by (apply Z.div_pos; lia).
    apply Z.mod_divide in Hm; [|lia]. destruct Hm as [q Hq].
    rewrite Hq, Z.div_mul; lia. }
  rewrite seq_S, map_app, filter_app. simpl map. simpl filter.
  assert ((start + Z.of_nat n * freq <? stop) = false) as ->
    by (apply Z.ltb_ge; lia).
  rewrite app_nil_r. apply filter_all.
  intros t Ht. apply in_map_iff in Ht. destruct Ht as (k & <- & Hk).
  apply in_seq in Hk. apply Z.ltb_lt. nia.
Qed.

Lemma fold_min_le (l : list Z) : forall a, fold_left Z.min l a <= a.
Proof.
  induction l as [|x l IH]; intros a; simpl; [lia|].
  specialize (IH (Z.min a x)). lia.
Qed.

Lemma fold_max_ge (l : list Z) : forall a, a <= fold_left Z.max l a.
Proof.
  induction l as [|x l IH]; intros a; simpl; [lia|].
  specialize (IH (Z.max a x)). lia.
Qed.

Lemma fold_min_ge (lo : Z) (l : list Z) :
  forall a, lo <= a -> Forall (fun t => lo <= t) l -> lo <= fold_left Z.min l a.
Proof.
  induction l as [|x l IH]; intros a Ha Hl; simpl; [assumption|].
  inversion Hl; subst. apply IH; [lia|assumption].
Qed.

Lemma fold_max_le (hi : Z) (l : list Z) :
  forall a, a <= hi -> Forall (fun t => t <= hi) l -> fold_left Z.max l a <= hi.
Proof.
  induction l as [|x l IH]; intros a Ha Hl; simpl; [assumption|].
  inversion Hl; subst. apply IH; [lia|assumption].
Qed.

Lemma sort_index_length (df : list acc_row) :
  length (sort_index df) = length df.
Proof.
  unfold sort_index. rewrite length_map, length_combine.
  unfold Ordering.sort_values. rewrite Ordering.sorted_by_length, length_map.
  lia.
Qed.

(** X9. A table returned by [acc_watch_csv] for the file of a whole hour
    has one row per 20 ms from a whole minute to a whole minute, both inside
    that hour: whole minutes of 3000 rows each. *)
Theorem acc_watch_csv_grid (start_time : Z) (raw : list acc_raw)
  (df : list acc_row) :
  acc_watch_csv start_time raw = Some df ->
  start_time mod hour = 0 ->
  exists first_minute minutes,
    first_minute mod minute = 0
    /\ start_time <= first_minute
    /\ first_minute + Z.of_nat minutes * minute <= start_time + hour
    /\ map time df =
       map (fun k => first_minute + Z.of_nat k * 20)
           (seq 0 (minutes * 3000))
    /\ length df = (minutes * 3000)%nat.
Proof.
  unfold acc_watch_csv.
  destruct (length (acc_parsed raw) <? 50)%nat; [discriminate|].
  set (kept := filter (fun p => (start_time <=? fst p)
                                && (fst p <=? start_time + hour))
                      (acc_parsed raw)).
  assert (Forall (fun p => start_time <= fst p <= start_time + hour) kept)
    as Hkept.
  { apply Forall_forall. intros p Hp. apply filter_In in Hp.
    destruct Hp as [_ Hp]. apply andb_true_iff in Hp.
    rewrite !Z.leb_le in Hp. exact Hp. }
  destruct kept as [|p0 kept']; [discriminate|].
  cbn [map]. cbn [time]. intros H Hal. injection H as <-.
  inversion Hkept as [|? ? Hp0 Hrest]; subst.
  set (ts := map time (map (fun p => mk_acc (fst p) (x (snd p) / 4096)
                                       (y (snd p) / 4096) (z (snd p) / 4096))
                           kept')).
  assert (Forall (fun t => start_time <= t <= start_time + hour) ts) as Hts.
  { unfold ts. rewrite map_map. simpl. apply Forall_forall. intros t Ht.
    apply in_map_iff in Ht. destruct Ht as (p & <- & Hp).
    rewrite Forall_forall in Hrest. now apply Hrest. }
  set (lo := list_min (fst p0) ts). set (hi := list_max (fst p0) ts).
  assert (start_time <= lo) as Hlo.
  { apply fold_min_ge; [lia|]. eapply Forall_impl; [|exact Hts].
    simpl. intros; lia. }
  assert (hi <= start_time + hour) as Hhi.
  { apply fold_max_le; [lia|]. eapply Forall_impl; [|exact Hts].
    simpl. intros; lia. }
  assert (lo <= hi) as Hlohi.
  { pose proof (fold_min_le ts (fst p0)). pose proof (fold_max_ge ts (fst p0)).
    unfold lo, hi, list_min, list_max. lia. }
  assert (0 < minute) as Hmin by reflexivity.
  destruct (floor_to_spec minute lo Hmin) as [Hfm Hfb].
  destruct (ceil_to_spec minute hi Hmin) as [Hcm Hcb].
  assert (start_time mod minute = 0) as Hal'.
  { apply Z.mod_divide in Hal; [|discriminate]. destruct Hal as [q ->].
    unfold hour. rewrite Z.mul_assoc. apply Z.mod_mul. discriminate. }
  assert ((start_time + hour) mod minute = 0) as Hal''.
  { apply Z.mod_divide in Hal'; [|discriminate]. destruct Hal' as [q ->].
    unfold hour. rewrite <- Z.mul_add_distr_r. apply Z.mod_mul. discriminate. }
  pose proof (aligned_le_floor minute start_time lo Hmin Hal' Hlo) as Hs1.
  pose proof (ceil_le_aligned minute (start_time + hour) hi Hmin Hal'' Hhi)
    as Hs2.
  set (rs := floor_to minute lo) in *. set (re := ceil_to minute hi) in *.
  assert (rs <= re) as Hrsre by lia.
  assert (exists m : nat, re - rs = Z.of_nat m * minute) as (m & Hm).
  { apply Z.mod_divide in Hfm, Hcm; try discriminate.
    destruct Hfm as [a Ha]. destruct Hcm as [b Hb].
    exists (Z.to_nat (b - a)). rewrite Z2Nat.id; [lia|].
    unfold minute, second in *. lia. }
  exists rs, m.
  assert (map time
            (reindex_nearest (date_range_left rs re 20)
               (sort_index
                  (drop_duplicated
                     (mk_acc (fst p0) (x (snd p0) / 4096) (y (snd p0) / 4096)
                             (z (snd p0) / 4096)
                      :: map (fun p => mk_acc (fst p) (x (snd p) / 4096)
                                         (y (snd p) / 4096) (z (snd p) / 4096))
                           kept'))))
          = map (fun k => rs + Z.of_nat k * 20) (seq 0 (m * 3000))) as Htimes.
  { rewrite reindex_nearest_times.
    destruct (sort_index _) as [|r1 l1] eqn:E.
    - exfalso. apply (f_equal (@length acc_row)) in E.
      rewrite sort_index_length in E. unfold drop_duplicated in E.
      simpl in E. discriminate.
    - rewrite date_range_left_grid; try lia.
      + f_equal. f_equal. rewrite Hm. unfold minute, second.
        replace (Z.of_nat m * (60 * 1000)) with (Z.of_nat (m * 3000) * 20)
          by lia.
        rewrite Z.div_mul by discriminate. apply Nat2Z.id.
      + rewrite Hm. unfold minute, second.
        replace (Z.of_nat m * (60 * 1000)) with (Z.of_nat m * 3000 * 20)
          by lia.
        apply Z.mod_mul. discriminate. }
  repeat split; try assumption; try lia.
  apply (f_equal (@length Z)) in Htimes.
  rewrite !length_map, length_seq in Htimes. exact Htimes.
Qed.

Lemma acc_watch_csv_grid_witness :
  exists first_minute minutes,
    first_minute mod minute = 0
    /\ 0 <= first_minute
    /\ first_minute + Z.of_nat minutes * minute <= 0 + hour
    /\ option_map (map time) (acc_watch_csv 0 repeated_stamp_file) =
       Some (map (fun k => first_minute + Z.of_nat k * 20)
                 (seq 0 (minutes * 3000)))
    /\ option_map (@length acc_row) (acc_watch_csv 0 repeated_stamp_file)
       = Some (minutes * 3000)%nat.
Proof.
  destruct (acc_watch_csv 0 repeated_stamp_file) as [df|] eqn:E;
    [|vm_compute in E; discriminate].
  destruct (acc_watch_csv_grid 0 repeated_stamp_file df E eq_refl)
    as (fm & m & H1 & H2 & H3 & H4 & H5).
  exists fm, m. simpl. rewrite H4, H5. auto.
Defined.

(** *** The index sort and the nearest fill *)

Lemma combine_times_id (df : list acc_row) :
  map (fun p => mk_acc (fst p) (X (snd p)) (Y (snd p)) (Z_axis (snd p)))
      (combine (map time df) df) = df.
Proof.
  induction df as [|[t a b c] df IH]; simpl; [reflexivity|]. now rewrite IH.
Qed.

(** X10. The index sort gives the sorted timestamps to the rows in the
    order the rows have: the measurements stay where they are, and the
    table is left as it is exactly when its rows are already in time order. *)
Theorem sort_index_keeps_rows_in_place (df : list acc_row) :
  map (fun r => (X r, Y r, Z_axis r)) (sort_index df)
    = map (fun r => (X r, Y r, Z_axis r)) df
  /\ map time (sort_index df) = Ordering.sort_values (map time df)
  /\ (sort_index df = df <-> StronglySorted Z.le (map time df)).
Proof.
  assert (length (Ordering.sort_values (map time df)) = length df) as Hlen.
  { unfold Ordering.sort_values.
    now rewrite Ordering.sorted_by_length, length_map. }
  split; [|split].
  - unfold sort_index. rewrite map_map. simpl.
    revert Hlen. generalize (Ordering.sort_values (map time df)) as ts.
    induction df as [|r df IH]; intros [|t ts] Hlen; simpl in *;
      try discriminate; [reflexivity|].
    f_equal. apply IH. lia.
  - apply sort_index_times.
  - split.
    + intros Heq. rewrite <- Heq, sort_index_times.
      apply (Ordering.sorted_by_sorted (fun t => t)).
    + intros Hs. unfold sort_index.
      rewrite (Facts.sort_values_sorted _ Hs). apply combine_times_id.
Qed.

Lemma nearest_spec (g : Z) (df : list acc_row) :
  forall best,
    In (nearest g best df) (best :: df)
    /\ forall r, In r (best :: df) ->
         Z.abs (time (nearest g best df) - g) <= Z.abs (time r - g).
Proof.
  induction df as [|r0 df IH]; intros best; simpl.
  - split; [now left|]. intros r [<-|[]]. lia.
  - destruct (Z.leb_spec (Z.abs (time r0 - g)) (Z.abs (time best - g)))
      as [Hle|Hgt].
    + destruct (IH r0) as [Hin Hmin]. split.
      * destruct Hin as [<-|Hin]; auto.
      * intros r [<-|[<-|Hr]].
        -- specialize (Hmin r0 (or_introl eq_refl)). lia.
        -- apply Hmin. now left.
        -- apply Hmin. now right.
    + destruct (IH best) as [Hin Hmin]. split.
      * destruct Hin as [<-|Hin]; auto.
      * intros r [<-|[<-|Hr]].
        -- apply Hmin. now left.
        -- specialize (Hmin best (or_introl eq_refl)). lia.
        -- apply Hmin. now right.
Qed.

(** X11. The nearest fill invents nothing: every row of the result has a
    label of the new index and the measurements of a row of the table, one
    whose timestamp is as near to the label as any; a row whose timestamp is
    a label of the new index is found in the result as it is. *)
Theorem reindex_nearest_fill (idx : list Z) (df : list acc_row) :
  (forall row, In row (reindex_nearest idx df) ->
     In (time row) idx
     /\ exists r, In r df
          /\ (X row, Y row, Z_axis row) = (X r, Y r, Z_axis r)
          /\ forall r', In r' df ->
               Z.abs (time r - time row) <= Z.abs (time r' - time row))
  /\ (NoDup (map time df) ->
      forall r, In r df -> In (time r) idx -> In r (reindex_nearest idx df)).
Proof.
  destruct df as [|r0 df]; [split; [intros row []|intros _ r []]|].
  unfold reindex_nearest. split.
  - intros row Hrow. apply in_map_iff in Hrow.
    destruct Hrow as (g & <- & Hg). simpl.
    destruct (nearest_spec g df r0) as [Hin Hmin].
    split; [assumption|]. exists (nearest g r0 df).
    split; [assumption|]. split; [reflexivity|exact Hmin].
  - intros Hnd r Hr Hg. apply in_map_iff. exists (time r).
    split; [|assumption].
    destruct (nearest_spec (time r) df r0) as [Hin Hmin].
    specialize (Hmin r Hr). rewrite Z.sub_diag in Hmin. simpl in Hmin.
    assert (time (nearest (time r) r0 df) = time r) as Ht by lia.
    assert (nearest (time r) r0 df = r) as ->.
    { clear -Hnd Hin Hr Ht.
      generalize dependent (nearest (time r) r0 df). intros r' Hin Ht.
      revert Hnd Hin Hr. generalize (r0 :: df) as l.
      induction l as [|a l IH]; intros Hnd Hin Hr; [contradiction|].
      simpl in Hnd. inversion Hnd as [|? ? Hnotin Hnd']; subst.
      destruct Hin as [->|Hin]; destruct Hr as [->|Hr]; auto.
      - exfalso. apply Hnotin. rewrite Ht. now apply in_map.
      - exfalso. apply Hnotin. rewrite <- Ht. now apply in_map. }
    now destruct r.
Qed.

(** *** [read_watch_acc_folder] *)

(** [pd.concat([df_samsung, df])]: the table has no column until a file
    has given one, and a file that gave [None] is left out. *)
Definition concat_table (df_samsung : option (list acc_row))
  (df : option (list acc_row)) : option (list acc_row) :=
  match df_samsung, df with
  | Some rows, Some rows' => Some (rows ++ rows')
  | None, Some rows' => Some rows'
  | _, None => df_samsung
  end.

(** The loop over the sorted file names, each with the hour in its name
    and its rows, with its [break]. *)
Fixpoint folder_loop (start_time end_time : Z)
  (sorted_csv_names : list (Z * list acc_raw))
  (df_samsung : option (list acc_row)) : option (list acc_row) :=
  match sorted_csv_names with
  | [] => df_samsung
  | file :: rest =>
      if (start_time - hour <? fst file) && (fst file <? end_time) then
        folder_loop start_time end_time rest
          (concat_table df_samsung (acc_watch_csv (fst file) (snd file)))
      else if end_time <? fst file then df_samsung
      else folder_loop start_time end_time rest df_samsung
  end.

(** [read_watch_acc_folder]; the final selection raises on a table without
    a time column. *)
Definition read_watch_acc_folder (files : list (Z * list acc_raw))
  (start_time end_time : Z) : option (list acc_row) :=
  match folder_loop start_time end_time (Ordering.sorted_by fst files) None with
  | Some df_samsung =>
      Some (filter (fun r => (start_time <=? time r) && (time r <? end_time))
                   df_samsung)
  | None => None
  end.

(** The files of the hours after [start_time - 1 h] and before
    [end_time], read one after the other. *)
Definition read_in_range (start_time end_time : Z)
  (names : list (Z * list acc_raw)) (df_samsung : option (list acc_row))
  : option (list acc_row) :=
  fold_left (fun acc file => concat_table acc (acc_watch_csv (fst file) (snd file)))
    (filter (fun file => (start_time - hour <? fst file)
                         && (fst file <? end_time)) names)
    df_samsung.

Lemma filter_none {A : Type} (p : A -> bool) (l : list A) :
  (forall x, In x l -> p x = false) -> filter p l = [].
Proof.
  induction l as [|x l IH]; intros H; simpl; [reflexivity|].
  rewrite (H x (or_introl eq_refl)). apply IH. intros y Hy. apply H.
  now right.
Qed.

Lemma folder_loop_in_range (start_time end_time : Z)
  (names : list (Z * list acc_raw)) :
  StronglySorted (fun a b => fst a <= fst b) names ->
  forall df_samsung,
    folder_loop start_time end_time names df_samsung
    = read_in_range start_time end_time names df_samsung.
Proof.
  unfold read_in_range.
  induction 1 as [|file rest Hs IH Hall]; intros acc; [reflexivity|].
  simpl.
  destruct ((start_time - hour <? fst file) && (fst file <? end_time)) eqn:E.
  - simpl. apply IH.
  - destruct (Z.ltb_spec end_time (fst file)) as [Hlt|Hge]; [|apply IH].
    rewrite filter_none; [reflexivity|].
    rewrite Forall_forall in Hall.
    intros f Hf. specialize (Hall f Hf). apply andb_false_iff. right.
    apply Z.ltb_ge. lia.
Qed.

(** X12. [read_watch_acc_folder] reads the files of the hours after
    [start_time - 1 h] and before [end_time], in the order of their hours
    whatever the order of the listing: the [break] skips no such file. The
    rows it returns lie in [start_time, end_time). *)
Theorem read_watch_acc_folder_files (files : list (Z * list acc_raw))
  (start_time end_time : Z) :
  read_watch_acc_folder files start_time end_time
  = option_map
      (filter (fun r => (start_time <=? time r) && (time r <? end_time)))
      (read_in_range start_time end_time (Ordering.sorted_by fst files) None)
  /\ StronglySorted (fun a b => fst a <= fst b) (Ordering.sorted_by fst files)
  /\ Permutation files (Ordering.sorted_by fst files)
  /\ match read_watch_acc_folder files start_time end_time with
     | Some df => Forall (fun r => start_time <= time r < end_time) df
     | None => True
     end.
Proof.
  pose proof (Ordering.sorted_by_sorted fst files) as Hs.
  split; [|split; [exact Hs|split; [apply Ordering.sorted_by_perm|]]].
  - unfold read_watch_acc_folder. rewrite (folder_loop_in_range _ _ _ Hs).
    now destruct (read_in_range _ _ _ None).
  - unfold read_watch_acc_folder.
    destruct (folder_loop _ _ _ None); [|exact I].
    apply Forall_forall. intros r Hr. apply filter_In in Hr.
    destruct Hr as [_ Hr]. apply andb_true_iff in Hr.
    rewrite Z.leb_le, Z.ltb_lt in Hr. exact Hr.
Qed.

End ReadFileFacts.

(** ** data_processing/03_Core_temperature.py, with [core_csv] *)

Module CoreTemperature.
Import Clock ReadFile.

(** [core_miss_pct]: the minutes expected between the start and the end
    of the study, both included, against the distinct minutes of the table.
    A study that ends before it starts expects no minute, and the division
    raises. *)
Definition core_miss_pct (df_core : list core_row) (start_time end_time : Z)
  : option Q :=
  let expected_range := date_range start_time end_time minute in
  let existing_df := WatchTimes.dedup (map core_time df_core) in
  let expected_df := WatchTimes.dedup expected_range in
  match expected_df with
  | [] => None
  | _ :: _ =>
      Some (round2
              ((inject_Z (Z.of_nat (length expected_df)
                          - Z.of_nat (length existing_df))
                / inject_Z (Z.of_nat (length expected_df))) * 100))
  end.

Lemma round_to_spec (freq t : Z) :
  0 < freq ->
  round_to freq t mod freq = 0
  /\ floor_to freq t <= round_to freq t <= floor_to freq t + freq.
Proof.
  intros Hf. unfold round_to, floor_to.
  destruct (2 * (t mod freq) <? freq);
    [|destruct (freq <? 2 * (t mod freq)); [|destruct (Z.even (t / freq))]];
    (split; [apply Z.mod_mul; lia|lia]).
Qed.

Lemma core_csv_row (time_format start_time end_time : Z)
  (raw : list core_raw) (r : core_row) :
  start_time mod minute = 0 -> end_time mod minute = 0 ->
  In r (core_csv time_format start_time end_time raw) ->
  (0 <= core_CBT r)%Q /\ 3 <= core_qualityT r
  /\ core_time r mod minute = 0
  /\ start_time <= core_time r <= end_time.
Proof.
  intros Hs He Hr. unfold core_csv in Hr.
  apply in_map_iff in Hr. destruct Hr as (c & <- & Hc). simpl.
  apply filter_In in Hc. destruct Hc as [Hc Hcbt].
  apply drop_duplicates_last_spec in Hc. destruct Hc as (b & a & Hc & _).
  assert (In c (filter (fun r => (start_time <=? DateTime r)
                                 && (DateTime r <? end_time))
                  (filter (fun r => 3 <=? qualityT r)
                     (if time_format =? 1
                      then map (fun r => mk_core_raw
                                           (floor_to minute (DateTime r))
                                           (CBT r) (SkinT r) (qualityT r)
                                           (others r)) raw
                      else raw)))) as Hin
    by (rewrite Hc; apply in_or_app; right; now left).
  apply filter_In in Hin. destruct Hin as [Hin Hrange].
  apply filter_In in Hin. destruct Hin as [_ Hq].
  apply andb_true_iff in Hrange. rewrite Z.leb_le, Z.ltb_lt in Hrange.
  apply Z.leb_le in Hq. apply Qle_bool_iff in Hcbt.
  assert (0 < minute) as Hm by reflexivity.
  destruct (round_to_spec minute (DateTime c) Hm) as [Hmod Hb].
  pose proof (ReadFileFacts.aligned_le_floor minute start_time (DateTime c)
                Hm Hs (proj1 Hrange)) as Hlo.
  destruct (ReadFileFacts.floor_to_spec minute (DateTime c) Hm) as [Hfm Hfb].
  assert (floor_to minute (DateTime c) + minute <= end_time) as Hhi.
  { apply Z.mod_divide in Hfm, He; try discriminate.
    destruct Hfm as [u Hu]. destruct He as [v ->]. rewrite Hu in *.
    assert (u < v) by (apply (Z.mul_lt_mono_pos_r minute); lia).
    replace (u * minute + minute) with ((u + 1) * minute) by ring.
    apply Z.mul_le_mono_nonneg_r; lia. }
  repeat split; try assumption; lia.
Qed.

(** X13. Every row returned by [core_csv] for a study that starts and
    ends on whole minutes has a temperature that is not negative, a quality
    of 3 or more, and a time that is a whole minute from the start to the
    end of the study, the end included. *)
Theorem core_csv_rows (time_format start_time end_time : Z)
  (raw : list core_raw) :
  start_time mod minute = 0 -> end_time mod minute = 0 ->
  Forall (fun r =>
            (0 <= core_CBT r)%Q /\ 3 <= core_qualityT r
            /\ core_time r mod minute = 0
            /\ start_time <= core_time r <= end_time)
         (core_csv time_format start_time end_time raw).
Proof.
  intros Hs He. apply Forall_forall. intros r.
  now apply core_csv_row.
Qed.

Lemma core_csv_rows_witness :
  Forall (fun r =>
            (0 <= core_CBT r)%Q /\ 3 <= core_qualityT r
            /\ core_time r mod minute = 0
            /\ 0 <= core_time r <= hour)
         (core_csv 2 0 hour repeated_minute_file).
Proof.
  apply (core_csv_rows 2 0 hour repeated_minute_file); reflexivity.
Defined.

(** X14. For a study that starts and ends on whole minutes, the end not
    before the start, the table of [core_csv] never holds more distinct
    minutes than the study expects: the miss percentage is a number between
    0 and 100. *)
Theorem core_miss_pct_range (time_format start_time end_time : Z)
  (raw : list core_raw) :
  start_time mod minute = 0 -> end_time mod minute = 0 ->
  start_time <= end_time ->
  exists pct,
    core_miss_pct (core_csv time_format start_time end_time raw)
                  start_time end_time = Some pct
    /\ (0 <= pct)%Q /\ (pct <= 100)%Q.
Proof.
  intros Hs He Hle. unfold core_miss_pct.
  set (df := core_csv time_format start_time end_time raw).
  set (expected := WatchTimes.dedup (date_range start_time end_time minute)).
  set (existing := WatchTimes.dedup (map core_time df)).
  assert (0 < minute) as Hm by reflexivity.
  assert (In start_time expected) as Hstart.
  { unfold expected. apply WatchTimesFacts.dedup_In.
    apply Facts.date_range_In; [assumption|]. exists 0. lia. }
  assert (length existing <= length expected)%nat as Hlen.
  { apply NoDup_incl_length; [apply WatchTimesFacts.dedup_NoDup|].
    intros t Ht. unfold existing in Ht.
    apply (proj1 (WatchTimesFacts.dedup_In _ _)) in Ht.
    apply in_map_iff in Ht. destruct Ht as (r & <- & Hr).
    destruct (core_csv_row time_format start_time end_time raw r Hs He Hr)
      as (_ & _ & Hmod & Hb).
    unfold expected. apply WatchTimesFacts.dedup_In.
    apply Facts.date_range_In; [assumption|].
    apply Z.mod_divide in Hmod, Hs; try discriminate.
    destruct Hmod as [u Hu]. destruct Hs as [v Hv].
    exists (u - v). rewrite Hu, Hv in *.
    assert (v <= u) by (apply (Z.mul_le_mono_pos_r _ _ minute); lia).
    repeat split; lia. }
  destruct expected as [|e0 expected'] eqn:E; [contradiction|].
  eexists. split; [reflexivity|].
  set (n := length (e0 :: expected')) in *. set (m := length existing) in *.
  assert (0 < n)%nat as Hn by (unfold n; simpl; lia).
  assert (0 < inject_Z (Z.of_nat n))%Q as Hnq.
  { change 0%Q with (inject_Z 0). rewrite <- Zlt_Qlt. lia. }
  assert (0 <= inject_Z (Z.of_nat n - Z.of_nat m))%Q as Hd0.
  { change 0%Q with (inject_Z 0). rewrite <- Zle_Qle. lia. }
  assert (inject_Z (Z.of_nat n - Z.of_nat m) <= inject_Z (Z.of_nat n))%Q
    as Hd1 by (rewrite <- Zle_Qle; lia).
  apply Facts.round2_bounds.
  - apply Qmult_le_0_compat; [|lra]. apply Qle_shift_div_l; [assumption|lra].
  - assert (inject_Z (Z.of_nat n - Z.of_nat m) / inject_Z (Z.of_nat n) <= 1)%Q
      by (apply Qle_shift_div_r; [assumption|lra]).
    lra.
Qed.

Lemma core_miss_pct_range_witness :
  exists pct,
    core_miss_pct (core_csv 2 0 hour repeated_minute_file) 0 hour = Some pct
    /\ (0 <= pct)%Q /\ (pct <= 100)%Q.
Proof.
  apply (core_miss_pct_range 2 0 hour repeated_minute_file);
    [reflexivity|reflexivity|discriminate].
Defined.

End CoreTemperature.

(** ** data_processing/04_HR_calculation.py *)

Module HRCalculation.
Import Clock ReadFile NonParametric.
Local Open Scope Q_scope.

(** The four metrics of [calculate_hrv]. The standard deviation and the
    root mean square are square roots: the record holds the numbers under
    the two roots. *)
Record hrv : Type := mk_hrv {
  mean_rr : Q;
  sdnn_squared : Q;
  rmssd_squared : Q;
  pnn50 : Q
}.

(** [sum(np.abs(np.diff(nn_intervals)) > 50)] *)
Definition nn50_count (nn_intervals : list Q) : nat :=
  length (filter (fun d => Qltb 50 (Qabs d)) (diff_1 nn_intervals)).

(** [calculate_hrv] on the [hrIbi] column of a window; [np.std] divides by
    the number of values. *)
Definition calculate_hrv (nn_intervals : list Q) : option hrv :=
  if (5 <? length nn_intervals)%nat then
    Some (mk_hrv
            (mean_q nn_intervals)
            (ssd (mean_q nn_intervals) nn_intervals / count nn_intervals)
            (mean_q (map (fun d => d * d) (diff_1 nn_intervals)))
            (inject_Z (Z.of_nat (nn50_count nn_intervals))
             / count nn_intervals * 100))
  else None.

(** The rows of [main] whose interval lies between 25 and 2000 ms. *)
Definition ibi (df_hr : list hr_row) : list (Z * Q) :=
  flat_map (fun r => match hr_ibi r with
                     | Some v => if Qle_bool 25 v && Qle_bool v 2000
                                 then [(hr_time r, v)] else []
                     | None => []
                     end) df_hr.

Definition ten_minutes : Z := 10 * minute.

(** The loop over the 10-minute groups of [pd.Grouper]: every bin from the
    one of the earliest row to the one of the latest, empty ones included;
    a row of metrics for each bin that [calculate_hrv] accepts. *)
Definition hrv_windows (rows : list (Z * Q)) : list (Z * hrv) :=
  match rows with
  | [] => []
  | r0 :: rest =>
      let first := fold_left Z.min (map fst rest) (fst r0) in
      let last := fold_left Z.max (map fst rest) (fst r0) in
      flat_map
        (fun window_start =>
           let group :=
             filter (fun r => (window_start <=? fst r)%Z
                              && (fst r <? window_start + ten_minutes)%Z) rows in
           match calculate_hrv (map snd group) with
           | Some h => [(window_start, h)]
           | None => []
           end)
        (date_range (floor_to ten_minutes first) last ten_minutes)
  end.

Lemma qsum_bounds (lo hi : Q) (l : list Q) :
  Forall (fun v => lo <= v /\ v <= hi) l ->
  count l * lo <= qsum l /\ qsum l <= count l * hi.
Proof.
  unfold count. induction 1 as [|v l [Hlo Hhi] _ IH].
  - simpl. change (inject_Z 0) with 0. lra.
  - cbn [length qsum fold_right]. fold (qsum l).
    rewrite Nat2Z.inj_succ. unfold Z.succ. rewrite inject_Z_plus.
    change (inject_Z 1) with 1. lra.
Qed.

Lemma count_pos (l : list Q) : (0 < length l)%nat -> 0 < count l.
Proof.
  intros H. unfold count. change 0 with (inject_Z 0).
  rewrite <- Zlt_Qlt. lia.
Qed.

Lemma mean_q_bounds (lo hi : Q) (l : list Q) :
  (0 < length l)%nat -> Forall (fun v => lo <= v /\ v <= hi) l ->
  lo <= mean_q l /\ mean_q l <= hi.
Proof.
  intros Hn Hall. pose proof (count_pos l Hn) as Hc.
  destruct (qsum_bounds lo hi l Hall) as [H1 H2]. unfold mean_q. split.
  - apply Qle_shift_div_l; [assumption|lra].
  - apply Qle_shift_div_r; [assumption|lra].
Qed.

Lemma diff_from_length (l : list Q) :
  forall prev, length (diff_from prev l) = length l.
Proof.
  induction l as [|v l IH]; intros prev; simpl; [reflexivity|].
  now rewrite IH.
Qed.

Lemma diff_1_length (l : list Q) : length (diff_1 l) = (length l - 1)%nat.
Proof.
  destruct l as [|v l]; [reflexivity|]. simpl. rewrite diff_from_length. lia.
Qed.

Lemma qsum_squares_nonneg (l : list Q) : 0 <= qsum (map (fun d => d * d) l).
Proof.
  induction l as [|d l IH]; simpl; [lra|].
  fold (qsum (map (fun d => d * d) l)).
  pose proof (square_nonneg d). lra.
Qed.

Lemma pnn50_range (nn_intervals : list Q) :
  (0 < length nn_intervals)%nat ->
  0 <= inject_Z (Z.of_nat (nn50_count nn_intervals)) / count nn_intervals * 100
  /\ inject_Z (Z.of_nat (nn50_count nn_intervals)) / count nn_intervals * 100
     < 100.
Proof.
  intros Hpos. pose proof (count_pos nn_intervals Hpos) as Hc.
  assert (0 <= inject_Z (Z.of_nat (nn50_count nn_intervals))) as H0.
  { change 0 with (inject_Z 0). rewrite <- Zle_Qle. lia. }
  assert (inject_Z (Z.of_nat (nn50_count nn_intervals)) < count nn_intervals)
    as Hlt.
  { unfold count. rewrite <- Zlt_Qlt. unfold nn50_count.
    pose proof (ActivityCounts.filter_length_le
                  (fun d => Qltb 50 (Qabs d)) (diff_1 nn_intervals)).
    rewrite diff_1_length in *. lia. }
  split.
  - apply Qmult_le_0_compat; [|lra].
    apply Qle_shift_div_l; [assumption|lra].
  - assert (inject_Z (Z.of_nat (nn50_count nn_intervals)) / count nn_intervals
            < 1) by (apply Qlt_shift_div_r; [assumption|lra]).
    lra.
Qed.

(** X15. [calculate_hrv] gives no metrics for a window of 5 intervals or
    fewer. For a longer window of intervals between 25 and 2000 ms, as
    [main] passes them, the mean interval lies between 25 and 2000, the
    numbers under the two square roots are not negative, and pNN50 is at
    least 0 and strictly below 100, the count of differences being divided
    by the number of intervals. *)
Theorem calculate_hrv_ranges (nn_intervals : list Q) :
  Forall (fun v => 25 <= v /\ v <= 2000) nn_intervals ->
  match calculate_hrv nn_intervals with
  | Some h =>
      (5 < length nn_intervals)%nat
      /\ 25 <= mean_rr h /\ mean_rr h <= 2000
      /\ 0 <= sdnn_squared h /\ 0 <= rmssd_squared h
      /\ 0 <= pnn50 h /\ pnn50 h < 100
  | None => (length nn_intervals <= 5)%nat
  end.
Proof.
  intros Hall. unfold calculate_hrv.
  destruct (Nat.ltb_spec 5 (length nn_intervals)) as [Hn|Hn]; [|exact Hn].
  cbn [mean_rr sdnn_squared rmssd_squared pnn50].
  assert (0 < length nn_intervals)%nat as Hpos by lia.
  pose proof (count_pos nn_intervals Hpos) as Hc.
  destruct (mean_q_bounds 25 2000 nn_intervals Hpos Hall) as [Hm1 Hm2].
  destruct (pnn50_range nn_intervals Hpos) as [Hp1 Hp2].
  split; [exact Hn|]. split; [exact Hm1|]. split; [exact Hm2|].
  split; [|split; [|split; [exact Hp1|exact Hp2]]].
  - apply Qle_shift_div_l; [assumption|].
    pose proof (ssd_nonneg (mean_q nn_intervals) nn_intervals). lra.
  - unfold mean_q at 1.
    pose proof (qsum_squares_nonneg (diff_1 nn_intervals)) as Hs.
    set (sq := map (fun d => d * d) (diff_1 nn_intervals)) in *.
    assert (0 < count sq).
    { apply count_pos. unfold sq. rewrite length_map, diff_1_length. lia. }
    apply Qle_shift_div_l; [assumption|lra].
Qed.

Lemma calculate_hrv_ranges_witness :
  match calculate_hrv [800; 900; 800; 900; 800; 900] with
  | Some h =>
      (5 < length [800; 900; 800; 900; 800; 900])%nat
      /\ 25 <= mean_rr h /\ mean_rr h <= 2000
      /\ 0 <= sdnn_squared h /\ 0 <= rmssd_squared h
      /\ 0 <= pnn50 h /\ pnn50 h < 100
  | None => (length [800; 900; 800; 900; 800; 900] <= 5)%nat
  end.
Proof.
  apply (calculate_hrv_ranges [800; 900; 800; 900; 800; 900]).
  repeat constructor; discriminate.
Defined.

Lemma ibi_range (df_hr : list hr_row) :
  Forall (fun r => 25 <= snd r /\ snd r <= 2000) (ibi df_hr).
Proof.
  unfold ibi. apply Forall_forall. intros r Hr.
  apply in_flat_map in Hr. destruct Hr as (x & _ & Hr).
  destruct (hr_ibi x) as [v|]; [|contradiction].
  destruct (Qle_bool 25 v) eqn:H1; [|contradiction].
  destruct (Qle_bool v 2000) eqn:H2; [|contradiction].
  destruct Hr as [<-|[]]. simpl.
  split; now apply Qle_bool_iff.
Qed.

Lemma ibi_rows (df_hr : list hr_row) (t : Z) (v : Q) :
  In (t, v) (ibi df_hr) ->
  exists r, In r df_hr /\ hr_time r = t /\ hr_ibi r = Some v.
Proof.
  unfold ibi. intros Hr. apply in_flat_map in Hr.
  destruct Hr as (x & Hx & Hr). exists x.
  destruct (hr_ibi x) as [u|]; [|contradiction].
  destruct (Qle_bool 25 u && Qle_bool u 2000); [|contradiction].
  destruct Hr as [Heq|[]]. inversion Heq. auto.
Qed.

Lemma accepted_sorted {A : Type} (g : Z -> option A) (l : list Z) :
  StronglySorted Z.lt l ->
  StronglySorted Z.lt
    (map fst (flat_map (fun x => match g x with
                                 | Some h => [(x, h)]
                                 | None => []
                                 end) l)).
Proof.
  induction 1 as [|a l Hs IH Ha]; [constructor|].
  cbn [flat_map]. destruct (g a) as [h|]; [|exact IH].
  cbn [app map fst]. constructor; [exact IH|].
  rewrite Forall_forall in *. intros t Ht.
  apply in_map_iff in Ht. destruct Ht as ([t' h'] & <- & Ht).
  apply in_flat_map in Ht. destruct Ht as (x & Hx & Ht).
  destruct (g x); [|contradiction]. destruct Ht as [Heq|[]].
  inversion Heq; subst. simpl. now apply Ha.
Qed.

Lemma ten_minutes_pos : (0 < ten_minutes)%Z.
Proof. unfold ten_minutes, minute, second. lia. Qed.

(** X16. The table of HRV metrics that [main] builds has one row per
    10-minute bin at most, its times are whole multiples of 10 minutes in
    strictly increasing order, and each row comes from more than 5 rows of
    the heart-rate table whose interval lies between 25 and 2000 ms and
    whose time falls in the bin; its mean interval lies in that range and
    its pNN50 in [0, 100). *)
Theorem hrv_windows_rows (df_hr : list hr_row) :
  StronglySorted Z.lt (map fst (hrv_windows (ibi df_hr)))
  /\ forall window_start h,
       In (window_start, h) (hrv_windows (ibi df_hr)) ->
       (window_start mod ten_minutes = 0)%Z
       /\ (exists group,
             calculate_hrv (map snd group) = Some h
             /\ (5 < length group)%nat
             /\ forall t v, In (t, v) group ->
                  (window_start <= t < window_start + ten_minutes)%Z
                  /\ 25 <= v /\ v <= 2000
                  /\ exists r, In r df_hr /\ hr_time r = t
                               /\ hr_ibi r = Some v)
       /\ 25 <= mean_rr h /\ mean_rr h <= 2000
       /\ 0 <= pnn50 h /\ pnn50 h < 100.
Proof.
  pose proof ten_minutes_pos as Hpos.
  pose proof (ibi_range df_hr) as Hrange.
  pose proof (ibi_rows df_hr) as Hrows.
  destruct (ibi df_hr) as [|r0 rest] eqn:Hibi.
  { split; [constructor|]. intros w h []. }
  set (rows := r0 :: rest) in *.
  unfold hrv_windows. fold rows. cbv zeta.
  set (first := fold_left Z.min (map fst rest) (fst r0)).
  set (last := fold_left Z.max (map fst rest) (fst r0)).
  split.
  - apply accepted_sorted with
      (g := fun w => calculate_hrv
                       (map snd (filter (fun r => (w <=? fst r)%Z
                                                  && (fst r <? w + ten_minutes)%Z)
                                        rows))).
    now apply Facts.date_range_increasing.
  - intros w h Hin. apply in_flat_map in Hin.
    destruct Hin as (x & Hx & Hin).
    set (group := filter (fun r => (x <=? fst r)%Z
                                   && (fst r <? x + ten_minutes)%Z) rows) in *.
    destruct (calculate_hrv (map snd group)) as [h'|] eqn:Hc; [|contradiction].
    destruct Hin as [Heq|[]]. inversion Heq; subst x h'. clear Heq.
    assert (Forall (fun v => 25 <= v /\ v <= 2000) (map snd group)) as Hall.
    { apply Forall_forall. intros v Hv. apply in_map_iff in Hv.
      destruct Hv as (r & <- & Hr). apply filter_In in Hr.
      rewrite Forall_forall in Hrange. now apply Hrange. }
    assert (5 < length group)%nat as Hn.
    { unfold calculate_hrv in Hc. rewrite length_map in Hc.
      destruct (Nat.ltb_spec 5 (length group)); [assumption|discriminate]. }
    assert (0 < length (map snd group))%nat as Hlen
      by (rewrite length_map; lia).
    destruct (mean_q_bounds 25 2000 _ Hlen Hall) as [Hm1 Hm2].
    destruct (pnn50_range _ Hlen) as [Hp1 Hp2].
    assert (h = mk_hrv
                  (mean_q (map snd group))
                  (ssd (mean_q (map snd group)) (map snd group)
                   / count (map snd group))
                  (mean_q (map (fun d => d * d) (diff_1 (map snd group))))
                  (inject_Z (Z.of_nat (nn50_count (map snd group)))
                   / count (map snd group) * 100)) as Hh.
    { unfold calculate_hrv in Hc.
      destruct (5 <? length (map snd group))%nat; [|discriminate].
      now injection Hc as <-. }
    assert (25 <= mean_rr h /\ mean_rr h <= 2000
            /\ 0 <= pnn50 h /\ pnn50 h < 100) as Hmetrics
      by (rewrite Hh; cbn [mean_rr pnn50]; tauto).
    clear Hh Hm1 Hm2 Hp1 Hp2.
    split; [|split; [|tauto]].
    + apply Facts.date_range_In in Hx; [|assumption].
      destruct Hx as (k & _ & -> & _).
      rewrite Z.mod_add by lia.
      now apply ReadFileFacts.floor_to_spec.
    + exists group. split; [exact Hc|]. split; [exact Hn|].
      intros t v Htv. apply filter_In in Htv. destruct Htv as [Htv Hb].
      apply andb_prop in Hb. destruct Hb as [Hb1 Hb2]. cbn [fst] in *.
      apply Z.leb_le in Hb1. apply Z.ltb_lt in Hb2.
      split; [lia|].
      rewrite Forall_forall in Hrange.
      destruct (Hrange _ Htv) as [Hv1 Hv2]. cbn [snd] in *.
      split; [exact Hv1|]. split; [exact Hv2|]. now apply Hrows.
Qed.

End HRCalculation.

(** ** More on the binary64 numbers: the fraction of a rounded number *)

Module Binary64Facts.
Import Binary64.
Local Open Scope Q_scope.

(** A rounded positive number: a whole multiple of the unit in the last
    place of the number rounded, at most 2^53 of them. *)
Lemma rnd_grid (x : Q) :
  0 < x ->
  exists k : Z,
    rnd x == inject_Z k * ulp x /\ (0 <= k <= 2 ^ 53)%Z.
Proof.
  intros Hx. exists (round_half_even (x / ulp x)). split.
  - unfold rnd. assert (Qltb x 0 = false) as -> by (apply Qltb_false; lra).
    reflexivity.
  - pose proof (ulp_pos x) as Hu. destruct (binade_spec x Hx) as [_ B2].
    assert (inject_Z 0 <= x / ulp x) as H0
      by (change (inject_Z 0) with 0; apply Qle_shift_div_l; lra).
    assert (x / ulp x <= inject_Z (2 ^ 53)) as H1.
    { apply Qle_shift_div_r; [exact Hu|]. unfold ulp.
      rewrite pow2_Z by discriminate. rewrite <- pow2_plus.
      assert (2 ^ (binade x + 1) <= 2 ^ (53 + ulp_exponent x))
        by (apply pow2_le; unfold ulp_exponent; lia).
      lra. }
    apply rhe_mono in H0, H1. rewrite rhe_Z in H0, H1. lia.
Qed.

Lemma floor_unique (x : Q) (n : Z) :
  inject_Z n <= x -> x < inject_Z n + 1 -> Qfloor x = n.
Proof.
  intros H1 H2. pose proof (Qfloor_le x) as F1.
  pose proof (Qlt_floor x) as F2. rewrite inject_Z_plus in F2.
  change (inject_Z 1) with 1 in F2.
  assert (inject_Z n < inject_Z (Qfloor x) + 1) as A by lra.
  assert (inject_Z (Qfloor x) < inject_Z n + 1) as B by lra.
  change 1 with (inject_Z 1) in A, B. rewrite <- inject_Z_plus in A, B.
  rewrite <- Zlt_Qlt in A, B. lia.
Qed.

(** The part after the point of a binary64 number that is not negative
    is at most 1 - 2^-53. *)
Lemma fraction_bound (x : Q) :
  0 <= x ->
  rnd x - inject_Z (Qfloor (rnd x)) <= 1 - (1 # 9007199254740992).
Proof.
  intros Hx0.
  pose proof (Qfloor_le (rnd x)) as F1. pose proof (Qlt_floor (rnd x)) as F2.
  rewrite inject_Z_plus in F2. change (inject_Z 1) with 1 in F2.
  destruct (Qlt_le_dec 0 x) as [Hx|Hx]; cycle 1.
  { assert (x == 0) as Hz by lra.
    assert (rnd x == 0) as Hr
      by (apply Qeq_trans with (rnd 0); [apply (rnd_comp x 0 Hz)|apply rnd_0]).
    rewrite (Qfloor_comp _ _ Hr), Hr. vm_compute. discriminate. }
  destruct (rnd_grid x Hx) as (k & Hk & Hk0 & Hk1).
  destruct (binade_spec x Hx) as [B1 B2].
  destruct (Qlt_le_dec x 1) as [Hlt|Hge].
  - (* below 1: the unit in the last place is 2^-53 at most *)
    assert (binade x <= -1)%Z as Hb.
    { destruct (Z.le_gt_cases (binade x) (-1)) as [H|H]; [exact H|].
      exfalso. assert (2 ^ 0 <= 2 ^ binade x) by (apply pow2_le; lia).
      change (2 ^ 0) with 1 in *. lra. }
    assert (ulp_exponent x <= -53)%Z as He by (unfold ulp_exponent; lia).
    assert (ulp x <= 2 ^ (-53)) as Hu by (apply pow2_le; exact He).
    pose proof (ulp_pos x) as Hupos.
    destruct (Z.eq_dec k (2 ^ 53)) as [Hmax|Hnot].
    + (* a power of two *)
      destruct (Z.eq_dec (ulp_exponent x) (-53)) as [He53|Hne].
      * assert (rnd x == 1) as H1.
        { rewrite Hk, Hmax. unfold ulp. rewrite He53. reflexivity. }
        rewrite (Qfloor_comp _ _ H1), H1. vm_compute. discriminate.
      * assert (ulp x <= 2 ^ (-54)) as Hu'
          by (apply pow2_le; lia).
        assert (rnd x <= 1 # 2) as Hhalf.
        { rewrite Hk, Hmax.
          apply Qle_trans with (inject_Z (2 ^ 53) * 2 ^ (-54)).
          - rewrite !(Qmult_comm (inject_Z (2 ^ 53))).
            apply Qmult_le_compat_r; [exact Hu'|discriminate].
          - vm_compute. discriminate. }
        assert (0 <= rnd x) as Hr0
          by (rewrite Hk; apply Qmult_le_0_compat;
              [change 0 with (inject_Z 0); rewrite <- Zle_Qle; lia|lra]).
        assert (Qfloor (rnd x) = 0%Z) as ->
          by (apply floor_unique; change (inject_Z 0) with 0; lra).
        change (inject_Z 0) with 0.
        assert (1 # 2 <= 1 - (1 # 9007199254740992)) by (vm_compute; discriminate).
        lra.
    + assert (inject_Z k <= inject_Z (2 ^ 53 - 1)) as Hk2
        by (rewrite <- Zle_Qle; lia).
      assert (0 <= inject_Z k) as Hk3
        by (change 0 with (inject_Z 0); rewrite <- Zle_Qle; lia).
      assert (rnd x <= 1 - (1 # 9007199254740992)) as Hr.
      { rewrite Hk.
        apply Qle_trans with (inject_Z (2 ^ 53 - 1) * 2 ^ (-53)).
        - apply Qle_trans with (inject_Z k * 2 ^ (-53)).
          + rewrite !(Qmult_comm (inject_Z k)).
            apply Qmult_le_compat_r; [exact Hu|exact Hk3].
          + apply Qmult_le_compat_r; [exact Hk2|]. apply Qlt_le_weak, pow2_pos.
        - vm_compute. discriminate. }
      assert (0 <= rnd x) as Hr0
        by (rewrite Hk; apply Qmult_le_0_compat; lra).
      assert (1 - (1 # 9007199254740992) < 1) by reflexivity.
      assert (Qfloor (rnd x) = 0%Z) as ->
        by (apply floor_unique; change (inject_Z 0) with 0; lra).
      change (inject_Z 0) with 0. lra.
  - (* from 1 on: a whole multiple of 2^-52 *)
    assert (0 <= binade x)%Z as Hb.
    { assert (binade 1 = 0%Z) as <- by (vm_compute; reflexivity).
      apply binade_mono; [reflexivity|exact Hge]. }
    assert (-52 <= ulp_exponent x)%Z as He by (unfold ulp_exponent; lia).
    set (K := (k * 2 ^ (ulp_exponent x + 52))%Z).
    assert (rnd x == inject_Z K * 2 ^ (-52)) as HK.
    { rewrite Hk. unfold K, ulp. rewrite inject_Z_mult, pow2_Z by lia.
      rewrite <- Qmult_assoc, <- pow2_plus.
      now replace (ulp_exponent x + 52 + -52)%Z with (ulp_exponent x) by ring. }
    set (F := Qfloor (rnd x)) in *.
    assert (rnd x - inject_Z F
            == inject_Z (K - F * 2 ^ 52) * 2 ^ (-52)) as HJ.
    { rewrite HK. unfold Zminus. rewrite inject_Z_plus, inject_Z_opp,
        inject_Z_mult.
      assert (inject_Z (2 ^ 52) * 2 ^ (-52) == 1) as H1 by reflexivity.
      rewrite Qmult_plus_distr_l.
      assert (- (inject_Z F * inject_Z (2 ^ 52)) * 2 ^ (-52)
              == - inject_Z F * (inject_Z (2 ^ 52) * 2 ^ (-52))) as -> by ring.
      rewrite H1. ring. }
    assert (0 < 2 ^ (-52)) as Hu by apply pow2_pos.
    assert (inject_Z (K - F * 2 ^ 52) < inject_Z (2 ^ 52)) as HJ1.
    { apply (Qmult_lt_r _ _ (2 ^ (-52))); [exact Hu|].
      rewrite <- HJ. assert (inject_Z (2 ^ 52) * 2 ^ (-52) == 1) as ->
        by reflexivity. lra. }
    rewrite <- Zlt_Qlt in HJ1.
    assert (inject_Z (K - F * 2 ^ 52) <= inject_Z (2 ^ 52 - 1)) as HJ2
      by (rewrite <- Zle_Qle; lia).
    rewrite HJ.
    apply Qle_trans with (inject_Z (2 ^ 52 - 1) * 2 ^ (-52)).
    + apply Qmult_le_compat_r; [exact HJ2|lra].
    + vm_compute. discriminate.
Qed.

End Binary64Facts.

(** ** circadian_calculation_comparison/01_Cosinor_metrics.py, the clock
    time of an acrophase *)

Module CosinorFacts.
Import Binary64 Binary64Facts Cosinor.
Local Open Scope Q_scope.

(** [int(x)] on a number: the fraction is cut off, towards zero. *)
Definition int (x : Q) : Z :=
  if Qltb x 0 then Qceiling x else Qfloor x.

(** [x % 1] on binary64 numbers: the remainder of the division towards
    zero is exact, and 1.0 is added to it, rounded, when it is negative. *)
Definition mod_1 (x : Q) : Q :=
  let remainder := x - inject_Z (int x) in
  if Qltb remainder 0 then add remainder 1 else remainder.

(** [acro_to_hour]: the two numbers that the result prints as
    [hours:minutes], two digits each. *)
Definition acro_to_hour (acrophase : Q) : Z * Z :=
  let time := acro_to_time acrophase in
  let hours := int time in
  let minutes := int (mul (mod_1 time) 60) in
  (hours, minutes).

(** The three columns that [cosinor_metrics] derives from a fitted
    acrophase: [acro_neg_to_pos] first, the other two from its result. *)
Definition acrophase_columns (fuel : nat) (acrophase : Q)
  : option (Q * Q * (Z * Z)) :=
  match acro_neg_to_pos fuel acrophase with
  | Some a => Some (a, acro_to_time a, acro_to_hour a)
  | None => None
  end.

Lemma Qltb_comp (x y : Q) : x == y -> Qltb x 0 = Qltb y 0.
Proof.
  intros H. unfold Qltb.
  now rewrite (Qcompare_comp _ _ H _ _ (Qeq_refl 0)).
Qed.

Lemma int_comp (x y : Q) : x == y -> int x = int y.
Proof.
  intros H. unfold int. rewrite (Qltb_comp x y H).
  destruct (Qltb y 0); [|apply (Qfloor_comp _ _ H)].
  unfold Qceiling. f_equal. apply Qfloor_comp. now rewrite H.
Qed.

Lemma int_nonneg (x : Q) : 0 <= x -> int x = Qfloor x.
Proof.
  intros H. unfold int. apply Qltb_false in H. now rewrite H.
Qed.

Lemma mod_1_nonneg (x : Q) :
  0 <= x -> mod_1 x = x - inject_Z (Qfloor x).
Proof.
  intros H. unfold mod_1. rewrite (int_nonneg x H).
  pose proof (Qfloor_le x) as Hf.
  assert (Qltb (x - inject_Z (Qfloor x)) 0 = false) as ->
    by (apply Qltb_false; lra).
  reflexivity.
Qed.

Lemma acro_to_time_comp (a b : Q) :
  a == b -> acro_to_time a == acro_to_time b.
Proof.
  intros H. unfold acro_to_time, sub, div, mul.
  apply rnd_comp.
  assert (rnd (rnd (24 * a) / two_pi) == rnd (rnd (24 * b) / two_pi)) as ->;
    [|reflexivity].
  apply rnd_comp.
  assert (rnd (24 * a) == rnd (24 * b)) as ->; [|reflexivity].
  apply rnd_comp. now rewrite H.
Qed.

Lemma turn_fraction_range (a : Q) :
  0 <= a -> a <= two_pi ->
  0 <= div (mul 24 a) two_pi /\ div (mul 24 a) two_pi <= 24.
Proof.
  intros H0 H1. pose proof two_pi_pos as Hpos. unfold div, mul.
  set (p := rnd (24 * a)).
  assert (0 <= p) as Hp0
    by (apply rnd_ge; [apply zero_representable|lra]).
  assert (p <= rnd (24 * two_pi)) as Hp1 by (apply rnd_mono; lra).
  split.
  - apply rnd_ge; [apply zero_representable|].
    apply Qle_shift_div_l; lra.
  - apply Qle_trans with (rnd (rnd (24 * two_pi) / two_pi)).
    + apply rnd_mono. apply Qmult_le_compat_r; [exact Hp1|].
      apply Qlt_le_weak, Qinv_lt_0_compat, Hpos.
    + vm_compute. discriminate.
Qed.

Lemma acro_to_time_range (a : Q) :
  0 <= a -> a <= two_pi -> 0 <= acro_to_time a /\ acro_to_time a <= 24.
Proof.
  intros H0 H1. destruct (turn_fraction_range a H0 H1) as [Hq0 Hq1].
  unfold acro_to_time, sub.
  assert (representable 24) as H24 by (vm_compute; reflexivity).
  split.
  - apply rnd_ge; [apply zero_representable|lra].
  - apply rnd_le; [exact H24|lra].
Qed.

Lemma floor_range (x : Q) (lo hi : Z) :
  inject_Z lo <= x -> x < inject_Z hi + 1 -> (lo <= Qfloor x <= hi)%Z.
Proof.
  intros Hlo Hhi. split.
  - rewrite <- (Qfloor_Z lo). now apply Qfloor_resp_le.
  - pose proof (Qfloor_le x) as Hf.
    assert (inject_Z (Qfloor x) < inject_Z (hi + 1)) as Hlt.
    { rewrite inject_Z_plus. change (inject_Z 1) with 1. lra. }
    rewrite <- Zlt_Qlt in Hlt. lia.
Qed.

(** The minutes of a rounded time that is not negative. *)
Lemma minutes_range (y : Q) :
  0 <= y -> (0 <= int (mul (mod_1 (rnd y)) 60) <= 59)%Z.
Proof.
  intros Hy.
  assert (0 <= rnd y) as Ht
    by (apply rnd_ge; [apply zero_representable|exact Hy]).
  rewrite (mod_1_nonneg _ Ht).
  pose proof (fraction_bound y Hy) as Hf.
  pose proof (Qfloor_le (rnd y)) as Hfl.
  set (f := rnd y - inject_Z (Qfloor (rnd y))) in *.
  assert (0 <= f) as Hf0 by (unfold f; lra).
  unfold mul.
  assert (0 <= rnd (f * 60)) as Hm0
    by (apply rnd_ge; [apply zero_representable|lra]).
  assert (rnd (f * 60) <= rnd ((1 - (1 # 9007199254740992)) * 60)) as Hm1
    by (apply rnd_mono; lra).
  assert (rnd ((1 - (1 # 9007199254740992)) * 60) < 60) as Hc
    by (vm_compute; reflexivity).
  rewrite (int_nonneg _ Hm0).
  apply floor_range; [change (inject_Z 0) with 0|change (inject_Z 59) with 59];
    lra.
Qed.

(** X17. On binary64 numbers, for a fitted acrophase from [- 2 * two_pi]
    to [two_pi], [cosinor_metrics] gets a normalised acrophase in
    [0, two_pi], a time of day in [0, 24] and a printed hour between 0 and
    24 with minutes between 0 and 59. An acrophase that normalises to 0 is
    given the time 24 and printed as hour 24, minute 0; one that normalises
    to [two_pi] itself, as a negative acrophase too small to change
    [two_pi] does, is given the time 0 and printed as hour 0, minute 0. *)
Theorem acrophase_columns_clock (fuel : nat) (acrophase : Q) :
  - (2 * two_pi) <= acrophase -> acrophase <= two_pi -> (2 <= fuel)%nat ->
  exists a time hours minutes,
    acrophase_columns fuel acrophase = Some (a, time, (hours, minutes))
    /\ 0 <= a /\ a <= two_pi
    /\ 0 <= time /\ time <= 24
    /\ (0 <= hours <= 24)%Z /\ (0 <= minutes <= 59)%Z
    /\ (a == 0 -> time == 24 /\ hours = 24%Z /\ minutes = 0%Z)
    /\ (a == two_pi -> time == 0 /\ hours = 0%Z /\ minutes = 0%Z).
Proof.
  intros Hlo Hhi Hfuel.
  assert (exists a, acro_neg_to_pos fuel acrophase = Some a
                    /\ 0 <= a /\ a <= two_pi) as (a & Ha & H0 & H1).
  { destruct (Qlt_le_dec acrophase 0) as [Hneg|Hpos].
    - destruct (acro_neg_to_pos_two_turns fuel acrophase Hlo Hneg Hfuel)
        as (r & Hr & Hr0 & Hr1 & _). eauto.
    - exists acrophase. rewrite acro_neg_to_pos_nonneg by exact Hpos. auto. }
  destruct (acro_to_time_range a H0 H1) as [Ht0 Ht1].
  exists a, (acro_to_time a), (fst (acro_to_hour a)), (snd (acro_to_hour a)).
  unfold acrophase_columns. rewrite Ha.
  split; [now rewrite <- surjective_pairing|].
  split; [exact H0|]. split; [exact H1|].
  split; [exact Ht0|]. split; [exact Ht1|].
  unfold acro_to_hour. cbn [fst snd].
  split.
  { rewrite (int_nonneg _ Ht0).
    apply floor_range;
      [change (inject_Z 0) with 0|change (inject_Z 24) with 24]; lra. }
  split.
  { unfold acro_to_time at 1, sub. apply minutes_range.
    destruct (turn_fraction_range a H0 H1) as [_ Hq].
    lra. }
  split.
  - intros Hz. pose proof (acro_to_time_comp a 0 Hz) as Ht.
    assert (acro_to_time 0 == 24) as E by (vm_compute; reflexivity).
    rewrite E in Ht. split; [exact Ht|].
    split.
    + rewrite (int_comp _ _ Ht). reflexivity.
    + rewrite (mod_1_nonneg _ Ht0).
      assert (mul (acro_to_time a - inject_Z (Qfloor (acro_to_time a))) 60
              == 0) as Hm.
      { unfold mul. rewrite (Qfloor_comp _ _ Ht).
        apply Qeq_trans with (rnd 0); [|apply rnd_0].
        apply rnd_comp. rewrite Ht. reflexivity. }
      rewrite (int_comp _ _ Hm). reflexivity.
  - intros Hz. pose proof (acro_to_time_comp a two_pi Hz) as Ht.
    assert (acro_to_time two_pi == 0) as E by (vm_compute; reflexivity).
    rewrite E in Ht. split; [exact Ht|].
    split.
    + rewrite (int_comp _ _ Ht). reflexivity.
    + rewrite (mod_1_nonneg _ Ht0).
      assert (mul (acro_to_time a - inject_Z (Qfloor (acro_to_time a))) 60
              == 0) as Hm.
      { unfold mul. rewrite (Qfloor_comp _ _ Ht).
        apply Qeq_trans with (rnd 0); [|apply rnd_0].
        apply rnd_comp. rewrite Ht. reflexivity. }
      rewrite (int_comp _ _ Hm). reflexivity.
Qed.

(** The theorem at the acrophase - 2^-70, which is printed 00:00. *)
Lemma acrophase_columns_clock_witness :
  exists a time hours minutes,
    acrophase_columns 2 (- (1 # 1180591620717411303424))
    = Some (a, time, (hours, minutes))
    /\ 0 <= a /\ a <= two_pi
    /\ 0 <= time /\ time <= 24
    /\ (0 <= hours <= 24)%Z /\ (0 <= minutes <= 59)%Z
    /\ (a == 0 -> time == 24 /\ hours = 24%Z /\ minutes = 0%Z)
    /\ (a == two_pi -> time == 0 /\ hours = 0%Z /\ minutes = 0%Z).
Proof.
  apply (acrophase_columns_clock 2 (- (1 # 1180591620717411303424)));
    [vm_compute; discriminate|vm_compute; discriminate|lia].
Defined.

End CosinorFacts.

(** ** circadian_calculation_comparison/02_CR_non_parametric.py, the signs
    and ranges of the metrics *)

Module NonParametricFacts.
Import Clock NonParametric.
Local Open Scope Q_scope.

Lemma count_cons (v : Q) (l : list Q) : count (v :: l) == count l + 1.
Proof.
  unfold count. cbn [length]. rewrite Nat2Z.inj_succ. unfold Z.succ.
  rewrite inject_Z_plus. reflexivity.
Qed.

Lemma count_nonneg (l : list Q) : 0 <= count l.
Proof.
  unfold count. change 0 with (inject_Z 0). rewrite <- Zle_Qle. lia.
Qed.

Lemma variance_q_nonneg (l : list Q) :
  (2 <= length l)%nat -> 0 <= variance_q l.
Proof.
  intros H. unfold variance_q.
  assert (2 <= count l) as Hc.
  { unfold count. change 2 with (inject_Z 2). rewrite <- Zle_Qle. lia. }
  pose proof (ssd_nonneg (mean_q l) l).
  apply Qle_shift_div_l; lra.
Qed.

Lemma var_nonneg (l : list Q) (v : Q) : var l = Some v -> 0 <= v.
Proof.
  unfold var. destruct (Nat.ltb_spec (length l) 2); [discriminate|].
  intros [= <-]. now apply variance_q_nonneg.
Qed.

Lemma mean_squares_nonneg (l : list Q) (v : Q) :
  mean (map (fun d => d * d) l) = Some v -> 0 <= v.
Proof.
  pose proof (HRCalculation.qsum_squares_nonneg l) as Hs.
  destruct (map (fun d => d * d) l) as [|d sq]; [discriminate|].
  intros [= <-]. unfold mean_q.
  apply Qle_shift_div_l; [apply HRCalculation.count_pos; simpl; lia|lra].
Qed.

Lemma quotient_nonneg (a b : option Q) (q : Q) :
  (forall u, a = Some u -> 0 <= u) -> (forall v, b = Some v -> 0 <= v) ->
  quotient a b = Some q -> 0 <= q.
Proof.
  intros Ha Hb. unfold quotient.
  destruct a as [u|]; [|discriminate]. destruct b as [v|]; [|discriminate].
  destruct (Qeq_bool v 0) eqn:E; [discriminate|]. intros [= <-].
  apply Qeq_bool_neq in E.
  specialize (Ha u eq_refl). specialize (Hb v eq_refl).
  assert (0 < v) as Hv.
  { destruct (Qlt_le_dec 0 v) as [|Hle]; [assumption|].
    exfalso. apply E. lra. }
  apply Qle_shift_div_l; lra.
Qed.

Lemma quotient_none_r (a : option Q) : quotient a None = None.
Proof. now destruct a. Qed.

(** X18. Interdaily stability and intradaily variability are never
    negative when [non_parametrics] gives them as numbers; with fewer than
    two samples the overall variance is missing and neither is a number. *)
Theorem stability_and_variability_signs (data : list (Z * Q)) :
  (forall v, IS (non_parametrics data) = Some v -> 0 <= v)
  /\ (forall v, IV (non_parametrics data) = Some v -> 0 <= v)
  /\ ((length data < 2)%nat ->
      IS (non_parametrics data) = None /\ IV (non_parametrics data) = None).
Proof.
  unfold non_parametrics. cbn [IS IV]. split; [|split].
  - intros v. apply quotient_nonneg; apply var_nonneg.
  - intros v. apply quotient_nonneg;
      [apply mean_squares_nonneg|apply var_nonneg].
  - intros Hn.
    assert (var (map snd data) = None) as Hv.
    { unfold var. rewrite length_map. apply Nat.ltb_lt in Hn. now rewrite Hn. }
    rewrite Hv. split; apply quotient_none_r.
Qed.

(** *** The sort behind [nlargest] and [nsmallest] *)

Lemma insert_q_perm (leb : Q -> Q -> bool) (v : Q) (l : list Q) :
  Permutation (v :: l) (insert_q leb v l).
Proof.
  induction l as [|w l IH]; [reflexivity|]. cbn [insert_q].
  destruct (leb v w); [reflexivity|].
  etransitivity; [apply perm_swap|]. now constructor.
Qed.

Lemma sort_q_perm (leb : Q -> Q -> bool) (l : list Q) :
  Permutation l (sort_q leb l).
Proof.
  unfold sort_q. induction l as [|v l IH]; [reflexivity|].
  cbn [fold_right]. etransitivity; [|apply insert_q_perm]. now constructor.
Qed.

(** *** The hourly means *)

Lemma qsum_ge (lo : Q) (l : list Q) :
  (forall y, In y l -> lo <= y) -> count l * lo <= qsum l.
Proof.
  induction l as [|v l IH]; intros H.
  - unfold count, qsum. cbn [length fold_right Z.of_nat].
    change (inject_Z 0) with 0. lra.
  - rewrite count_cons. cbn [qsum fold_right]. fold (qsum l).
    assert (lo <= v) by (apply H; now left).
    assert (count l * lo <= qsum l) by (apply IH; intros; apply H; now right).
    lra.
Qed.

Lemma mean_q_nonneg (l : list Q) :
  l <> [] -> (forall v, In v l -> 0 <= v) -> 0 <= mean_q l.
Proof.
  intros Hl H. unfold mean_q.
  assert (0 < count l)
    by (apply HRCalculation.count_pos; destruct l; [congruence|simpl; lia]).
  pose proof (qsum_ge 0 l H). apply Qle_shift_div_l; lra.
Qed.

Lemma group_means_nonneg (key : Z -> Z) (keys : nat) (data : list (Z * Q)) :
  (forall r, In r data -> 0 <= snd r) ->
  forall m, In m (group_means key keys data) -> 0 <= m.
Proof.
  intros H m Hm. unfold group_means in Hm. apply in_flat_map in Hm.
  destruct Hm as (k & _ & Hm). unfold mean in Hm.
  destruct (values_at key (Z.of_nat k) data) as [|v l] eqn:E; [contradiction|].
  destruct Hm as [<-|[]]. apply mean_q_nonneg; [discriminate|].
  intros u Hu. rewrite <- E in Hu. unfold values_at in Hu.
  apply in_map_iff in Hu. destruct Hu as (r & <- & Hr).
  apply filter_In in Hr. now apply H.
Qed.

Lemma group_means_nonempty (key : Z -> Z) (keys : nat) (data : list (Z * Q))
      (r : Z * Q) :
  In r data -> (0 <= key (fst r) < Z.of_nat keys)%Z ->
  group_means key keys data <> [].
Proof.
  intros Hr Hk Hnil. unfold group_means in Hnil.
  assert (In (Z.to_nat (key (fst r))) (seq 0 keys)) as Hin
    by (apply in_seq; lia).
  pose proof (in_flat_map
                (fun k => match mean (values_at key (Z.of_nat k) data) with
                          | Some m => [m]
                          | None => []
                          end) (seq 0 keys)) as Hfm.
  rewrite Hnil in Hfm.
  destruct (mean (values_at key (Z.of_nat (Z.to_nat (key (fst r)))) data))
    as [m|] eqn:E.
  - apply (proj2 (Hfm m)). exists (Z.to_nat (key (fst r))).
    split; [exact Hin|]. rewrite E. now left.
  - unfold mean in E.
    destruct (values_at key (Z.of_nat (Z.to_nat (key (fst r)))) data) eqn:Ev;
      [|discriminate].
    unfold values_at in Ev. apply map_eq_nil in Ev.
    assert (In r (filter (fun r0 => (key (fst r0)
                                     =? Z.of_nat (Z.to_nat (key (fst r))))%Z)
                         data)) as Hf.
    { apply filter_In. split; [exact Hr|]. apply Z.eqb_eq. lia. }
    rewrite Ev in Hf. contradiction.
Qed.

Lemma index_hour_range (t : Z) : (0 <= index_hour t < 24)%Z.
Proof. unfold index_hour. apply Z.mod_pos_bound. lia. Qed.

(** X19. On a table that is not empty and holds no negative value, as the
    scaled measures of [main] are, [non_parametrics] gives M10 and L5 as
    numbers that are not negative; the relative amplitude, when it is a
    number, lies between -1 and 1, and it is no number exactly when M10 and
    L5 are both 0. The two means are sums taken in opposite orders and
    rounded, so no order between L5 and M10 is stated. *)
Theorem relative_amplitude_range (data : list (Z * Q)) :
  data <> [] -> (forall r, In r data -> 0 <= snd r) ->
  exists m10 l5,
    M10 (non_parametrics data) = Some m10
    /\ L5 (non_parametrics data) = Some l5
    /\ 0 <= l5 /\ 0 <= m10
    /\ match RA (non_parametrics data) with
       | Some ra => - (1) <= ra /\ ra <= 1 /\ ~ m10 + l5 == 0
       | None => m10 == 0 /\ l5 == 0
       end.
Proof.
  intros Hne Hpos. unfold non_parametrics. cbn [M10 L5 RA].
  set (hourly_activity := group_means index_hour 24 data).
  assert (hourly_activity <> []) as Hh.
  { destruct data as [|r data]; [congruence|].
    apply group_means_nonempty with r; [now left|].
    apply index_hour_range. }
  assert (forall m, In m hourly_activity -> 0 <= m) as Hm
    by (apply group_means_nonneg; exact Hpos).
  assert (0 < length hourly_activity)%nat as Hlen
    by (destruct hourly_activity; [congruence|simpl; lia]).
  assert (Permutation hourly_activity (sort_q Qle_bool hourly_activity))
    as Pa by apply sort_q_perm.
  assert (Permutation hourly_activity
                      (sort_q (fun a b => Qle_bool b a) hourly_activity))
    as Pd by apply sort_q_perm.
  assert (nsmallest 5 hourly_activity <> []) as Hs.
  { intros E. apply (f_equal (@length Q)) in E. unfold nsmallest in E.
    rewrite length_firstn, <- (Permutation_length Pa) in E.
    cbn [length] in E. lia. }
  assert (nlargest 10 hourly_activity <> []) as Hl.
  { intros E. apply (f_equal (@length Q)) in E. unfold nlargest in E.
    rewrite length_firstn, <- (Permutation_length Pd) in E.
    cbn [length] in E. lia. }
  assert (0 <= mean_q (nsmallest 5 hourly_activity)) as H0.
  { apply mean_q_nonneg; [exact Hs|]. intros v Hv. apply Hm.
    apply ChargingFacts.in_firstn in Hv.
    now apply (Permutation_in _ (Permutation_sym Pa)). }
  assert (0 <= mean_q (nlargest 10 hourly_activity)) as H1.
  { apply mean_q_nonneg; [exact Hl|]. intros v Hv. apply Hm.
    apply ChargingFacts.in_firstn in Hv.
    now apply (Permutation_in _ (Permutation_sym Pd)). }
  exists (mean_q (nlargest 10 hourly_activity)),
    (mean_q (nsmallest 5 hourly_activity)).
  unfold mean.
  destruct (nlargest 10 hourly_activity) as [|b lb] eqn:El; [congruence|].
  destruct (nsmallest 5 hourly_activity) as [|a la] eqn:Es; [congruence|].
  set (m10 := mean_q (b :: lb)) in *. set (l5 := mean_q (a :: la)) in *.
  split; [reflexivity|]. split; [reflexivity|].
  split; [exact H0|]. split; [exact H1|].
  unfold quotient. destruct (Qeq_bool (m10 + l5) 0) eqn:E.
  - apply Qeq_bool_iff in E. split; lra.
  - apply Qeq_bool_neq in E.
    assert (0 < m10 + l5) as Hp.
    { destruct (Qlt_le_dec 0 (m10 + l5)) as [|Hn]; [assumption|].
      exfalso. apply E. lra. }
    split; [apply Qle_shift_div_l; lra|].
    split; [apply Qle_shift_div_r; lra|exact E].
Qed.

(** The theorem on two hours of a day. *)
Lemma relative_amplitude_range_witness :
  exists m10 l5,
    M10 (non_parametrics [(0%Z, 1); (hour, 3)]) = Some m10
    /\ L5 (non_parametrics [(0%Z, 1); (hour, 3)]) = Some l5
    /\ 0 <= l5 /\ 0 <= m10
    /\ match RA (non_parametrics [(0%Z, 1); (hour, 3)]) with
       | Some ra => - (1) <= ra /\ ra <= 1 /\ ~ m10 + l5 == 0
       | None => m10 == 0 /\ l5 == 0
       end.
Proof.
  apply (relative_amplitude_range [(0%Z, 1); (hour, 3)]); [discriminate|].
  intros r [<-|[<-|[]]]; simpl; lra.
Defined.

End NonParametricFacts.

(** ** data_processing/01_Actigraph_AC.py *)

Module ActigraphAC.
Local Open Scope Z_scope.

(** [Series.between], both ends included. *)
Definition between (t left right : Z) : bool := (left <=? t) && (t <=? right).

Section Rows.
Context {A : Type} (time : A -> Z).

(** The mask of [get_real_ActiAC] at one row: true, and-ed with one
    negated test per pair of [zip(nw_start_times, nw_end_times)]. *)
Definition mask (nw_start_times nw_end_times : list Z) (r : A) : bool :=
  fold_left (fun m p => m && negb (between (time r) (fst p) (snd p)))
            (combine nw_start_times nw_end_times) true.

Definition get_real_ActiAC (df : list A) (nw_start_times nw_end_times : list Z)
  : list A :=
  filter (mask nw_start_times nw_end_times) df.

(** The percentage that [main] records; the division fails on an empty
    table. *)
Definition pct_non_wear (whole_ActiAC real_ActiAC : list A) : option Q :=
  match whole_ActiAC with
  | [] => None
  | _ :: _ =>
      Some (round2 ((inject_Z (Z.of_nat (length whole_ActiAC)
                               - Z.of_nat (length real_ActiAC))
                     / inject_Z (Z.of_nat (length whole_ActiAC))) * 100)%Q)
  end.

Lemma mask_fold (t : Z) (l : list (Z * Z)) (b : bool) :
  fold_left (fun m p => m && negb (between t (fst p) (snd p))) l b
  = b && forallb (fun p => negb (between t (fst p) (snd p))) l.
Proof.
  revert b. induction l as [|p l IH]; intros b; cbn [fold_left forallb].
  - now rewrite andb_true_r.
  - rewrite IH. now rewrite andb_assoc.
Qed.

Lemma mask_spec (nw_start_times nw_end_times : list Z) (r : A) :
  mask nw_start_times nw_end_times r = true <->
  forall start_time end_time,
    In (start_time, end_time) (combine nw_start_times nw_end_times) ->
    ~ (start_time <= time r <= end_time).
Proof.
  unfold mask. rewrite mask_fold, andb_true_l, forallb_forall. split.
  - intros H s e Hin Hb. specialize (H (s, e) Hin). cbn [fst snd] in H.
    unfold between in H. apply negb_true_iff, andb_false_iff in H.
    destruct H as [H|H]; apply Z.leb_gt in H; lia.
  - intros H [s e] Hin. cbn [fst snd]. specialize (H s e Hin).
    unfold between. apply negb_true_iff, andb_false_iff.
    destruct (Z.leb_spec s (time r)); [|now left].
    right. apply Z.leb_gt. lia.
Qed.

Lemma filter_twice (p : A -> bool) (l : list A) :
  filter p (filter p l) = filter p l.
Proof.
  induction l as [|x l IH]; [reflexivity|]. cbn [filter].
  destruct (p x) eqn:E; [|exact IH]. cbn [filter]. now rewrite E, IH.
Qed.

(** X20. [get_real_ActiAC] keeps, in their order, exactly the rows whose
    time lies in none of the closed intervals that pair the start and end
    times position by position (a start or end without partner is not
    used); applying it again changes nothing; the percentage of removed
    rows that [main] records lies between 0 and 100, and does not exist
    when the table is empty. *)
Theorem get_real_ActiAC_spec (df : list A) (nw_start_times nw_end_times : list Z) :
  (forall r,
      In r (get_real_ActiAC df nw_start_times nw_end_times) <->
      In r df
      /\ forall start_time end_time,
           In (start_time, end_time) (combine nw_start_times nw_end_times) ->
           ~ (start_time <= time r <= end_time))
  /\ get_real_ActiAC (get_real_ActiAC df nw_start_times nw_end_times)
                     nw_start_times nw_end_times
     = get_real_ActiAC df nw_start_times nw_end_times
  /\ (length (get_real_ActiAC df nw_start_times nw_end_times) <= length df)%nat
  /\ match pct_non_wear df (get_real_ActiAC df nw_start_times nw_end_times) with
     | Some pct => (0 <= pct)%Q /\ (pct <= 100)%Q
     | None => df = []
     end.
Proof.
  unfold get_real_ActiAC.
  pose proof (ActivityCounts.filter_length_le
                (mask nw_start_times nw_end_times) df) as Hlen.
  split; [|split; [|split]].
  - intros r. rewrite filter_In, mask_spec. reflexivity.
  - apply filter_twice.
  - exact Hlen.
  - unfold pct_non_wear. destruct df as [|r0 df]; [reflexivity|].
    set (whole := r0 :: df) in *.
    set (real := filter (mask nw_start_times nw_end_times) whole) in *.
    assert (0 < inject_Z (Z.of_nat (length whole)))%Q as Hpos.
    { change 0%Q with (inject_Z 0). rewrite <- Zlt_Qlt.
      unfold whole. cbn [length]. lia. }
    assert (0 <= inject_Z (Z.of_nat (length whole) - Z.of_nat (length real)))%Q
      as H0.
    { change 0%Q with (inject_Z 0). rewrite <- Zle_Qle. lia. }
    assert (inject_Z (Z.of_nat (length whole) - Z.of_nat (length real))
            <= inject_Z (Z.of_nat (length whole)))%Q as H1.
    { rewrite <- Zle_Qle. lia. }
    apply Facts.round2_bounds.
    + apply Qmult_le_0_compat; [|lra].
      apply Qle_shift_div_l; [assumption|lra].
    + assert (inject_Z (Z.of_nat (length whole) - Z.of_nat (length real))
              / inject_Z (Z.of_nat (length whole)) <= 1)%Q
        by (apply Qle_shift_div_r; [assumption|lra]).
      lra.
Qed.

End Rows.

End ActigraphAC.

(** ** algorithms/counts_cal_.py, the table that [get_counts_csv] counts on *)

Module CountsCal.
Import Clock ReadFile.
Local Open Scope Z_scope.

(** A row of [s]: a missing time with [X=0.0, Y=0.0, Z=0.0]. *)
Definition zero_row (t : Z) : acc_row := mk_acc t 0 0 0.

(** [Series.unique()]: the first occurrences, in their order. *)
Fixpoint unique_from (seen : list Z) (l : list Z) : list Z :=
  match l with
  | [] => []
  | x :: l' =>
      if existsb (Z.eqb x) seen then unique_from seen l'
      else x :: unique_from (x :: seen) l'
  end.

Definition unique (l : list Z) : list Z := unique_from [] l.

(** [get_counts_csv] up to the call of [get_counts], with
    [sampling_freq="20ms"] and [epoch=60] as [calculate_AC] passes them: the
    table [df] sorted by time that is handed over as an array, the epoch
    times [ts], and the zero rows [s], which is the second result. [s] is
    built from a set; it is listed here in the order of [idx]. On an empty
    table the first and last time are missing and [pd.date_range] raises. *)
Definition get_counts_csv_frame (raw : list acc_row)
  : option (list acc_row * list Z * list acc_row) :=
  match raw with
  | [] => None
  | r0 :: rest =>
      let rounded_start_time :=
        floor_to minute (list_min (time r0) (map time rest)) in
      let rounded_end_time :=
        ceil_to minute (list_max (time r0) (map time rest)) in
      let idx := date_range_left rounded_start_time rounded_end_time 20 in
      let missing_time :=
        filter (fun t => negb (existsb (Z.eqb t) (map time raw))) idx in
      let s := map zero_row missing_time in
      let df := Ordering.sorted_by time (raw ++ s) in
      let ts := unique (map (floor_to (60 * second)) (map time df)) in
      Some (df, ts, s)
  end.

Lemma unique_from_In (l : list Z) :
  forall seen x, In x (unique_from seen l) <-> In x l /\ ~ In x seen.
Proof.
  induction l as [|y l IH]; intros seen x; cbn [unique_from].
  - simpl. tauto.
  - destruct (existsb (Z.eqb y) seen) eqn:E.
    + apply WatchTimesFacts.existsb_eqb_In in E. rewrite IH. simpl.
      split; [tauto|]. intros [[->|H] Hn]; [contradiction|tauto].
    + assert (~ In y seen) as Hy.
      { intros H. apply WatchTimesFacts.existsb_eqb_In in H. congruence. }
      simpl. rewrite IH. simpl. split.
      * intros [->|[H Hn]]; [tauto|]. split; [tauto|]. intros Hs. apply Hn. tauto.
      * intros [[->|H] Hn]; [tauto|].
        destruct (Z.eq_dec y x) as [->|Hne]; [tauto|]. right.
        split; [assumption|]. intros [?|?]; tauto.
Qed.

Lemma unique_from_NoDup (l : list Z) : forall seen, NoDup (unique_from seen l).
Proof.
  induction l as [|y l IH]; intros seen; cbn [unique_from]; [constructor|].
  destruct (existsb (Z.eqb y) seen); [apply IH|].
  constructor; [|apply IH]. rewrite unique_from_In. simpl. tauto.
Qed.

Lemma unique_from_sorted (l : list Z) :
  StronglySorted Z.le l -> forall seen, StronglySorted Z.le (unique_from seen l).
Proof.
  induction 1 as [|y l Hs IH Hy]; intros seen; cbn [unique_from];
    [constructor|].
  destruct (existsb (Z.eqb y) seen); [apply IH|].
  constructor; [apply IH|]. rewrite Forall_forall in *. intros x Hx.
  apply unique_from_In in Hx. now apply Hy.
Qed.

Lemma fold_min_in (l : list Z) : forall a, In (fold_left Z.min l a) (a :: l).
Proof.
  induction l as [|x l IH]; intros a; simpl; [now left|].
  destruct (IH (Z.min a x)) as [H|H]; [|now right; right].
  rewrite <- H. destruct (Z.min_spec a x) as [[_ ->]|[_ ->]]; auto.
Qed.

Lemma fold_min_all (l : list Z) :
  forall a x, In x (a :: l) -> fold_left Z.min l a <= x.
Proof.
  induction l as [|y l IH]; intros a x Hx; cbn [fold_left].
  - destruct Hx as [->|[]]. lia.
  - destruct Hx as [->|[->|Hx]].
    + pose proof (ReadFileFacts.fold_min_le l (Z.min x y)). lia.
    + pose proof (ReadFileFacts.fold_min_le l (Z.min a x)). lia.
    + apply IH. now right.
Qed.

Lemma fold_max_all (l : list Z) :
  forall a x, In x (a :: l) -> x <= fold_left Z.max l a.
Proof.
  induction l as [|y l IH]; intros a x Hx; cbn [fold_left].
  - destruct Hx as [->|[]]. lia.
  - destruct Hx as [->|[->|Hx]].
    + pose proof (ReadFileFacts.fold_max_ge l (Z.max x y)). lia.
    + pose proof (ReadFileFacts.fold_max_ge l (Z.max a x)). lia.
    + apply IH. now right.
Qed.

Lemma sorted_map_time (l : list acc_row) :
  StronglySorted (fun a b => time a <= time b) l ->
  StronglySorted Z.le (map time l).
Proof.
  induction 1 as [|r l Hs IH Hr]; cbn [map]; constructor; [exact IH|].
  rewrite Forall_forall in *. intros t Ht. apply in_map_iff in Ht.
  destruct Ht as (r' & <- & Hr'). now apply Hr.
Qed.

Lemma map_time_zero_row (l : list Z) : map time (map zero_row l) = l.
Proof.
  induction l as [|t l IH]; [reflexivity|]. cbn [map]. now rewrite IH.
Qed.

(** Two lists without repetition, one of them sorted, the other sorted by
    the sort: equal as soon as they have the same members. *)
Lemma sorted_same_members (l grid : list Z) :
  StronglySorted Z.le l -> NoDup l -> StronglySorted Z.lt grid ->
  (forall x, In x l <-> In x grid) -> l = grid.
Proof.
  intros Hs Hnd Hg Hin. apply Facts.sorted_perm_unique.
  - exact Hs.
  - now apply Facts.lt_sorted_le.
  - apply NoDup_Permutation; [exact Hnd| |exact Hin].
    now apply Facts.lt_sorted_NoDup.
Qed.

(** The whole minutes of a 20 ms grid that starts on a whole minute. *)
Lemma unique_minutes (first_minute last : Z) :
  first_minute mod minute = 0 ->
  unique (map (floor_to minute) (date_range first_minute last 20))
  = date_range first_minute last minute.
Proof.
  intros Hfm.
  assert (0 < minute) as Hmin by (unfold minute, second; lia).
  assert (0 < 20) as H20 by lia.
  apply sorted_same_members.
  - apply unique_from_sorted.
    pose proof (Facts.date_range_increasing first_minute last 20 H20)
      as Hinc.
    induction Hinc as [|a l Hs IH Ha]; cbn [map]; constructor; [exact IH|].
    rewrite Forall_forall in *. intros t Ht. apply in_map_iff in Ht.
    destruct Ht as (b & <- & Hb). specialize (Ha b Hb).
    unfold floor_to. apply Z.mul_le_mono_nonneg_r; [lia|].
    apply Z.div_le_mono; lia.
  - apply unique_from_NoDup.
  - now apply Facts.date_range_increasing.
  - intros x. unfold unique. rewrite unique_from_In, in_map_iff.
    rewrite (Facts.date_range_In _ _ _ _ Hmin). split.
    + intros [(t & <- & Ht) _].
      apply (proj1 (Facts.date_range_In _ _ 20 _ H20)) in Ht.
      destruct Ht as (k & Hk & -> & Hle).
      destruct (ReadFileFacts.floor_to_spec minute (first_minute + k * 20) Hmin)
        as [Hm Hb].
      pose proof (ReadFileFacts.aligned_le_floor minute first_minute
                    (first_minute + k * 20) Hmin Hfm ltac:(lia)) as Hlo.
      set (f := floor_to minute (first_minute + k * 20)) in *.
      exists ((f - first_minute) / minute). split; [|split].
      * apply Z.div_pos; lia.
      * assert ((f - first_minute) mod minute = 0) as Hd.
        { rewrite Zminus_mod, Hm, Hfm. reflexivity. }
        pose proof (Z.div_mod (f - first_minute) minute ltac:(lia)) as Hdm.
        rewrite Hd in Hdm. lia.
      * lia.
    + intros (k & Hk & -> & Hle). split; [|simpl; tauto].
      exists (first_minute + k * minute). split.
      * unfold floor_to.
        rewrite Z.div_add by lia.
        apply Z.mod_divide in Hfm; [|lia]. destruct Hfm as [c ->].
        rewrite Z.div_mul by lia. ring.
      * apply (proj2 (Facts.date_range_In _ _ 20 _ H20)).
        exists (k * 3000). split; [lia|]. split; [|exact Hle].
        unfold minute, second. ring.
Qed.

(** X21. [get_counts_csv], called on a table that is not empty and whose
    times are distinct multiples of 20 ms, as [read_watch_acc_folder]
    returns them, counts on a table with exactly one row per 20 ms from the
    whole minute at or before the first row on: up to 20 ms before the
    whole minute at or after the last row, and up to that minute itself
    when a recorded row lies on it. The recorded rows are kept, every other
    row is a zero row, and the epoch times are the whole minutes of that
    range. *)
Theorem get_counts_csv_frame_grid (raw : list acc_row) :
  raw <> [] -> NoDup (map time raw) ->
  (forall r, In r raw -> time r mod 20 = 0) ->
  exists df ts s first_minute end_minute last,
    get_counts_csv_frame raw = Some (df, ts, s)
    /\ first_minute mod minute = 0 /\ end_minute mod minute = 0
    /\ (exists r, In r raw /\ first_minute <= time r < first_minute + minute)
    /\ (exists r, In r raw /\ end_minute - minute < time r <= end_minute)
    /\ (forall r, In r raw -> first_minute <= time r <= end_minute)
    /\ ((last = end_minute /\ In end_minute (map time raw))
        \/ (last = end_minute - 20 /\ ~ In end_minute (map time raw)))
    /\ map time df = date_range first_minute last 20
    /\ ts = date_range first_minute last minute
    /\ Permutation (raw ++ s) df
    /\ (forall r, In r s <->
                  r = zero_row (time r)
                  /\ In (time r) (date_range first_minute last 20)
                  /\ ~ In (time r) (map time raw)).
Proof.
  intros Hne Hnd Hgrid.
  assert (0 < minute) as Hmin by (unfold minute, second; lia).
  assert (0 < 20) as H20 by lia.
  destruct raw as [|r0 rest]; [congruence|]. clear Hne.
  set (raw := r0 :: rest) in *.
  unfold get_counts_csv_frame. fold raw. cbv zeta.
  set (mn := list_min (time r0) (map time rest)).
  set (mx := list_max (time r0) (map time rest)).
  set (lo := floor_to minute mn). set (hi := ceil_to minute mx).
  set (idx := date_range_left lo hi 20).
  set (missing_time :=
         filter (fun t => negb (existsb (Z.eqb t) (map time raw))) idx).
  set (s := map zero_row missing_time).
  set (df := Ordering.sorted_by time (raw ++ s)).
  (* the first and the last time *)
  assert (In mn (map time raw)) as Hmn_in
    by (apply (fold_min_in (map time rest) (time r0))).
  assert (In mx (map time raw)) as Hmx_in
    by (apply (ActivityCounts.fold_max_in (map time rest) (time r0))).
  assert (forall t, In t (map time raw) -> mn <= t <= mx) as Hbounds.
  { intros t Ht. split.
    - now apply (fold_min_all (map time rest) (time r0)).
    - now apply (fold_max_all (map time rest) (time r0)). }
  assert (forall t, In t (map time raw) -> t mod 20 = 0) as Hgrid_t.
  { intros t Ht. apply in_map_iff in Ht. destruct Ht as (r & <- & Hr).
    now apply Hgrid. }
  destruct (ReadFileFacts.floor_to_spec minute mn Hmin) as [Hlo_m Hlo_b].
  destruct (ReadFileFacts.ceil_to_spec minute mx Hmin) as [Hhi_m Hhi_b].
  fold lo in Hlo_m, Hlo_b. fold hi in Hhi_m, Hhi_b.
  pose proof (Hbounds mn Hmn_in) as Hmnmx.
  pose proof (Hgrid_t mx Hmx_in) as Hmx20.
  assert (lo mod 20 = 0) as Hlo20.
  { apply Z.mod_divide in Hlo_m; [|lia]. destruct Hlo_m as [c ->].
    unfold minute, second. replace (c * (60 * 1000)) with (c * 3000 * 20) by ring.
    apply Z.mod_mul. lia. }
  assert (hi mod 20 = 0) as Hhi20.
  { apply Z.mod_divide in Hhi_m; [|lia]. destruct Hhi_m as [c ->].
    unfold minute, second. replace (c * (60 * 1000)) with (c * 3000 * 20) by ring.
    apply Z.mod_mul. lia. }
  set (last := Z.max (hi - 20) mx).
  assert ((last = hi /\ mx = hi) \/ (last = hi - 20 /\ mx <= hi - 20)) as Hlast.
  { unfold last. apply Z.mod_divide in Hmx20, Hhi20; try lia.
    destruct Hmx20 as [a Ha], Hhi20 as [b Hb]. lia. }
  (* the members of the filled table *)
  assert (forall t, In t idx <-> exists k, 0 <= k /\ t = lo + k * 20 /\ t < hi)
    as Hidx by (intros t; now apply Facts.date_range_left_In).
  assert (forall t, In t missing_time <->
                    In t (date_range lo last 20) /\ ~ In t (map time raw))
    as Hmissing.
  { intros t. unfold missing_time.
    rewrite filter_In, Hidx, negb_true_iff,
      (Facts.date_range_In lo last 20 t H20).
    rewrite (ActivityCounts.not_true_iff _ _
               (WatchTimesFacts.existsb_eqb_In t (map time raw))).
    split.
    - intros [(k & Hk & -> & Hlt) Hn]. split; [|exact Hn].
      exists k. split; [exact Hk|]. split; [reflexivity|].
      apply Z.mod_divide in Hlo20, Hhi20; try lia.
      destruct Hlo20 as [a Ha], Hhi20 as [b Hb]. lia.
    - intros [(k & Hk & -> & Hle) Hn]. split; [|exact Hn].
      exists k. split; [exact Hk|]. split; [reflexivity|].
      destruct Hlast as [[Hl Hm]|[Hl Hm]]; [|lia].
      assert (lo + k * 20 <> hi); [|lia].
      intros Heq. apply Hn. rewrite Heq, <- Hm. exact Hmx_in. }
  assert (map time df = date_range lo last 20) as Htimes.
  { apply sorted_same_members.
    - apply sorted_map_time. apply Ordering.sorted_by_sorted.
    - apply (Permutation_NoDup
               (l := map time raw ++ missing_time)).
      + unfold df. rewrite <- (Ordering.sorted_by_perm time (raw ++ s)).
        unfold s. rewrite map_app, map_time_zero_row. reflexivity.
      + apply NoDup_app; [exact Hnd| |].
        * apply Facts.lt_sorted_NoDup. unfold missing_time.
          apply filter_sorted. now apply date_range_left_increasing.
        * intros t Ht Hm. apply Hmissing in Hm. tauto.
    - now apply Facts.date_range_increasing.
    - intros t.
      assert (In t (map time df) <-> In t (map time raw ++ missing_time)) as ->.
      { unfold df. split; apply Permutation_in.
        - rewrite <- (Ordering.sorted_by_perm time (raw ++ s)).
          unfold s. rewrite map_app, map_time_zero_row. reflexivity.
        - rewrite <- (Ordering.sorted_by_perm time (raw ++ s)).
          unfold s. rewrite map_app, map_time_zero_row. reflexivity. }
      rewrite in_app_iff, Hmissing. split.
      + intros [Ht|[Ht _]]; [|exact Ht].
        apply (proj2 (Facts.date_range_In lo last 20 t H20)).
        pose proof (Hbounds t Ht) as Hb. pose proof (Hgrid_t t Ht) as Ht20.
        exists ((t - lo) / 20). split; [apply Z.div_pos; lia|].
        split.
        * assert ((t - lo) mod 20 = 0) as Hd
            by (rewrite Zminus_mod, Ht20, Hlo20; reflexivity).
          pose proof (Z.div_mod (t - lo) 20 ltac:(lia)) as Hdm.
          rewrite Hd in Hdm. lia.
        * unfold last. lia.
      + intros Ht.
        destruct (in_dec Z.eq_dec t (map time raw)); [now left|now right]. }
  exists df, (unique (map (floor_to (60 * second)) (map time df))), s,
    lo, hi, last.
  split; [reflexivity|]. split; [exact Hlo_m|]. split; [exact Hhi_m|].
  split.
  { apply in_map_iff in Hmn_in. destruct Hmn_in as (r & Hr & Hin).
    exists r. split; [exact Hin|]. rewrite Hr. exact Hlo_b. }
  split.
  { apply in_map_iff in Hmx_in. destruct Hmx_in as (r & Hr & Hin).
    exists r. split; [exact Hin|]. rewrite Hr. lia. }
  split.
  { intros r Hr. pose proof (Hbounds (time r) (in_map time raw r Hr)). lia. }
  split.
  { destruct Hlast as [[Hl Hm]|[Hl Hm]].
    - left. split; [exact Hl|]. rewrite <- Hm. exact Hmx_in.
    - right. split; [exact Hl|]. intros Hin.
      pose proof (Hbounds hi Hin). lia. }
  split; [exact Htimes|].
  split.
  { rewrite Htimes. change (60 * second) with minute.
    now apply unique_minutes. }
  split; [apply Ordering.sorted_by_perm|].
  intros r. unfold s. rewrite in_map_iff. split.
  - intros (t & <- & Ht). cbn [time zero_row]. split; [reflexivity|].
    now apply Hmissing.
  - intros (Hr & Ht). exists (time r). split; [now symmetry|].
    now apply Hmissing.
Qed.

(** The theorem on two rows 40 ms apart. *)
Lemma get_counts_csv_frame_grid_witness :
  exists df ts s first_minute end_minute last,
    get_counts_csv_frame [mk_acc 60000 1 0 0; mk_acc 60040 0 1 0]
    = Some (df, ts, s)
    /\ first_minute mod minute = 0 /\ end_minute mod minute = 0
    /\ (exists r, In r [mk_acc 60000 1 0 0; mk_acc 60040 0 1 0]
                  /\ first_minute <= time r < first_minute + minute)
    /\ (exists r, In r [mk_acc 60000 1 0 0; mk_acc 60040 0 1 0]
                  /\ end_minute - minute < time r <= end_minute)
    /\ (forall r, In r [mk_acc 60000 1 0 0; mk_acc 60040 0 1 0] ->
                  first_minute <= time r <= end_minute)
    /\ ((last = end_minute
         /\ In end_minute (map time [mk_acc 60000 1 0 0; mk_acc 60040 0 1 0]))
        \/ (last = end_minute - 20
            /\ ~ In end_minute
                 (map time [mk_acc 60000 1 0 0; mk_acc 60040 0 1 0])))
    /\ map time df = date_range first_minute last 20
    /\ ts = date_range first_minute last minute
    /\ Permutation ([mk_acc 60000 1 0 0; mk_acc 60040 0 1 0] ++ s) df
    /\ (forall r, In r s <->
                  r = zero_row (time r)
                  /\ In (time r) (date_range first_minute last 20)
                  /\ ~ In (time r)
                       (map time [mk_acc 60000 1 0 0; mk_acc 60040 0 1 0])).
Proof.
  apply (get_counts_csv_frame_grid [mk_acc 60000 1 0 0; mk_acc 60040 0 1 0]).
  - discriminate.
  - cbn [map time]. repeat constructor; simpl; intuition discriminate.
  - intros r [<-|[<-|[]]]; reflexivity.
Defined.

End CountsCal.

(** ** An hour whose file is too short: utils/read_file.py,
    time_preprocessing/02_Watch_times.py and algorithms/counts_cal_.py *)

Module ShortFiles.
Import Clock ReadFile ReadFileFacts WatchTimes CountsCal.
Local Open Scope Z_scope.

(** [get_counts_csv] raises only on a table without a row. *)
Lemma get_counts_csv_frame_total (raw : list acc_row) :
  raw <> [] ->
  exists df ts s, get_counts_csv_frame raw = Some (df, ts, s).
Proof.
  destruct raw as [|r0 rest]; [congruence|]. intros _.
  unfold get_counts_csv_frame. cbv zeta. eauto.
Qed.

(** A time of the 20 ms grid for which the table has no row, with a row at
    or before it and a row after it, is filled with a zero row, and its
    minute is among the epoch times. *)
Lemma get_counts_csv_frame_fills (raw df : list acc_row) (ts : list Z)
  (s : list acc_row) (t : Z) :
  get_counts_csv_frame raw = Some (df, ts, s) ->
  t mod 20 = 0 ->
  (exists r, In r raw /\ time r <= t) ->
  (exists r, In r raw /\ t < time r) ->
  ~ In t (map time raw) ->
  In (zero_row t) s /\ In (zero_row t) df /\ In (floor_to minute t) ts.
Proof.
  intros Hframe Ht (r1 & Hr1 & Hle) (r2 & Hr2 & Hlt) Hnot.
  assert (0 < minute) as Hmin by (unfold minute, second; lia).
  assert (0 < 20) as H20 by lia.
  destruct raw as [|r0 rest]; [contradiction|].
  unfold get_counts_csv_frame in Hframe. cbv zeta in Hframe.
  set (raw := r0 :: rest) in *.
  set (mn := list_min (time r0) (map time rest)) in Hframe.
  set (mx := list_max (time r0) (map time rest)) in Hframe.
  set (lo := floor_to minute mn) in Hframe.
  set (hi := ceil_to minute mx) in Hframe.
  set (idx := date_range_left lo hi 20) in Hframe.
  set (missing_time :=
         filter (fun t => negb (existsb (Z.eqb t) (map time raw))) idx)
    in Hframe.
  set (s' := map zero_row missing_time) in Hframe.
  set (df' := Ordering.sorted_by time (raw ++ s')) in Hframe.
  set (ts' := unique (map (floor_to (60 * second)) (map time df'))) in Hframe.
  assert (df = df' /\ ts = ts' /\ s = s') as (-> & -> & ->)
    by (repeat split; congruence).
  clear Hframe.
  assert (mn <= time r1) as Hmn
    by (apply (fold_min_all (map time rest) (time r0)),
          (in_map time raw r1 Hr1)).
  assert (time r2 <= mx) as Hmx
    by (apply (fold_max_all (map time rest) (time r0)),
          (in_map time raw r2 Hr2)).
  destruct (floor_to_spec minute mn Hmin) as [Hlo_m Hlo_b].
  destruct (ceil_to_spec minute mx Hmin) as [Hhi_m Hhi_b].
  fold lo in Hlo_m, Hlo_b. fold hi in Hhi_m, Hhi_b.
  assert (In t idx) as Hidx.
  { apply (Facts.date_range_left_In lo hi 20 t H20).
    apply Z.mod_divide in Hlo_m; [|lia]. destruct Hlo_m as [c Hc].
    apply Z.mod_divide in Ht; [|lia]. destruct Ht as [d Hd].
    exists (d - c * 3000). unfold minute, second in Hc. lia. }
  assert (In (zero_row t) s') as Hin_s.
  { apply in_map. apply filter_In. split; [exact Hidx|].
    apply negb_true_iff.
    apply (ActivityCounts.not_true_iff _ _
             (WatchTimesFacts.existsb_eqb_In t (map time raw))).
    exact Hnot. }
  assert (In (zero_row t) df') as Hin_df.
  { apply (Permutation_in _ (Ordering.sorted_by_perm time _)).
    apply in_or_app. now right. }
  repeat split; [exact Hin_s|exact Hin_df|].
  apply unique_from_In.
  split; [|intros []]. change (60 * second) with minute.
  apply in_map. change t with (time (zero_row t)). now apply in_map.
Qed.

(** A file present in the folder is not among the missing files. *)
Lemma files_miss_present (start_time end_time : Z) (files : list Z) (f : Z) :
  In f files -> ~ In f (files_miss start_time end_time files).
Proof.
  intros Hf Hmiss. apply WatchTimesFacts.files_miss_In in Hmiss. tauto.
Qed.

(** The file of the hour [start_time] with [n] samples, 40 ms apart. *)
Definition acc_file (n : nat) (start_time : Z) : list acc_raw :=
  map (fun k => mk_acc_raw (Num (start_time + Z.of_nat k * 40)) 4096 0 0)
      (seq 0 n).

(** Three hours of acceleration files, the second with 49 samples. *)
Definition three_hours : list (Z * list acc_raw) :=
  [(0, acc_file 60 0); (hour, acc_file 49 hour);
   (2 * hour, acc_file 60 (2 * hour))].

(** The table [read_watch_acc_folder] returns for these three hours. *)
Definition three_hours_table : list acc_row :=
  match read_watch_acc_folder three_hours 0 (3 * hour) with
  | Some df_samsung => df_samsung
  | None => []
  end.

(** A heart-rate file of the hour 0: 49 valid samples, one second apart,
    and one row whose timestamp is text. *)
Definition hr_file_with_text : list hr_raw :=
  map (fun k => mk_hr_raw (Num (Z.of_nat k * 1000)) (Some 60%Q)
                          (Some 1000%Q) (Some 1))
      (seq 0 49)
  ++ [mk_hr_raw Text (Some 60%Q) (Some 1000%Q) (Some 1)].

(** The samples of a heart-rate file whose timestamp is a number. *)
Definition hr_samples (raw : list hr_raw) : list hr_raw :=
  filter (fun r => match to_time (hr_UnixTimestamp r) with
                   | Some _ => true
                   | None => false
                   end) raw.

Lemma three_hours_read :
  read_watch_acc_folder three_hours 0 (3 * hour) = Some three_hours_table.
Proof.
  assert (match read_watch_acc_folder three_hours 0 (3 * hour) with
          | Some _ => true
          | None => false
          end = true) as H by (vm_compute; reflexivity).
  unfold three_hours_table.
  destruct (read_watch_acc_folder three_hours 0 (3 * hour));
    [reflexivity|discriminate H].
Qed.

Lemma three_hours_gap :
  forallb (fun t =>
             (t mod 20 =? 0)
             && existsb (fun r => time r <=? t) three_hours_table
             && existsb (fun r => t <? time r) three_hours_table
             && negb (existsb (Z.eqb t) (map time three_hours_table)))
          (date_range_left hour (2 * hour) minute) = true.
Proof. vm_compute. reflexivity. Qed.

(** C6. The claim fails twice. A heart-rate file with 49 samples and one
    more row whose timestamp is text is not rejected: [hr_csv] returns its
    49 samples. And the hour of an acceleration file with 49 samples, although
    [acc_watch_csv] returns nothing for it, is not missing time and does
    produce epochs: [files_miss] lists no hour of the folder, and
    [get_counts_csv], given the table read from the folder, fills every
    whole minute of that hour with a zero row and puts it among the epoch
    times. *)
Lemma short_hour_not_missing :
  (length (hr_samples hr_file_with_text) = 49%nat
   /\ exists df, hr_csv 0 hr_file_with_text = Some df /\ length df = 49%nat)
  /\ (length (acc_parsed (acc_file 49 hour)) = 49%nat
      /\ acc_watch_csv hour (acc_file 49 hour) = None
      /\ files_miss 0 (3 * hour) (map fst three_hours) = []
      /\ exists df_samsung df ts s,
           read_watch_acc_folder three_hours 0 (3 * hour) = Some df_samsung
           /\ get_counts_csv_frame df_samsung = Some (df, ts, s)
           /\ forall t, In t (date_range_left hour (2 * hour) minute) ->
                        In (zero_row t) df /\ In t ts).
Proof.
  split.
  { split; [vm_compute; reflexivity|].
    eexists. split; vm_compute; reflexivity. }
  split; [vm_compute; reflexivity|].
  split; [vm_compute; reflexivity|].
  split; [vm_compute; reflexivity|].
  pose proof three_hours_read as Hread. pose proof three_hours_gap as Hgap.
  revert Hread Hgap. generalize three_hours_table. intros table Hread Hgap.
  assert (table <> []) as Hne.
  { intros ->. vm_compute in Hgap. discriminate Hgap. }
  destruct (get_counts_csv_frame_total table Hne) as (df & ts & s & Hframe).
  exists table, df, ts, s.
  split; [exact Hread|]. split; [exact Hframe|]. clear Hread.
  intros t Ht.
  pose proof (proj1 (forallb_forall _ _) Hgap t Ht) as G. cbv beta in G.
  apply andb_prop in G. destruct G as [G Hnot].
  apply andb_prop in G. destruct G as [G Hafter].
  apply andb_prop in G. destruct G as [Hgrid Hbefore].
  apply Z.eqb_eq in Hgrid.
  apply existsb_exists in Hbefore. destruct Hbefore as (r1 & Hr1 & Hle).
  apply existsb_exists in Hafter. destruct Hafter as (r2 & Hr2 & Hlt).
  apply Z.leb_le in Hle. apply Z.ltb_lt in Hlt.
  apply negb_true_iff in Hnot.
  assert (~ In t (map time table)) as Hnot'.
  { intros Hin. apply WatchTimesFacts.existsb_eqb_In in Hin. congruence. }
  destruct (get_counts_csv_frame_fills table df ts s t Hframe
              Hgrid (ex_intro _ r1 (conj Hr1 Hle))
              (ex_intro _ r2 (conj Hr2 Hlt)) Hnot') as (_ & Hdf & Hts).
  split; [exact Hdf|].
  replace t with (floor_to minute t) at 1; [exact Hts|].
  assert (0 < minute) as Hmin by (unfold minute, second; lia).
  apply (Facts.date_range_left_In hour (2 * hour) minute t Hmin) in Ht.
  destruct Ht as (k & _ & -> & _). unfold floor_to, hour.
  replace (60 * minute + k * minute) with ((60 + k) * minute) by ring.
  now rewrite Z.div_mul by lia.
Qed.

(** C6, amended. [acc_watch_csv] returns nothing, instead of a gap-filled
    series, for every file in which fewer than 50 rows have a numeric
    timestamp, and [hr_csv] for every file in which fewer than 50 rows
    have a timestamp cell; the loop over the folder adds no row for such a
    file. The hour is not reported by [files_miss] as long as its file is
    in the folder. In the table handed to [get_counts_csv], every time of
    the 20 ms grid that has no row, with a row at or before it and one after
    it, is filled with a zero row, and its minute is among the epoch
    times: the rows of a rejected hour between two recorded hours of a
    timeslot are zero rows, not absent ones. *)
Theorem short_file_outcome :
  (forall start_time acc,
      (length (acc_parsed acc) < 50)%nat ->
      acc_watch_csv start_time acc = None
      /\ (forall df_samsung,
             concat_file df_samsung start_time acc = df_samsung)
      /\ (forall df_samsung,
             concat_table df_samsung (acc_watch_csv start_time acc)
             = df_samsung))
  /\ (forall start_time hrs,
         (length (hr_parsed hrs) < 50)%nat ->
         hr_csv start_time hrs = None
         /\ (forall df_hr, concat_hr_file df_hr start_time hrs = df_hr))
  /\ (forall start_time end_time files f,
         In f files -> ~ In f (files_miss start_time end_time files))
  /\ (forall raw t,
         t mod 20 = 0 ->
         (exists r, In r raw /\ time r <= t) ->
         (exists r, In r raw /\ t < time r) ->
         ~ In t (map time raw) ->
         exists df ts s,
           get_counts_csv_frame raw = Some (df, ts, s)
           /\ In (zero_row t) s /\ In (zero_row t) df
           /\ In (floor_to minute t) ts).
Proof.
  split.
  { intros start_time acc Ha.
    destruct (acc_watch_csv_short start_time acc Ha) as [Hnone Hloop].
    split; [exact Hnone|]. split; [exact Hloop|].
    intros df_samsung. rewrite Hnone. now destruct df_samsung. }
  split; [exact hr_csv_short|].
  split; [exact files_miss_present|].
  intros raw t Hgrid Hbefore Hafter Hnot.
  assert (raw <> []) as Hne.
  { destruct Hbefore as (r & Hr & _). intros ->. contradiction. }
  destruct (get_counts_csv_frame_total raw Hne) as (df & ts & s & Hframe).
  exists df, ts, s. split; [exact Hframe|].
  exact (get_counts_csv_frame_fills raw df ts s t Hframe Hgrid Hbefore
           Hafter Hnot).
Qed.

(** The theorem at a file of 49 samples, at a folder with that file, and
    at a table of two rows a minute apart. *)
Lemma short_file_outcome_witness :
  acc_watch_csv hour (acc_file 49 hour) = None
  /\ ~ In hour (files_miss 0 (3 * hour) (map fst three_hours))
  /\ exists df ts s,
       get_counts_csv_frame [mk_acc 0 1 0 0; mk_acc minute 1 0 0]
       = Some (df, ts, s)
       /\ In (zero_row 20) s /\ In (zero_row 20) df
       /\ In (floor_to minute 20) ts.
Proof.
  destruct short_file_outcome as (Hacc & _ & Hmiss & Hfill).
  split.
  { apply (Hacc hour (acc_file 49 hour)). vm_compute. lia. }
  split.
  { apply (Hmiss 0 (3 * hour) (map fst three_hours) hour). vm_compute. tauto. }
  apply (Hfill [mk_acc 0 1 0 0; mk_acc minute 1 0 0] 20).
  - reflexivity.
  - exists (mk_acc 0 1 0 0). split; [now left|]. simpl. lia.
  - exists (mk_acc minute 1 0 0). split; [right; now left|]. vm_compute.
    reflexivity.
  - vm_compute. intros [H|[H|[]]]; discriminate.
Defined.

End ShortFiles.

(** ** algorithms/ActivityCounts.py, [merge_ACs] followed by [clean_ACs] *)

Module CleanACs.
Import Clock NonWear ActivityCounts.
Local Open Scope Q_scope.

(** A percentage of removed rows, [m] rows left of [n]. *)
Lemma pct_range (n m : nat) :
  (0 < n)%nat -> (m <= n)%nat ->
  0 <= round2 ((inject_Z (Z.of_nat n - Z.of_nat m) / inject_Z (Z.of_nat n))
               * 100)
  /\ round2 ((inject_Z (Z.of_nat n - Z.of_nat m) / inject_Z (Z.of_nat n))
             * 100) <= 100.
Proof.
  intros Hn Hm.
  assert (0 < inject_Z (Z.of_nat n)) as Hpos.
  { change 0 with (inject_Z 0). rewrite <- Zlt_Qlt. lia. }
  assert (0 <= inject_Z (Z.of_nat n - Z.of_nat m)) as H0.
  { change 0 with (inject_Z 0). rewrite <- Zle_Qle. lia. }
  assert (inject_Z (Z.of_nat n - Z.of_nat m) <= inject_Z (Z.of_nat n)) as H1
    by (rewrite <- Zle_Qle; lia).
  apply Facts.round2_bounds.
  - apply Qmult_le_0_compat; [|lra].
    apply Qle_shift_div_l; [assumption|lra].
  - assert (inject_Z (Z.of_nat n - Z.of_nat m) / inject_Z (Z.of_nat n) <= 1)
      by (apply Qle_shift_div_r; [assumption|lra]).
    lra.
Qed.

(** The Actigraph rows of another time do not matter to a watch row. *)
Lemma merge_ACs_other_time (t : Z) (WatchAC ActiAC : counts) :
  ~ In t (map fst WatchAC) ->
  merge_ACs WatchAC ActiAC
  = merge_ACs WatchAC (filter (fun a => negb (fst a =? t)%Z) ActiAC).
Proof.
  unfold merge_ACs. induction WatchAC as [|w WatchAC IH]; intros Hn;
    [reflexivity|].
  cbn [flat_map]. rewrite IH by (intros H; apply Hn; now right).
  f_equal. f_equal.
  assert (fst w <> t) as Hw by (intros H; apply Hn; now left).
  clear IH Hn. induction ActiAC as [|a ActiAC IHa]; [reflexivity|].
  cbn [filter]. destruct (Z.eqb_spec (fst a) t) as [Ht|Ht]; cbn [negb filter].
  - destruct (Z.eqb_spec (fst a) (fst w)) as [Hw'|Hw']; [congruence|exact IHa].
  - destruct (fst a =? fst w)%Z; [now rewrite IHa|exact IHa].
Qed.

(** With one watch row per time, the inner merge has at most one row per
    Actigraph row. *)
Lemma merge_ACs_length (WatchAC : counts) :
  NoDup (map fst WatchAC) ->
  forall ActiAC, (length (merge_ACs WatchAC ActiAC) <= length ActiAC)%nat.
Proof.
  induction WatchAC as [|w WatchAC IH]; intros Hnd ActiAC.
  - simpl. lia.
  - cbn [map] in Hnd. inversion Hnd as [|? ? Hnotin Hnd']; subst.
    rewrite <- (filter_length (fun a => (fst a =? fst w)%Z) ActiAC).
    change (merge_ACs (w :: WatchAC) ActiAC)
      with (map (fun a => merge_row (fst w) (snd a) (snd w))
                (filter (fun a => (fst a =? fst w)%Z) ActiAC)
            ++ merge_ACs WatchAC ActiAC).
    rewrite length_app, length_map.
    rewrite (merge_ACs_other_time (fst w) WatchAC ActiAC Hnotin).
    specialize (IH Hnd' (filter (fun a => negb (fst a =? fst w)%Z) ActiAC)).
    lia.
Qed.

Lemma first_pass_rows (data : list row) (sleep : list (Z * Z)) (pct : Q)
      (rm : list row) (r : row) :
  remove_both_non_wearing data sleep = Some (pct, rm) ->
  In r rm -> In r data.
Proof.
  unfold remove_both_non_wearing.
  destruct (time_min data) as [lo|]; [|discriminate].
  destruct (time_max data) as [hi|]; [|discriminate].
  cbv zeta. intros [= _ <-] Hr.
  destruct (scan_windows_spec data sleep lo hi) as [Hrm _].
  rewrite Hrm in Hr. apply in_flat_map in Hr. destruct Hr as (w & _ & Hr).
  destruct (both_non_wearing data sleep w); [contradiction|].
  unfold window_of in Hr. now apply filter_In in Hr.
Qed.

Lemma first_pass_short (data : list row) (sleep : list (Z * Z)) (lo hi : Z) :
  time_min data = Some lo -> time_max data = Some hi ->
  (hi - lo < window_minutes)%Z ->
  exists pct, remove_both_non_wearing data sleep = Some (pct, []).
Proof.
  intros Hlo Hhi Hspan. unfold remove_both_non_wearing.
  rewrite Hlo, Hhi. cbv zeta.
  destruct (scan_windows_spec data sleep lo hi) as [Hrm _].
  assert (rm_data (scan_windows data sleep lo hi) = []) as ->.
  { rewrite Hrm. unfold window_starts, date_range.
    assert ((hi - window_minutes <? lo)%Z = true) as ->
      by (apply Z.ltb_lt; lia).
    reflexivity. }
  eauto.
Qed.

(** X22. With one watch row per time, [merge_ACs] gives at most as many
    rows as the Actigraph table has. [clean_ACs] on the merged table then
    either returns a charging percentage and a second-pass percentage
    between 0 and 100 and a final table of merged rows that all meet one of
    the two conditions of the second pass, or it fails on a division by
    zero: that happens only when the Actigraph table is empty or the first
    pass leaves no row, and it does happen for every merged table that
    spans less than 15 minutes. *)
Theorem clean_ACs_outcome (WatchAC ActiAC : counts) (sleep : list (Z * Z)) :
  NoDup (map fst WatchAC) ->
  (length (merge_ACs WatchAC ActiAC) <= length ActiAC)%nat
  /\ match clean_ACs ActiAC (merge_ACs WatchAC ActiAC) sleep with
     | Some (pct_charging, _, pct_single_no_wear, final_data) =>
         0 <= pct_charging /\ pct_charging <= 100
         /\ 0 <= pct_single_no_wear /\ pct_single_no_wear <= 100
         /\ forall r, In r final_data ->
              In r (merge_ACs WatchAC ActiAC)
              /\ condition_1 r || condition_2 r = true
     | None =>
         ActiAC = []
         \/ merge_ACs WatchAC ActiAC = []
         \/ exists pct,
              remove_both_non_wearing (merge_ACs WatchAC ActiAC) sleep
              = Some (pct, [])
     end
  /\ (forall lo hi,
        time_min (merge_ACs WatchAC ActiAC) = Some lo ->
        time_max (merge_ACs WatchAC ActiAC) = Some hi ->
        (hi - lo < window_minutes)%Z ->
        clean_ACs ActiAC (merge_ACs WatchAC ActiAC) sleep = None).
Proof.
  intros Hnd. pose proof (merge_ACs_length WatchAC Hnd ActiAC) as Hlen.
  set (data := merge_ACs WatchAC ActiAC) in *.
  split; [exact Hlen|]. split.
  - unfold clean_ACs. destruct ActiAC as [|a ActiAC]; [now left|].
    set (A := a :: ActiAC) in *.
    destruct (remove_both_non_wearing data sleep) as [[pb rm]|] eqn:Eb.
    + destruct rm as [|r0 rm].
      * cbn [remove_single_non_wearing]. right. right. now exists pb.
      * set (rm0 := r0 :: rm) in *.
        assert (remove_single_non_wearing rm0
                = Some (pct_removed rm0
                          (filter (fun r => condition_1 r || condition_2 r) rm0),
                        filter (fun r => condition_1 r || condition_2 r) rm0))
          as -> by reflexivity.
        destruct (pct_range (length A) (length data)) as [Hc0 Hc1];
          [unfold A; cbn [length]; lia|exact Hlen|].
        destruct (pct_range (length rm0)
                    (length (filter (fun r => condition_1 r || condition_2 r)
                                    rm0))) as [Hs0 Hs1];
          [unfold rm0; cbn [length]; lia|apply filter_length_le|].
        split; [exact Hc0|]. split; [exact Hc1|].
        split; [exact Hs0|]. split; [exact Hs1|].
        intros r Hr. apply filter_In in Hr. destruct Hr as [Hr Hcond].
        split; [|exact Hcond].
        now apply (first_pass_rows data sleep pb rm0).
    + right. left. unfold remove_both_non_wearing in Eb.
      destruct data as [|d data']; [reflexivity|discriminate].
  - intros lo hi Hlo Hhi Hspan.
    destruct (first_pass_short data sleep lo hi Hlo Hhi Hspan) as (pct & Hp).
    unfold clean_ACs. destruct ActiAC; [reflexivity|]. now rewrite Hp.
Qed.

(** Two watch rows and two Actigraph rows ten minutes apart. *)
Definition watch_ten_minutes : counts := [(0%Z, 10); ((10 * minute)%Z, 7)].
Definition acti_ten_minutes : counts := [(0%Z, 12); ((10 * minute)%Z, 9)].

Lemma clean_ACs_outcome_witness :
  (length (merge_ACs watch_ten_minutes acti_ten_minutes)
   <= length acti_ten_minutes)%nat
  /\ clean_ACs acti_ten_minutes
               (merge_ACs watch_ten_minutes acti_ten_minutes) [] = None.
Proof.
  destruct (clean_ACs_outcome watch_ten_minutes acti_ten_minutes [])
    as (Hlen & _ & Hshort).
  - cbn [watch_ten_minutes map fst]. repeat constructor; simpl;
      intuition discriminate.
  - split; [exact Hlen|].
    apply (Hshort 0%Z (10 * minute)%Z); reflexivity.
Defined.

End CleanACs.

(** ** circadian_calculation_comparison/01_Cosinor_metrics.py, the
    10-minute tables given to the fit *)

Module CosinorData.
Import Clock NonParametric.
Local Open Scope Z_scope.

Definition time_interval : Z := 10.

(** The width of a bin of [resample(str(time_interval) + 'T')]. *)
Definition bin_width : Z := time_interval * minute.

Definition in_bin (bin t : Z) : bool := (bin <=? t) && (t <? bin + bin_width).

(** The bins of a resampled table: from the bin of the earliest row to the
    bin of the latest, the empty ones in between included. *)
Definition bins (df : list (Z * Q)) : list Z :=
  match df with
  | [] => []
  | r0 :: rest =>
      date_range
        (floor_to bin_width (ReadFile.list_min (fst r0) (map fst rest)))
        (ReadFile.list_max (fst r0) (map fst rest)) bin_width
  end.

Definition bin_values (df : list (Z * Q)) (bin : Z) : list Q :=
  map snd (filter (fun r => in_bin bin (fst r)) df).

(** [aggregate_sum]: an empty bin sums to 0. *)
Definition aggregate_sum (df : list (Z * Q)) : list (Z * Q) :=
  map (fun bin => (bin, qsum (bin_values df bin))) (bins df).

(** [aggregate_mean]: an empty bin has no mean. *)
Definition aggregate_mean (df : list (Z * Q)) : list (Z * option Q) :=
  map (fun bin => (bin, mean (bin_values df bin))) (bins df).

(** [to_cosinor_format]: [x], [y] and the label [test] of each row. *)
Definition to_cosinor_format {V L : Type} (df : list (Z * V)) (label : L)
  : list (Q * V * L) :=
  map (fun r => ((inject_Z (index_hour (fst r) * 60 + index_minute (fst r))
                  / 10)%Q,
                 snd r, label)) df.

(** [int(24*60/time_interval)], the period given to the fit. *)
Definition time_period : Z := 24 * 60 / time_interval.

Lemma bin_width_pos : 0 < bin_width.
Proof. reflexivity. Qed.

Lemma bins_sorted (df : list (Z * Q)) : StronglySorted Z.lt (bins df).
Proof.
  destruct df as [|r0 rest]; [constructor|].
  apply Facts.date_range_increasing. exact bin_width_pos.
Qed.

Lemma bins_aligned (df : list (Z * Q)) (bin : Z) :
  In bin (bins df) -> bin mod bin_width = 0.
Proof.
  destruct df as [|r0 rest]; [contradiction|]. cbn [bins]. intros H.
  apply (proj1 (Facts.date_range_In _ _ bin_width _ bin_width_pos)) in H.
  destruct H as (k & _ & -> & _). rewrite Z.mod_add by discriminate.
  now apply ReadFileFacts.floor_to_spec.
Qed.

(** Every row has its bin. *)
Lemma bin_of_row (df : list (Z * Q)) (r : Z * Q) :
  In r df -> In (floor_to bin_width (fst r)) (bins df).
Proof.
  destruct df as [|r0 rest]; [contradiction|]. intros Hr. cbn [bins].
  set (mn := ReadFile.list_min (fst r0) (map fst rest)).
  set (mx := ReadFile.list_max (fst r0) (map fst rest)).
  assert (In (fst r) (fst r0 :: map fst rest)) as Hin
    by (change (fst r0 :: map fst rest) with (map fst (r0 :: rest));
        now apply in_map).
  assert (mn <= fst r) as Hlo
    by (apply (CountsCal.fold_min_all (map fst rest) (fst r0) (fst r) Hin)).
  assert (fst r <= mx) as Hhi
    by (apply (CountsCal.fold_max_all (map fst rest) (fst r0) (fst r) Hin)).
  destruct (ReadFileFacts.floor_to_spec bin_width mn bin_width_pos) as [Hm Hb].
  destruct (ReadFileFacts.floor_to_spec bin_width (fst r) bin_width_pos)
    as [Hm' Hb'].
  pose proof (ReadFileFacts.aligned_le_floor bin_width
                (floor_to bin_width mn) (fst r) bin_width_pos Hm
                ltac:(lia)) as Hle.
  apply (proj2 (Facts.date_range_In _ _ bin_width _ bin_width_pos)).
  set (f := floor_to bin_width (fst r)) in *.
  set (g := floor_to bin_width mn) in *.
  exists ((f - g) / bin_width). split; [apply Z.div_pos; [lia|reflexivity]|].
  split; [|lia].
  assert ((f - g) mod bin_width = 0) as Hd
    by (rewrite Zminus_mod, Hm, Hm'; reflexivity).
  pose proof (Z.div_mod (f - g) bin_width ltac:(discriminate)) as Hdm.
  rewrite Hd in Hdm. lia.
Qed.

(** A time lies in one bin only. *)
Lemma one_bin (l : list Z) (t b0 : Z) :
  NoDup l -> In b0 l -> in_bin b0 t = true ->
  (forall b, In b l -> in_bin b t = true -> b = b0) ->
  length (filter (fun b => in_bin b t) l) = 1%nat.
Proof.
  induction 1 as [|b l Hnotin Hnd IH]; intros Hin Hp Huniq; [contradiction|].
  cbn [filter]. destruct (in_bin b t) eqn:E.
  - assert (b = b0) as -> by (apply Huniq; [now left|exact E]).
    assert (filter (fun b => in_bin b t) l = []) as ->; [|reflexivity].
    destruct (filter (fun b => in_bin b t) l) as [|b' l'] eqn:F; [reflexivity|].
    assert (In b' (filter (fun b => in_bin b t) l)) as Hb'
      by (rewrite F; now left).
    apply filter_In in Hb'. destruct Hb' as [Hb' Hp'].
    exfalso. apply Hnotin.
    rewrite <- (Huniq b' (or_intror Hb') Hp'). exact Hb'.
  - destruct Hin as [->|Hin]; [congruence|].
    apply IH; [exact Hin|exact Hp|]. intros b' Hb'. apply Huniq. now right.
Qed.

Lemma bins_of_time (df : list (Z * Q)) (r : Z * Q) :
  In r df -> length (filter (fun b => in_bin b (fst r)) (bins df)) = 1%nat.
Proof.
  intros Hr.
  destruct (ReadFileFacts.floor_to_spec bin_width (fst r) bin_width_pos)
    as [Hm Hb].
  apply one_bin with (b0 := floor_to bin_width (fst r)).
  - apply Facts.lt_sorted_NoDup, bins_sorted.
  - now apply bin_of_row.
  - unfold in_bin. apply andb_true_iff.
    split; [apply Z.leb_le|apply Z.ltb_lt]; lia.
  - intros b Hin Hp. apply bins_aligned in Hin.
    unfold in_bin in Hp. apply andb_true_iff in Hp.
    rewrite Z.leb_le, Z.ltb_lt in Hp.
    apply Z.mod_divide in Hin, Hm; try discriminate.
    destruct Hin as [u Hu], Hm as [v Hv]. rewrite Hu, Hv in *.
    assert (u = v) as -> by (unfold bin_width, time_interval, minute, second in *; lia).
    reflexivity.
Qed.

(** The sum over the bins, one row at a time. *)
Lemma sum_of_bins_cons (r : Z * Q) (df : list (Z * Q)) (l : list Z) :
  (qsum (map (fun bin => qsum (bin_values (r :: df) bin)) l)
   == inject_Z (Z.of_nat (length (filter (fun b => in_bin b (fst r)) l)))
      * snd r
      + qsum (map (fun bin => qsum (bin_values df bin)) l))%Q.
Proof.
  induction l as [|b l IH].
  - simpl. ring.
  - cbn [map qsum fold_right filter].
    fold (qsum (map (fun bin => qsum (bin_values (r :: df) bin)) l)).
    fold (qsum (map (fun bin => qsum (bin_values df bin)) l)).
    rewrite IH. unfold bin_values at 1. cbn [filter].
    destruct (in_bin b (fst r)).
    + cbn [map qsum fold_right length]. fold (bin_values df b).
      fold (qsum (bin_values df b)).
      rewrite Nat2Z.inj_succ. unfold Z.succ. rewrite inject_Z_plus.
      change (inject_Z 1) with 1%Q. ring.
    + fold (bin_values df b). ring.
Qed.

Lemma sum_of_bins (l : list Z) (df : list (Z * Q)) :
  (forall r, In r df ->
             length (filter (fun b => in_bin b (fst r)) l) = 1%nat) ->
  (qsum (map (fun bin => qsum (bin_values df bin)) l)
   == qsum (map snd df))%Q.
Proof.
  induction df as [|r df IH]; intros Hone.
  - clear Hone. induction l as [|b l IHl]; [reflexivity|].
    cbn [map qsum fold_right].
    fold (qsum (map (fun bin => qsum (bin_values [] bin)) l)).
    rewrite IHl. unfold bin_values. cbn [filter map qsum fold_right].
    ring.
  - rewrite sum_of_bins_cons, (Hone r (or_introl eq_refl)).
    rewrite IH by (intros r' Hr'; apply Hone; now right).
    cbn [map qsum fold_right]. fold (qsum (map snd df)).
    change (inject_Z (Z.of_nat 1)) with 1%Q. ring.
Qed.

(** The [x] of a bin: the number of the bin in its day. *)
Lemma x_of_bin (bin : Z) :
  bin mod bin_width = 0 ->
  index_hour bin * 60 + index_minute bin
  = 10 * ((bin / bin_width) mod time_period).
Proof.
  intros Hm. apply Z.mod_divide in Hm; [|discriminate].
  destruct Hm as [j ->]. rewrite Z.div_mul by discriminate.
  unfold index_hour, index_minute.
  change hour with (6 * bin_width). change minute with 60000.
  change bin_width with (10 * 60000). change time_period with 144.
  replace (j * (10 * 60000) / 60000) with (10 * j)
    by (rewrite Z.mul_assoc, Z.div_mul by discriminate; ring).
  replace (j * (10 * 60000) / (6 * (10 * 60000))) with (j / 6).
  2:{ rewrite (Z.mul_comm 6), <- Z.div_div by lia.
      now rewrite Z.div_mul by discriminate. }
  Z.div_mod_to_equations. lia.
Qed.

(** X23. [aggregate_sum] returns one row per 10-minute bin, the times
    whole multiples of 10 minutes in strictly increasing order, every row
    of the table falling in the bin it is counted in; the sums of the bins
    add up to the sum of the table, so no count is lost or counted twice.
    [to_cosinor_format] then gives each bin a whole number from 0 to 143 as
    its [x], below the period of 144 that [main] asks the fit for. *)
Theorem aggregate_sum_conserves {L : Type} (df : list (Z * Q)) (label : L) :
  (qsum (map snd (aggregate_sum df)) == qsum (map snd df))%Q
  /\ StronglySorted Z.lt (map fst (aggregate_sum df))
  /\ (forall bin, In bin (map fst (aggregate_sum df)) ->
                  bin mod bin_width = 0)
  /\ (forall r, In r df ->
        exists bin, In bin (map fst (aggregate_sum df))
                    /\ bin <= fst r < bin + bin_width)
  /\ (forall x y test,
        In (x, y, test) (to_cosinor_format (aggregate_sum df) label) ->
        exists k, 0 <= k < time_period /\ (x == inject_Z k)%Q).
Proof.
  assert (map fst (aggregate_sum df) = bins df) as Hfst.
  { unfold aggregate_sum. rewrite map_map. cbn [fst]. apply map_id. }
  assert (map snd (aggregate_sum df)
          = map (fun bin => qsum (bin_values df bin)) (bins df)) as Hsnd.
  { unfold aggregate_sum. rewrite map_map. reflexivity. }
  rewrite Hfst, Hsnd. split; [|split; [|split; [|split]]].
  - apply sum_of_bins. intros r Hr. now apply bins_of_time.
  - apply bins_sorted.
  - apply bins_aligned.
  - intros r Hr. exists (floor_to bin_width (fst r)).
    split; [now apply bin_of_row|].
    destruct (ReadFileFacts.floor_to_spec bin_width (fst r) bin_width_pos).
    lia.
  - intros x y test Hin. unfold to_cosinor_format in Hin.
    apply in_map_iff in Hin. destruct Hin as ([bin v] & Heq & Hin).
    cbn [fst snd] in Heq. injection Heq as <- _ _.
    assert (In bin (bins df)) as Hb
      by (rewrite <- Hfst; apply in_map_iff; exists (bin, v); auto).
    apply bins_aligned in Hb. rewrite (x_of_bin bin Hb).
    exists ((bin / bin_width) mod time_period). split.
    + apply Z.mod_pos_bound. reflexivity.
    + rewrite inject_Z_mult. change (inject_Z 10) with 10%Q. field.
Qed.

(** X24. [aggregate_mean] has the bins of [aggregate_sum]. A bin has no
    mean exactly when no row of the table falls in it, and these are the
    rows that [main] drops; the mean of a bin without a negative value is
    not negative. *)
Theorem aggregate_mean_bins (df : list (Z * Q)) :
  map fst (aggregate_mean df) = map fst (aggregate_sum df)
  /\ forall bin m, In (bin, m) (aggregate_mean df) ->
       match m with
       | None => forall r, In r df -> ~ (bin <= fst r < bin + bin_width)
       | Some v =>
           (exists r, In r df /\ bin <= fst r < bin + bin_width)
           /\ ((forall r, In r df -> bin <= fst r < bin + bin_width ->
                           (0 <= snd r)%Q) ->
               (0 <= v)%Q)
       end.
Proof.
  split.
  - unfold aggregate_mean, aggregate_sum. rewrite !map_map. reflexivity.
  - intros bin m Hin. unfold aggregate_mean in Hin. apply in_map_iff in Hin.
    destruct Hin as (b & Heq & _). injection Heq as -> <-.
    assert (forall r, In r (filter (fun r => in_bin bin (fst r)) df) <->
                      In r df /\ bin <= fst r < bin + bin_width) as Hf.
    { intros r. rewrite filter_In. unfold in_bin.
      rewrite andb_true_iff, Z.leb_le, Z.ltb_lt. reflexivity. }
    unfold bin_values.
    destruct (filter (fun r => in_bin bin (fst r)) df) as [|r0 rows] eqn:E.
    + cbn [map mean]. intros r Hr Hb.
      apply (proj2 (Hf r) (conj Hr Hb)).
    + cbn [map mean]. split.
      * exists r0. apply Hf. now left.
      * intros Hpos.
        apply (NonParametricFacts.mean_q_nonneg (snd r0 :: map snd rows));
          [discriminate|].
        change (snd r0 :: map snd rows) with (map snd (r0 :: rows)).
        intros v Hv. apply in_map_iff in Hv.
        destruct Hv as (r & <- & Hr). apply Hf in Hr.
        now apply Hpos.
Qed.

End CosinorData.
